(** * Gowin FPGA programming over JTAG: a shallow embedding of [gowin.cpp]

    The C++ class [Gowin] drives a JTAG transport.  The transport, the
    bitstream parsers and the console are collaborators of the class; here
    the transport is an explicit world (a response oracle, a read cursor, the
    configured clock and the record of everything that was sent), and every
    method is a function in a small state monad over that world. *)

From Stdlib Require Import ZArith Zbitwise List String Ascii Bool Lia.
Import ListNotations.
Open Scope Z_scope.

(** ** Command and status-register constants (the [#define]s of the file) *)

Definition NOOP : Z := 0x02.
Definition ERASE_SRAM : Z := 0x05.
Definition READ_SRAM : Z := 0x03.
Definition XFER_DONE : Z := 0x09.
Definition READ_IDCODE : Z := 0x11.
Definition INIT_ADDR : Z := 0x12.
Definition READ_USERCODE : Z := 0x13.
Definition CONFIG_ENABLE : Z := 0x15.
Definition XFER_WRITE : Z := 0x17.
Definition CONFIG_DISABLE : Z := 0x3A.
Definition RELOAD : Z := 0x3C.
Definition STATUS_REGISTER : Z := 0x41.
Definition STATUS_MEMORY_ERASE : Z := Z.shiftl 1 5.
Definition STATUS_SYSTEM_EDIT_MODE : Z := Z.shiftl 1 7.
Definition STATUS_GOWIN_VLD : Z := Z.shiftl 1 12.
Definition STATUS_DONE_FINAL : Z := Z.shiftl 1 13.
Definition STATUS_POR : Z := Z.shiftl 1 16.
Definition EF_PROGRAM : Z := 0x71.
Definition EFLASH_ERASE : Z := 0x75.
Definition SWITCH_TO_MCU_JTAG : Z := 0x7a.

Definition BSCAN_SPI_SCK : Z := Z.shiftl 1 1.
Definition BSCAN_SPI_CS : Z := Z.shiftl 1 3.
Definition BSCAN_SPI_DI : Z := Z.shiftl 1 5.
Definition BSCAN_SPI_DO : Z := Z.shiftl 1 7.
Definition BSCAN_SPI_MSK : Z := Z.shiftl 1 6.
Definition BSCAN_GW1NSR_4C_SPI_SCK : Z := Z.shiftl 1 7.
Definition BSCAN_GW1NSR_4C_SPI_CS : Z := Z.shiftl 1 5.
Definition BSCAN_GW1NSR_4C_SPI_DI : Z := Z.shiftl 1 3.
Definition BSCAN_GW1NSR_4C_SPI_DO : Z := Z.shiftl 1 1.
Definition BSCAN_GW1NSR_4C_SPI_MSK : Z := Z.shiftl 1 0.

(** [ETIME] of [errno.h] on Linux. *)
Definition ETIME : Z := 62.

(** ** Bytes and 32-bit words

    A byte is a [Z] in [0, 256); a [uint32_t] is a [Z] in [0, 2^32).  The
    host is little-endian, so [htole32] and [le32toh] are the identity and a
    word lies in memory least significant byte first. *)

Definition u8 (x : Z) : Z := x mod 256.
Definition u32 (x : Z) : Z := x mod 2 ^ 32.

Definition htole32 (x : Z) : Z := x.
Definition le32toh (x : Z) : Z := x.

(** The four bytes of a word as they lie in memory. *)
Definition word_bytes (w : Z) : list Z :=
  [ u8 w; u8 (Z.shiftr w 8); u8 (Z.shiftr w 16); u8 (Z.shiftr w 24) ].

(** The word that a memory image denotes (bytes past the fourth ignored,
    missing bytes read as zero). *)
Definition bytes_word (l : list Z) : Z :=
  u8 (nth 0 l 0) + Z.shiftl (u8 (nth 1 l 0)) 8
  + Z.shiftl (u8 (nth 2 l 0)) 16 + Z.shiftl (u8 (nth 3 l 0)) 24.

Definition bswap_32 (x : Z) : Z :=
  Z.lor (Z.lor (Z.lor
    (Z.land (Z.shiftl x 24) 0xff000000)
    (Z.land (Z.shiftl x 8) 0x00ff0000))
    (Z.land (Z.shiftr x 8) 0x0000ff00))
    (Z.land (Z.shiftr x 24) 0x000000ff).

(** ** The transport and the console *)

Inductive tapState_t : Type :=
  | TEST_LOGIC_RESET
  | RUN_TEST_IDLE
  | SHIFT_DR
  | EXIT2_DR.

(** The buffers of the shift-register-assisted [spi_put]: its two local
    variable-length arrays and the two buffers of its caller. *)
Inductive buffer : Type := Jtx | Jrx | Tx | Rx.

(** Everything the class does to the outside, in the order it does it.  A
    data-register shift records the bytes sent, the bytes captured when a
    receive buffer was given, the bit count and the end state when the
    caller names one.  [Index b i size] records that element [i] of the local
    array [b], allocated with [size] elements, was read or written. *)
Inductive event : Type :=
  | ShiftIR (tdi : Z) (irlen : Z)
  | ShiftDR (tdi : list Z) (tdo : option (list Z)) (drlen : Z)
            (end_state : option tapState_t)
  | ToggleClk (n : Z)
  | SetState (s : tapState_t)
  | Flush
  | SetClkFreq (hz : Z)
  | Usleep (us : Z)
  | PrintInfo (s : string)
  | PrintError (s : string)
  | PrintSuccess (s : string)
  | PrintWarn (s : string)
  | Printf (fmt : string) (args : list Z)
  | DisplayReadReg (prefix : string) (reg : Z)
  | Index (buf : buffer) (i : Z) (size : Z).

Record World : Type := mkWorld {
  target_device_id : Z; (* what get_target_device_id reports *)
  reads : nat;          (* capturing shifts done so far *)
  clkfreq : Z;          (* what getClkFreq reports *)
  trace : list event    (* chronological *)
}.

(** Events that do not touch the transport. *)
Definition is_console (e : event) : bool :=
  match e with
  | PrintInfo _ | PrintError _ | PrintSuccess _ | PrintWarn _
  | Printf _ _ | DisplayReadReg _ _ | Index _ _ _ => true
  | _ => false
  end.

(** ** The monad: state over [World], [None] when a loop's fuel runs out *)

Definition M (A : Type) : Type := World -> option (A * World).

Definition ret {A} (a : A) : M A := fun w => Some (a, w).

Definition bind {A B} (m : M A) (k : A -> M B) : M B :=
  fun w => match m w with
           | Some (a, w') => k a w'
           | None => None
           end.

Definition out_of_fuel {A} : M A := fun _ => None.

Declare Scope m_scope.
Delimit Scope m_scope with m.
Notation "x <- m ;; k" := (bind m (fun x => k))
  (at level 61, m at next level, right associativity) : m_scope.
Notation "m ;; k" := (bind m (fun _ => k))
  (at level 61, right associativity) : m_scope.
Notation "' p <- m ;; k" := (bind m (fun x => match x with p => k end))
  (at level 61, p pattern, m at next level, right associativity) : m_scope.
Open Scope m_scope.

Definition emit (e : event) : M unit :=
  fun w => Some (tt, mkWorld (target_device_id w) (reads w) (clkfreq w)
                            (trace w ++ [e])).

Definition when (b : bool) (m : M unit) : M unit := if b then m else ret tt.

(** *** Loops

    A loop body maps the loop variables to either new loop variables
    ([inl], go round again) or the value the loop leaves with ([inr]).
    [iter_nat] runs the body at most [n] times; [loop_pos] is the same with
    binary fuel, so that large bounds stay cheap to write down and to run. *)

Fixpoint iter_nat {S R} (body : S -> M (S + R)) (n : nat) (s : S) : M (S + R) :=
  match n with
  | O => ret (inl s)
  | Datatypes.S n' =>
      r <- body s ;;
      match r with
      | inl s' => iter_nat body n' s'
      | inr x => ret (inr x)
      end
  end.

Fixpoint loop_pos {S R} (body : S -> M (S + R)) (p : positive) (s : S)
  : M (S + R) :=
  match p with
  | xH => body s
  | xO q =>
      r <- loop_pos body q s ;;
      match r with
      | inl s' => loop_pos body q s'
      | inr x => ret (inr x)
      end
  | xI q =>
      r <- body s ;;
      match r with
      | inl s' =>
          r' <- loop_pos body q s' ;;
          match r' with
          | inl s'' => loop_pos body q s''
          | inr x => ret (inr x)
          end
      | inr x => ret (inr x)
      end
  end.

Definition loop {S R} (fuel : positive) (body : S -> M (S + R)) (s : S) : M R :=
  r <- loop_pos body fuel s ;;
  match r with
  | inl _ => out_of_fuel
  | inr x => ret x
  end.

(** ** The parsed image, as the class sees a [ConfigBitstreamParser] *)

Record Image : Type := mkImage {
  img_data : list Z;                    (* getData() *)
  img_length : Z;                       (* getLength(), in bits *)
  img_header : list (string * string);  (* the header map *)
  img_checksum : Z                      (* FsParser::checksum() *)
}.

(** [getHeaderVal]: [None] stands for the exception thrown on a missing key. *)
Fixpoint header_find (key : string) (h : list (string * string)) : option string :=
  match h with
  | [] => None
  | (k, v) :: h' => if String.eqb k key then Some v else header_find key h'
  end.

Definition getHeaderVal (fs : Image) (key : string) : option string :=
  header_find key (img_header fs).

(** [uint16_t FsParser::checksum()] *)
Definition checksum (fs : Image) : Z := img_checksum fs mod 2 ^ 16.

Inductive prog_type_t : Type := WR_SRAM | WR_FLASH | RD_FLASH.
Inductive prog_mode : Type := NONE_MODE | FLASH_MODE | MEM_MODE.

(** ** The device session: the members of [Gowin] that the methods read *)

Record Gowin : Type := mkGowin {
  _fs : option Image;
  _mcufw : option Image;
  _mode : prog_mode;
  is_gw1n1 : bool;
  is_gw2a : bool;
  is_gw1n4 : bool;
  is_gw5a : bool;
  _external_flash : bool;
  skip_checksum : bool;
  _spi_sck : Z;
  _spi_cs : Z;
  _spi_di : Z;
  _spi_do : Z;
  _spi_msk : Z;
  _verbose : bool;
  _quiet : bool;
  _verify : bool
}.

(** ** Buffers *)

Definition memset (n : nat) (v : Z) : list Z := repeat v n.

(** [memcpy(dst, src, n)]: the first [n] bytes of [dst] become those of
    [src]. *)
Definition memcpy (dst src : list Z) (n : nat) : list Z :=
  map (fun i => nth i src 0) (seq 0 n) ++ skipn n dst.

(** The autoboot pattern ['G', 'W', '1', 'N']. *)
Definition pat : list Z :=
  map (fun c => Z.of_N (N_of_ascii c)) ["G"; "W"; "1"; "N"]%char.

(** ** [strtol] and [std::stoul] in base 16 (64-bit [long])

    Leading white space, an optional sign, an optional [0x] and then the
    longest run of hexadecimal digits. *)

Definition is_space (c : ascii) : bool :=
  let n := N_of_ascii c in
  (n =? 32)%N || ((9 <=? n)%N && (n <=? 13)%N).

Definition hex_digit (c : ascii) : option Z :=
  let n := Z.of_N (N_of_ascii c) in
  if (48 <=? n) && (n <=? 57) then Some (n - 48)
  else if (97 <=? n) && (n <=? 102) then Some (n - 87)
  else if (65 <=? n) && (n <=? 70) then Some (n - 55)
  else None.

Fixpoint skip_spaces (s : string) : string :=
  match s with
  | String c s' => if is_space c then skip_spaces s' else s
  | EmptyString => s
  end.

(** The value of the leading hexadecimal digits, [None] when there is none. *)
Fixpoint hex_digits (acc : option Z) (s : string) : option Z :=
  match s with
  | String c s' =>
      match hex_digit c with
      | Some d =>
          hex_digits (Some (16 * match acc with Some a => a | None => 0 end + d)) s'
      | None => acc
      end
  | EmptyString => acc
  end.

Definition strip_0x (s : string) : string :=
  match s with
  | String "0" (String x (String d s')) =>
      if (Ascii.eqb x "x" || Ascii.eqb x "X")
         && match hex_digit d with Some _ => true | None => false end
      then String d s' else s
  | _ => s
  end.

(** Sign and magnitude of the subject sequence. *)
Definition parse_hex (s : string) : bool * option Z :=
  let s := skip_spaces s in
  let '(neg, s) :=
    match s with
    | String "-" s' => (true, s')
    | String "+" s' => (false, s')
    | _ => (false, s)
    end in
  (neg, hex_digits None (strip_0x s)).

Definition LONG_MAX : Z := 2 ^ 63 - 1.
Definition LONG_MIN : Z := - 2 ^ 63.
Definition ULONG_MAX : Z := 2 ^ 64 - 1.

(** [strtol(s, NULL, 16)] *)
Definition strtol16 (s : string) : Z :=
  match parse_hex s with
  | (_, None) => 0
  | (false, Some m) => Z.min m LONG_MAX
  | (true, Some m) => Z.max (- m) LONG_MIN
  end.

Inductive stoul_result : Type :=
  | StoulValue (v : Z)
  | StoulInvalidArgument
  | StoulOutOfRange.

(** [std::stoul(s, NULL, 16)] *)
Definition stoul16 (s : string) : stoul_result :=
  match parse_hex s with
  | (_, None) => StoulInvalidArgument
  | (neg, Some m) =>
      if ULONG_MAX <? m then StoulOutOfRange
      else StoulValue (if neg then (- m) mod 2 ^ 64 else m)
  end.

(** Modelled from the spec: [FsParser::reverseByte] is not part of this file;
    it reverses the bit order of a byte. *)
Definition reverseByte (b : Z) : Z :=
  fold_left (fun acc i => Z.lor (Z.shiftl acc 1) (Z.land (Z.shiftr b i) 1))
            (map Z.of_nat (seq 0 8)) 0.

(** [a[i] = v] on a buffer held as a list; nothing moves out of range. *)
Fixpoint store (l : list Z) (i : nat) (v : Z) : list Z :=
  match l, i with
  | [], _ => []
  | _ :: t, O => v :: t
  | h :: t, S i' => h :: store t i' v
  end.

Section Transport.

(** What the hardware shifts out: the bytes captured by the [k]-th capturing
    data-register shift.  Quantifying over the oracle covers every device
    behaviour. *)
Variable hw : nat -> list Z.

(** The first [n] bytes of a capture (absent bytes read as zero). *)
Definition capture (n : nat) (l : list Z) : list Z :=
  map (fun i => u8 (nth i l 0)) (seq 0 n).

Definition nbytes (drlen : Z) : nat := Z.to_nat ((drlen + 7) / 8).

Definition shiftIR (tdi : Z) (irlen : Z) : M unit := emit (ShiftIR tdi irlen).

(** [shiftDR(tx, NULL, len[, end_state])] *)
Definition shiftDR_tx (tdi : list Z) (drlen : Z) (end_state : option tapState_t)
  : M unit :=
  emit (ShiftDR tdi None drlen end_state).

(** [shiftDR(tx, rx, len)]: returns what was captured into [rx]. *)
Definition shiftDR_rx (tdi : list Z) (drlen : Z) : M (list Z) :=
  fun w =>
    let rx := capture (nbytes drlen) (hw (reads w)) in
    Some (rx, mkWorld (target_device_id w) (S (reads w)) (clkfreq w)
                      (trace w ++ [ShiftDR tdi (Some rx) drlen None])).

Definition toggleClk (n : Z) : M unit := emit (ToggleClk n).
Definition set_state (s : tapState_t) : M unit := emit (SetState s).
Definition flush : M unit := emit Flush.
Definition usleep (us : Z) : M unit := emit (Usleep us).

Definition setClkFreq (hz : Z) : M unit :=
  fun w => Some (tt, mkWorld (target_device_id w) (reads w) hz
                            (trace w ++ [SetClkFreq hz])).

Definition get_target_device_id : M Z := fun w => Some (target_device_id w, w).

Definition getClkFreq : M Z := fun w => Some (clkfreq w, w).

Variable g : Gowin.

(** ** Register and command layer *)

Definition send_command (cmd : Z) : M bool :=
  shiftIR cmd 8 ;;
  toggleClk 5 ;;
  ret true.

Definition readReg32 (cmd : Z) : M Z :=
  send_command cmd ;;
  reg <- shiftDR_rx (word_bytes 0xffffffff) 32 ;;
  ret (le32toh (bytes_word reg)).

Definition readStatusReg : M Z := readReg32 STATUS_REGISTER.
Definition readUserCode : M Z := readReg32 READ_USERCODE.
Definition idCode : M Z := readReg32 READ_IDCODE.

Definition displayReadReg (prefix : string) (reg : Z) : M unit :=
  emit (DisplayReadReg prefix reg).

Definition reset : M unit :=
  send_command RELOAD ;;
  send_command NOOP ;;
  ret tt.

(** ** Status poller *)

Definition POLL_LIMIT : Z := 100000000.

(** One round of the [do ... while] of [pollFlag]; the loop variable is
    [timeout]. *)
Definition pollFlag_body (mask value : Z) (timeout : Z) : M (Z + bool) :=
  status <- readStatusReg ;;
  when (_verbose g)
       (emit (Printf "pollFlag: %x (%x)\n" [status; Z.land status mask])) ;;
  if timeout =? POLL_LIMIT then
    emit (PrintError "timeout") ;;
    ret (inr false)
  else
    let timeout := timeout + 1 in
    if negb (Z.land status mask =? value) then ret (inl timeout)
    else ret (inr true).

Definition pollFlag (mask value : Z) : M bool :=
  loop 100000001 (pollFlag_body mask value) 0.

(** ** Configuration enable / disable *)

Definition enableCfg : M bool :=
  send_command CONFIG_ENABLE ;;
  pollFlag STATUS_SYSTEM_EDIT_MODE STATUS_SYSTEM_EDIT_MODE.

Definition disableCfg : M bool :=
  send_command CONFIG_DISABLE ;;
  send_command NOOP ;;
  pollFlag STATUS_SYSTEM_EDIT_MODE 0.

(** [sendClkUs]: [clocks] is a [uint64_t]; the product cannot wrap for a
    32-bit frequency and a 32-bit [us]. *)
Definition sendClkUs (us : Z) : M unit :=
  clocks <- getClkFreq ;;
  let clocks := clocks * us in
  let clocks := clocks / 1000000 in
  toggleClk clocks.

(** ** SRAM programmer *)

Definition eraseSRAM : M bool :=
  emit (PrintInfo "Erase SRAM ") ;;
  when (_verbose g)
       (st <- readStatusReg ;; displayReadReg "before erase sram" st) ;;
  ok <- enableCfg ;;
  if negb ok then
    emit (PrintError "FAIL") ;;
    ret false
  else
    send_command ERASE_SRAM ;;
    send_command NOOP ;;
    ok <- pollFlag STATUS_MEMORY_ERASE STATUS_MEMORY_ERASE ;;
    if ok then
      when (_verbose g)
           (st <- readStatusReg ;; displayReadReg "after erase sram" st) ;;
      send_command XFER_DONE ;;
      send_command NOOP ;;
      ok <- disableCfg ;;
      if negb ok then
        emit (PrintError "FAIL") ;;
        ret false
      else
        when (_verbose g)
             (st <- readStatusReg ;; displayReadReg "after erase sram" st) ;;
        st <- readStatusReg ;;
        if negb (Z.land st STATUS_DONE_FINAL =? 0) then
          emit (PrintError "FAIL") ;;
          ret false
        else
          emit (PrintSuccess "DONE") ;;
          ret true
    else
      emit (PrintError "FAIL") ;;
      ret false.

Definition pstep : Z := 524288.

(** One round of the [while (remains)] of [writeSRAM]; the loop variables are
    [remains] and [ptr] (as an offset into [data]). *)
Definition writeSRAM_body (data : list Z) (st : Z * Z) : M (Z * Z + unit) :=
  let '(remains, ptr) := st in
  if negb (remains =? 0) then
    let chunk := pstep in
    let next := SHIFT_DR in
    let '(chunk, next) :=
      if remains <? chunk then (remains, RUN_TEST_IDLE) else (chunk, next) in
    shiftDR_tx (firstn (nbytes chunk) (skipn (Z.to_nat ptr) data)) chunk
               (Some next) ;;
    let ptr := ptr + Z.shiftr chunk 3 in
    let remains := remains - chunk in
    ret (inl (remains, ptr))
  else ret (inr tt).

(** [fs] is the object behind [_fs], which the caller has checked. *)
Definition writeSRAM (fs : Image) (data : list Z) (length : Z) : M bool :=
  emit (PrintInfo "Load SRAM ") ;;
  when (_verbose g)
       (st <- readStatusReg ;; displayReadReg "before write sram" st) ;;
  send_command CONFIG_ENABLE ;;
  send_command INIT_ADDR ;;
  send_command XFER_WRITE ;;
  loop (Z.to_pos (Z.abs length + 2)) (writeSRAM_body data) (length, 0) ;;
  send_command 0x0a ;;
  let checksum := checksum fs in
  let checksum := htole32 checksum in
  shiftDR_tx (word_bytes checksum) 32 None ;;
  send_command 0x08 ;;
  send_command CONFIG_DISABLE ;;
  send_command NOOP ;;
  when (_verbose g)
       (st <- readStatusReg ;; displayReadReg "after write sram" st) ;;
  st <- readStatusReg ;;
  if negb (Z.land st STATUS_DONE_FINAL =? 0) then
    emit (PrintSuccess "DONE") ;;
    ret true
  else
    emit (PrintSuccess "FAIL") ;;
    ret false.

(** ** Internal-flash programmer *)

(** The raw erase pulse: [for (int i = 0; i < nb_iter; ++i)]. *)
Definition erase_pulse_body (nb_iter : Z) (i : Z) : M (Z + unit) :=
  if i <? nb_iter then
    set_state SHIFT_DR ;;
    toggleClk 32 ;;
    set_state RUN_TEST_IDLE ;;
    ret (inl (i + 1))
  else ret (inr tt).

(** One round of [for (unsigned i = 0; i < 100; ++i)] of [eraseFLASH].  The
    loop is left with [Some b] by a [return b] inside the body and with
    [None] by [break] or by the loop condition. *)
Definition eraseFLASH_body (i : Z) : M (Z + option bool) :=
  if i <? 100 then
    when (_verbose g)
         (st <- readStatusReg ;; displayReadReg "before erase flash" st) ;;
    ok <- enableCfg ;;
    if negb ok then
      emit (PrintError "FAIL") ;;
      ret (inr (Some false))
    else
      send_command EFLASH_ERASE ;;
      set_state RUN_TEST_IDLE ;;
      let nb_iter := if is_gw1n1 g then 65 else 1 in
      loop 66 (erase_pulse_body nb_iter) 0 ;;
      sendClkUs (150 * 1000) ;;
      ok <- disableCfg ;;
      if negb ok then
        emit (PrintError "FAIL") ;;
        ret (inr (Some false))
      else
        flush ;;
        usleep (500 * 1000) ;;
        state <- readStatusReg ;;
        when (_verbose g) (displayReadReg "after erase flash" state) ;;
        if Z.land state STATUS_DONE_FINAL =? 0 then ret (inr None)
        else ret (inl (i + 1))
  else ret (inr None).

Definition eraseFLASH : M bool :=
  st <- readStatusReg ;;
  ok <- (if negb (Z.land st STATUS_GOWIN_VLD =? 0) then eraseSRAM
         else ret true) ;;
  if negb ok then ret false
  else
    emit (PrintInfo "Erase FLASH ") ;;
    r <- loop 101 eraseFLASH_body 0 ;;
    match r with
    | Some b => ret b
    | None =>
        st <- readStatusReg ;;
        if negb (Z.land st STATUS_DONE_FINAL =? 0) then
          emit (PrintError "FAIL") ;;
          ret false
        else
          emit (PrintSuccess "DONE") ;;
          ret true
    end.

(** One round of [for (int y = 0; y < 64; ++y)] of [writeFLASH]. *)
Definition writeFLASH_word (xpage : list Z) (y : Z) : M (Z + unit) :=
  if y <? 64 then
    let w := bytes_word (skipn (Z.to_nat (y * 4)) xpage) in
    let w := bswap_32 w in
    shiftDR_tx (word_bytes w) 32 None ;;
    sendClkUs (if is_gw1n1 g then 32 else 16) ;;
    ret (inl (y + 1))
  else ret (inr tt).

(** One round of [for (int off = 0; off < length; off += 256)]; the loop
    variables are [off] and the page buffer [xpage], which lives across
    rounds. *)
Definition writeFLASH_page (page : Z) (data : list Z) (length : Z)
    (st : Z * list Z) : M (Z * list Z + unit) :=
  let '(off, xpage) := st in
  if off <? length then
    let l := 256 in
    let '(xpage, l) :=
      if length - off <? l then (memset 256 0xff, length - off)
      else (xpage, l) in
    let xpage := memcpy xpage (skipn (Z.to_nat off) data) (Z.to_nat l) in
    let addr := u32 (Z.quot off 4 + page) in
    xpage <- (if negb (addr =? 0) then
                sendClkUs 16 ;;
                ret xpage
              else
                ret (memcpy xpage pat 4)) ;;
    send_command CONFIG_ENABLE ;;
    send_command NOOP ;;
    send_command EF_PROGRAM ;;
    let w := htole32 addr in
    shiftDR_tx (word_bytes w) 32 None ;;
    sendClkUs 16 ;;
    loop 65 (writeFLASH_word xpage) 0 ;;
    sendClkUs (if is_gw1n1 g then 2400 else 6) ;;
    ret (inl (off + 256, xpage))
  else ret (inr tt).

(** What an uninitialised local holds. *)
Variable uninit : nat -> Z.

Definition writeFLASH (page : Z) (data : list Z) (length : Z) : M bool :=
  emit (PrintInfo "Write FLASH ") ;;
  when (_verbose g)
       (st <- readStatusReg ;; displayReadReg "before write flash" st) ;;
  let xpage := map uninit (seq 0 256) in
  let length := Z.quot length 8 in
  loop (Z.to_pos (length + 1)) (writeFLASH_page page data length) (0, xpage) ;;
  ok <- disableCfg ;;
  if negb ok then
    emit (PrintError "FAIL") ;;
    ret false
  else
    when (_verbose g)
         (st <- readStatusReg ;; displayReadReg "after write flash #1" st) ;;
    send_command RELOAD ;;
    send_command NOOP ;;
    when (_verbose g)
         (st <- readStatusReg ;; displayReadReg "after write flash #2" st) ;;
    flush ;;
    usleep (500 * 1000) ;;
    when (_verbose g)
         (st <- readStatusReg ;; displayReadReg "after write flash" st) ;;
    st <- readStatusReg ;;
    if negb (Z.land st STATUS_DONE_FINAL =? 0) then
      emit (PrintSuccess "DONE") ;;
      ret true
    else
      emit (PrintSuccess "FAIL") ;;
      ret false.

(** ** Checksum verifier

    The function returns nothing; its verdict is what it prints. *)
Definition checkCRC (fs : Image) : M unit :=
  ucode <- readUserCode ;;
  let checksum := checksum fs in
  let success := emit (PrintSuccess "CRC check: Success") in
  let failure :=
    emit (PrintError "CRC check : FAIL") ;;
    emit (Printf "Read: 0x%08x checksum: 0x%04x\n" [ucode; checksum]) in
  if Z.land 0xffff ucode mod 2 ^ 16 =? checksum then success
  else
    match getHeaderVal fs "checkSum" with
    | Some hdr =>
        if negb (String.eqb hdr "") && (ucode =? strtol16 hdr) then success
        else failure
    | None => failure
    end.

(** ** Top level: internal flash and SRAM *)

(** [fs] is the object behind [_fs]; [program] calls this only when [_fs] is
    not null. *)
Definition programFlash (fs : Image) : M unit :=
  let data := img_data fs in
  let length := img_length fs in
  setClkFreq 2500000 ;;
  send_command CONFIG_DISABLE ;;
  send_command 0 ;;
  set_state TEST_LOGIC_RESET ;;
  state <- readStatusReg ;;
  if Z.land state (Z.lor STATUS_GOWIN_VLD STATUS_POR) =? 0 then
    displayReadReg "Either GOWIN_VLD or POR should be set, aborting" state
  else
    ok <- eraseFLASH ;;
    if negb ok then ret tt
    else
      ok <- writeFLASH 0 data length ;;
      if negb ok then ret tt
      else
        ok <- match _mcufw g with
              | Some mcu => writeFLASH 0x380 (img_data mcu) (img_length mcu)
              | None => ret true
              end ;;
        if negb ok then ret tt
        else
          when (_verify g)
               (emit (PrintWarn "writing verification not supported")) ;;
          when (negb (skip_checksum g)) (checkCRC fs) ;;
          when (_verbose g)
               (st <- readStatusReg ;; displayReadReg "after program flash" st).

Definition programSRAM (fs : Image) : M unit :=
  when (_verbose g)
       (st <- readStatusReg ;; displayReadReg "before program sram" st) ;;
  when (is_gw5a g)
       (reset ;; set_state RUN_TEST_IDLE ;; toggleClk 1000000) ;;
  ok <- eraseSRAM ;;
  if negb ok then ret tt
  else
    ok <- writeSRAM fs (img_data fs) (img_length fs) ;;
    if negb ok then ret tt
    else
      when (negb (skip_checksum g)) (checkCRC fs) ;;
      when (_verbose g)
           (st <- readStatusReg ;; displayReadReg "after program sram" st).

(** ** SPI over boundary scan *)

Definition spi_gowin_write (wr : list Z) (rd : bool) (len : Z) : M (list Z) :=
  r <- (if rd then shiftDR_rx wr len
        else shiftDR_tx wr len None ;; ret []) ;;
  toggleClk 6 ;;
  ret r.

(** *** [spi_wait], shift-register-assisted path

    One round of the [do ... while]; the loop variable is [count]. The loop
    is left with [count] and [tmp]. *)
Definition spi_wait_gw2a_body (tx : list Z) (mask cond timeout : Z)
    (verbose : bool) (count : Z) : M (Z + Z * Z) :=
  send_command 0x16 ;;
  set_state EXIT2_DR ;;
  rx <- shiftDR_rx tx (8 * 3) ;;
  let tmp := u8 (Z.lor (reverseByte (Z.shiftr (nth 1 rx 0) 1))
                       (Z.land 0x01 (nth 2 rx 0))) in
  let count := u32 (count + 1) in
  if count =? timeout then
    emit (Printf "timeout: %x %x %x\n" [tmp; nth 0 rx 0; nth 1 rx 0]) ;;
    ret (inr (count, tmp))
  else
    when verbose (emit (Printf "%x %x %x %u\n" [tmp; mask; cond; count])) ;;
    if negb (Z.land tmp mask =? cond) then ret (inl count)
    else ret (inr (count, tmp)).

(** *** [spi_wait], bit-bang path *)

(** [for (uint8_t i = 0, bm = 0x80; i < 8; ++i, bm >>= 1)], sending [cmd]. *)
Definition spi_wait_cmd_body (cmd : Z) (st : Z * Z) : M (Z * Z + unit) :=
  let '(i, bm) := st in
  if i <? 8 then
    let t := Z.lor (_spi_msk g) (_spi_do g) in
    let t := if negb (Z.land cmd bm =? 0) then u8 (Z.lor t (_spi_di g)) else t in
    spi_gowin_write [t] false 8 ;;
    let t := u8 (Z.lor t (_spi_sck g)) in
    spi_gowin_write [t] false 8 ;;
    flush ;;
    ret (inl (u8 (i + 1), u8 (Z.shiftr bm 1)))
  else ret (inr tt).

(** [for (uint8_t i = 0, bm = 0x80; i < 8; ++i, bm >>= 1)], reading one
    byte; the loop variables are [i], [bm], [t] and [tmp]. *)
Definition spi_wait_read_body (st : Z * Z * Z * Z) : M (Z * Z * Z * Z + Z * Z) :=
  let '(i, bm, t, tmp) := st in
  if i <? 8 then
    let t := u8 (Z.land t (Z.lnot (_spi_sck g))) in
    spi_gowin_write [t] false 8 ;;
    let t := u8 (Z.lor t (_spi_sck g)) in
    r <- spi_gowin_write [t] true 8 ;;
    let r := nth 0 r 0 in
    flush ;;
    let tmp := if negb (Z.land r (_spi_do g) =? 0) then u8 (Z.lor tmp bm)
               else tmp in
    ret (inl (u8 (i + 1), u8 (Z.shiftr bm 1), t, tmp))
  else ret (inr (t, tmp)).

(** One round of the [do ... while]; the loop variables are [count] and
    [t]. The loop is left with [count], [t] and [tmp]. *)
Definition spi_wait_legacy_body (mask cond timeout : Z) (verbose : bool)
    (st : Z * Z) : M (Z * Z + Z * Z * Z) :=
  let '(count, t) := st in
  let tmp := 0 in
  '(t, tmp) <- loop 9 spi_wait_read_body (0, 0x80, t, tmp) ;;
  let count := u32 (count + 1) in
  if count =? timeout then
    emit (Printf "timeout: %x\n" [tmp]) ;;
    ret (inr (count, t, tmp))
  else
    when verbose (emit (Printf "%x %x %x %u\n" [tmp; mask; cond; count])) ;;
    if negb (Z.land tmp mask =? cond) then ret (inl (count, t))
    else ret (inr (count, t, tmp)).

Definition SPI_WAIT_FUEL : positive := 4294967296.

Definition spi_wait (cmd mask cond timeout : Z) (verbose : bool) : M Z :=
  let count := 0 in
  '(count, tmp) <-
    (if is_gw2a g then
       let tx := [reverseByte cmd; uninit 1; uninit 2] in
       loop SPI_WAIT_FUEL (spi_wait_gw2a_body tx mask cond timeout verbose) count
     else
       let t := Z.lor (_spi_msk g) (_spi_do g) in
       spi_gowin_write [t] false 8 ;;
       loop 9 (spi_wait_cmd_body cmd) (0, 0x80) ;;
       let t := Z.lor (_spi_msk g) (_spi_do g) in
       '(count, t, tmp) <-
         loop SPI_WAIT_FUEL (spi_wait_legacy_body mask cond timeout verbose)
              (count, t) ;;
       let t := u8 (Z.land t (Z.lnot (_spi_sck g))) in
       let t := u8 (Z.lor t (_spi_cs g)) in
       spi_gowin_write [t] false 8 ;;
       flush ;;
       ret (count, tmp)) ;;
  if count =? timeout then
    emit (Printf "%02x\n" [tmp]) ;;
    emit (Printf "wait: Error" []) ;;
    ret (- ETIME)
  else ret 0.

(** *** [spi_put(tx, rx, len)]

    A null pointer is [None]; [rx] comes in with the caller's buffer and the
    function returns its code and that buffer as it leaves it. *)

(** [for (uint32_t i = 0; i < len; i++) jtx[i] = reverseByte(tx[i]);] with
    [jtx] allocated with [size] elements. *)
Definition spi_put_gw2a_tx_body (tx : list Z) (len size : Z)
    (st : Z * list Z) : M (Z * list Z + list Z) :=
  let '(i, jtx) := st in
  if i <? len then
    emit (Index Tx i (Z.of_nat (List.length tx))) ;;
    emit (Index Jtx i size) ;;
    let jtx := store jtx (Z.to_nat i)
                     (reverseByte (nth (Z.to_nat i) tx (uninit (Z.to_nat i)))) in
    ret (inl (u32 (i + 1), jtx))
  else ret (inr jtx).

(** [for (uint32_t i = 0; i < len; i++)
       rx[i] = reverseByte(jrx[i] >> 1) | (jrx[i + 1] & 0x01);] *)
Definition spi_put_gw2a_rx_body (jrx : list Z) (len size : Z)
    (st : Z * list Z) : M (Z * list Z + list Z) :=
  let '(i, rx) := st in
  if i <? len then
    emit (Index Jrx i size) ;;
    emit (Index Jrx (i + 1) size) ;;
    emit (Index Rx i (Z.of_nat (List.length rx))) ;;
    let a := nth (Z.to_nat i) jrx (uninit (Z.to_nat i)) in
    let b := nth (Z.to_nat (i + 1)) jrx (uninit (Z.to_nat (i + 1))) in
    let rx := store rx (Z.to_nat i)
                    (u8 (Z.lor (reverseByte (Z.shiftr a 1)) (Z.land b 0x01))) in
    ret (inl (u32 (i + 1), rx))
  else ret (inr rx).

Definition SPI_PUT_FUEL : positive := 4294967297.

Definition spi_put_gw2a (tx rx : option (list Z)) (len : Z)
  : M (Z * option (list Z)) :=
  let size := len in
  let jtx := map uninit (seq 0 (Z.to_nat size)) in
  let len := match rx with Some _ => u32 (len + 1) | None => len end in
  jtx <- match tx with
         | Some tx => loop SPI_PUT_FUEL (spi_put_gw2a_tx_body tx len size) (0, jtx)
         | None => ret jtx
         end ;;
  ok <- send_command 0x16 ;;
  if negb ok then ret (- 1, rx)
  else
    set_state EXIT2_DR ;;
    let drlen := u32 (8 * len) in
    let tdi := map (fun i => nth i jtx (uninit i)) (seq 0 (nbytes drlen)) in
    match rx with
    | Some rx =>
        jrx <- shiftDR_rx tdi drlen ;;
        rx <- loop SPI_PUT_FUEL (spi_put_gw2a_rx_body jrx len size) (0, rx) ;;
        ret (0, Some rx)
    | None =>
        shiftDR_tx tdi drlen None ;;
        ret (0, None)
    end.

(** [for (uint8_t b = 0, bm = 0x80; b < 8; ++b, bm >>= 1)] of the bit-bang
    path, for byte [l]; the loop variables are [b], [bm], [t] and [rx]. *)
Definition spi_put_bit_body (tx : option (list Z)) (l : Z)
    (st : Z * Z * Z * option (list Z))
  : M (Z * Z * Z * option (list Z) + Z * option (list Z)) :=
  let '(b, bm, t, rx) := st in
  if b <? 8 then
    let t := Z.lor (_spi_msk g) (_spi_do g) in
    let t :=
      match tx with
      | Some tx =>
          if negb (Z.land (nth (Z.to_nat l) tx (uninit (Z.to_nat l))) bm =? 0)
          then u8 (Z.lor t (_spi_di g)) else t
      | None => t
      end in
    spi_gowin_write [t] false 8 ;;
    let t := u8 (Z.lor t (_spi_sck g)) in
    r <- spi_gowin_write [t] (match rx with Some _ => true | None => false end) 8 ;;
    flush ;;
    let rx :=
      match rx with
      | Some rx =>
          if negb (Z.land (nth 0 r 0) (_spi_do g) =? 0) then
            Some (store rx (Z.to_nat l)
                        (u8 (Z.lor (nth (Z.to_nat l) rx 0) bm)))
          else Some rx
      | None => None
      end in
    ret (inl (u8 (b + 1), u8 (Z.shiftr bm 1), t, rx))
  else ret (inr (t, rx)).

(** [for (unsigned l = 0; l < len; ++l)] of the bit-bang path. *)
Definition spi_put_byte_body (tx : option (list Z)) (len : Z)
    (st : Z * Z * option (list Z))
  : M (Z * Z * option (list Z) + Z * option (list Z)) :=
  let '(l, t, rx) := st in
  if l <? len then
    let rx := match rx with
              | Some rx => Some (store rx (Z.to_nat l) 0)
              | None => None
              end in
    '(t, rx) <- loop 9 (spi_put_bit_body tx l) (0, 0x80, t, rx) ;;
    ret (inl (u32 (l + 1), t, rx))
  else ret (inr (t, rx)).

Definition spi_put_legacy (tx rx : option (list Z)) (len : Z)
  : M (Z * option (list Z)) :=
  let t := Z.lor (_spi_msk g) (_spi_do g) in
  let t := u8 (Z.land t (Z.lnot (_spi_cs g))) in
  spi_gowin_write [t] false 8 ;;
  flush ;;
  '(t, rx) <- loop SPI_PUT_FUEL (spi_put_byte_body tx len) (0, t, rx) ;;
  let t := u8 (Z.land t (Z.lnot (_spi_sck g))) in
  let t := u8 (Z.lor t (_spi_cs g)) in
  spi_gowin_write [t] false 8 ;;
  flush ;;
  ret (0, rx).

Definition spi_put (tx rx : option (list Z)) (len : Z)
  : M (Z * option (list Z)) :=
  if is_gw2a g then spi_put_gw2a tx rx len else spi_put_legacy tx rx len.

(** [spi_put(cmd, tx, rx, len)] *)
Definition spi_put_cmd (cmd : Z) (tx rx : option (list Z)) (len : Z)
  : M (Z * option (list Z)) :=
  let n := Z.to_nat len in
  let jrx := map uninit (seq 0 (S n)) in
  let jtx := cmd :: match tx with
                    | Some tx => memcpy (map uninit (seq 1 n)) tx n
                    | None => memset n 0
                    end in
  '(code, jrx) <- spi_put (Some jtx)
                         (match rx with Some _ => Some jrx | None => None end)
                         (u32 (len + 1)) ;;
  let rx := match rx, jrx with
            | Some rx, Some jrx => Some (memcpy rx (skipn 1 jrx) n)
            | _, _ => rx
            end in
  ret (code, rx).

End Transport.

(** ** Construction of the session

    The parsers are collaborators: [open_file] is what creating the parser
    of the image gave ([None] when it threw), with what its [parse()]
    returned and the image it holds; [open_mcufw] likewise for the
    microcontroller firmware.  [skip_checksum0] is the value of the member
    [skip_checksum] before the body runs. *)

Record Parser : Type := mkParser {
  parse_ok : bool;      (* parse() != EXIT_FAILURE *)
  parsed : Image
}.

Inductive ctor_error : Type :=
  | ParserException          (* the parser's own exception, rethrown *)
  | IncompatibleFileFormat   (* "incompatible file format" *)
  | CantParseFile            (* "can't parse file" *)
  | NoHeaderKey              (* thrown by getHeaderVal *)
  | StoulException (r : stoul_result)
  | IdcodeMismatch (fs_idcode idcode : Z)
  | McuFirmwareUnsupported.  (* "Microcontroller firmware flashing only
                                supported on GW1NSR-4C" *)

Definition MX (A : Type) : Type := M (ctor_error + A).

Definition throw {A} (e : ctor_error) : MX A := ret (inl e).

Definition bindX {A B} (m : MX A) (k : A -> MX B) : MX B :=
  r <- m ;;
  match r with
  | inl e => ret (inl e)
  | inr a => k a
  end.

Definition liftX {A} (m : M A) : MX A := a <- m ;; ret (inr a).

Notation "x <~ m ;; k" := (bindX m (fun x => k))
  (at level 61, m at next level, right associativity) : m_scope.

(** The parsing of the image and the check of its idcode: the body of
    [if (!_file_extension.empty())]. *)
Definition Gowin_open (file_extension : string) (open_file : option Parser)
    (external_flash verbose : bool) (idcode : Z) : MX Image :=
  p <~ (if String.eqb file_extension "fs" then
          match open_file with
          | Some p => ret (inr p)
          | None => throw ParserException
          end
        else if negb external_flash then throw IncompatibleFileFormat
        else
          match open_file with
          | Some p => ret (inr p)
          | None => throw ParserException
          end) ;;
  _ <~ liftX (emit (PrintInfo "Parse file ")) ;;
  _ <~ (if negb (parse_ok p) then
          _ <~ liftX (emit (PrintError "FAIL")) ;;
          throw CantParseFile
        else liftX (emit (PrintSuccess "DONE"))) ;;
  _ <~ liftX (when verbose (emit (PrintInfo "displayHeader"))) ;;
  let fs := parsed p in
  if String.eqb file_extension "fs" then
    match getHeaderVal fs "idcode" with
    | None => throw NoHeaderKey
    | Some idcode_str =>
        match stoul16 idcode_str with
        | StoulValue v =>
            let fs_idcode := u32 v in
            if negb (Z.land fs_idcode 0x0fffffff =? idcode) then
              throw (IdcodeMismatch fs_idcode idcode)
            else ret (inr fs)
        | r => throw (StoulException r)
        end
    end
  else ret (inr fs).

Definition Gowin_ctor (file_extension : string) (open_file : option Parser)
    (mcufw : string) (open_mcufw : option Parser) (prg_type : prog_type_t)
    (external_flash verify verbose quiet skip_checksum0 : bool) : MX Gowin :=
  idcode <~ liftX get_target_device_id ;;
  let mode := match prg_type with WR_FLASH => FLASH_MODE | _ => MEM_MODE end in
  fs <~ (if negb (String.eqb file_extension "") then
           fs <~ Gowin_open file_extension open_file external_flash verbose
                            idcode ;;
           ret (inr (Some fs))
         else ret (inr None)) ;;
  let gw1n1 := idcode =? 0x0900281B in
  let gw1n4 := (idcode =? 0x0100381B) || (idcode =? 0x100681b) in
  let '(sck, cs, di, do, msk) :=
    if idcode =? 0x0100981b then
      (BSCAN_GW1NSR_4C_SPI_SCK, BSCAN_GW1NSR_4C_SPI_CS, BSCAN_GW1NSR_4C_SPI_DI,
       BSCAN_GW1NSR_4C_SPI_DO, BSCAN_GW1NSR_4C_SPI_MSK)
    else
      (BSCAN_SPI_SCK, BSCAN_SPI_CS, BSCAN_SPI_DI, BSCAN_SPI_DO, BSCAN_SPI_MSK) in
  let '(ext, skip, gw2a, gw5a) :=
    if (idcode =? 0x0000081b) || (idcode =? 0x0000281b) then
      (true, true, true, false)
    else if (idcode =? 0x0001081b) || (idcode =? 0x0001181b)
            || (idcode =? 0x0001281b) then
      (true, true, false, true)
    else (external_flash, skip_checksum0, false, false) in
  mcu <~ (if negb (String.eqb mcufw "") then
            if negb (idcode =? 0x0100981b) then throw McuFirmwareUnsupported
            else
              match open_mcufw with
              | None => throw ParserException
              | Some p =>
                  if negb (parse_ok p) then
                    _ <~ liftX (emit (PrintError "FAIL")) ;;
                    throw CantParseFile
                  else
                    _ <~ liftX (emit (PrintSuccess "DONE")) ;;
                    ret (inr (Some (parsed p)))
              end
          else ret (inr None)) ;;
  ret (inr (mkGowin fs mcu mode gw1n1 gw2a gw1n4 gw5a ext skip
                    sck cs di do msk verbose quiet verify)).

(** ** The status display

    In the monad [displayReadReg] is one event; what it puts on the console
    for a register value is spelled out here. *)

(** The names of the status bits, [desc] of [displayReadReg]. *)
Definition desc : list string :=
  [ "CRC Error"; "Bad Command"; "ID Verify Failed"; "Timeout";
    "Reserved4"; "Memory Erase"; "Preamble"; "System Edit Mode";
    "Program SPI FLASH directly"; "Reserved9";
    "Non-JTAG configuration is active"; "Bypass";
    "Gowin VLD"; "Done Final"; "Security Final"; "Ready";
    "POR"; "FLASH lock"; "FLASH2 lock" ]%string.

(** What [displayReadReg] prints under its header line: the loop
    [for (unsigned i = 0, bm = 1; i < 19; ++i, bm <<= 1)], with [n] rounds
    to go. *)
Fixpoint displayReadReg_flags (reg : Z) (n i : nat) (bm : Z) : list string :=
  match n with
  | O => []
  | S n' =>
      (if negb (Z.land reg bm =? 0) then [nth i desc ""%string] else [])
      ++ displayReadReg_flags reg n' (S i) (u32 (Z.shiftl bm 1))
  end.

Definition displayReadReg_text (reg : Z) : list string :=
  displayReadReg_flags reg 19 0 1.

(** ** Top level: external flash and the dispatch of [program] *)

(** The [std::runtime_error]s that [program] raises. *)
Inductive program_error : Type :=
  | Gw5aFlashUnsupported  (* "Error: write to flash on GW5A is not yet
                             supported" *)
  | EnableCfgFailed       (* "Error: fail to enable configuration" *)
  | WriteFlashFailed      (* "Error: write to flash failed" *)
  | VerifyFlashFailed     (* "Error: flash vefication failed" *)
  | DisableCfgFailed.     (* "Error: fail to disable configuration" *)

(** The class [SPIFlash] is a collaborator that is not part of this file:
    what its constructor and the methods used here do to the world is left
    open (its destructor is taken to do nothing). *)
Record SPIFlash : Type := mkSPIFlash {
  spiFlash_new : M unit;
  spiFlash_reset : M unit;
  spiFlash_read_id : M unit;
  spiFlash_read_status_reg : M Z;
  spiFlash_display_status_reg : Z -> M unit;
  spiFlash_erase_and_prog : Z -> list Z -> Z -> M Z;
  spiFlash_verify : Z -> list Z -> Z -> Z -> M bool
}.

Section Program.

Variable hw : nat -> list Z.
Variable g : Gowin.
Variable uninit : nat -> Z.

(** [SPIFlash spiFlash(this, unprotect_flash, verbose)] *)
Variable new_SPIFlash : bool -> Z -> SPIFlash.

(** [fs] is the object behind [_fs]; [program] calls this only when [_fs] is
    not null. *)
Definition programExtFlash (fs : Image) (offset : Z) (unprotect_flash : bool)
  : M (program_error + unit) :=
  setClkFreq 10000000 ;;
  ok <- enableCfg hw g ;;
  if negb ok then ret (inl EnableCfgFailed)
  else
    eraseSRAM hw g ;;
    send_command XFER_DONE ;;
    send_command NOOP ;;
    (if negb (is_gw2a g) then
       send_command 0x3D ;; ret tt
     else
       disableCfg hw g ;; send_command NOOP ;; ret tt) ;;
    let spiFlash :=
      new_SPIFlash unprotect_flash
                   (if _verbose g then 1 else if _quiet g then -1 else 0) in
    spiFlash_new spiFlash ;;
    spiFlash_reset spiFlash ;;
    spiFlash_read_id spiFlash ;;
    st <- spiFlash_read_status_reg spiFlash ;;
    spiFlash_display_status_reg spiFlash st ;;
    let data := img_data fs in
    let length := img_length fs in
    r <- spiFlash_erase_and_prog spiFlash offset data (Z.quot length 8) ;;
    if negb (r =? 0) then ret (inl WriteFlashFailed)
    else
      ok <- (if _verify g then
               spiFlash_verify spiFlash offset data (Z.quot length 8) 256
             else ret true) ;;
      if negb ok then ret (inl VerifyFlashFailed)
      else
        ok <- (if negb (is_gw2a g) then disableCfg hw g else ret true) ;;
        if negb ok then ret (inl DisableCfgFailed)
        else
          reset ;;
          ret (inr tt).

Definition program (offset : Z) (unprotect_flash : bool)
  : M (program_error + unit) :=
  match _fs g with
  | None => ret (inr tt)
  | Some fs =>
      match _mode g with
      | FLASH_MODE =>
          if is_gw5a g then ret (inl Gw5aFlashUnsupported)
          else if _external_flash g then
            programExtFlash fs offset unprotect_flash
          else
            programFlash hw g uninit fs ;; ret (inr tt)
      | MEM_MODE => programSRAM hw g fs ;; ret (inr tt)
      | NONE_MODE => ret (inr tt)
      end
  end.

Definition connectJtagToMCU : M bool :=
  send_command SWITCH_TO_MCU_JTAG ;;
  ret true.

End Program.

(** * Specification vocabulary *)

(** Total correctness of a run from a given world: the run returns, and its
    result and final world satisfy [Q]. *)
Definition spec {A} (m : M A) (w : World) (Q : A -> World -> Prop) : Prop :=
  exists a w', m w = Some (a, w') /\ Q a w'.

(** The run returns from every world, and the events it appends to the
    trace, together with its result, satisfy [P]. *)
Definition emits {A} (m : M A) (P : A -> list event -> Prop) : Prop :=
  forall w, spec m w (fun a w' =>
    exists ops, trace w' = trace w ++ ops /\ P a ops).

(** The status word that the [k]-th capturing shift delivers. *)
Definition status_at (hw : nat -> list Z) (k : nat) : Z :=
  bytes_word (capture 4 (hw k)).

(** *** Observers of a trace *)

(** The instruction [c] shifted into the 8-bit instruction register. *)
Definition is_cmd (c : Z) (e : event) : bool :=
  match e with
  | ShiftIR tdi irlen => (tdi =? c) && (irlen =? 8)
  | _ => false
  end.

Definition count_cmd (c : Z) (ops : list event) : nat :=
  List.length (filter (is_cmd c) ops).

Definition is_shift_dr_state (e : event) : bool :=
  match e with
  | SetState SHIFT_DR => true
  | _ => false
  end.

(** How often the TAP was driven to shift-DR by [set_state]. *)
Definition count_shift_dr_state (ops : list event) : nat :=
  List.length (filter is_shift_dr_state ops).

(** The last capture of a trace, [acc] when there is none. *)
Fixpoint last_capture (acc : option (list Z)) (ops : list event)
  : option (list Z) :=
  match ops with
  | [] => acc
  | ShiftDR _ (Some rx) _ _ :: t => last_capture (Some rx) t
  | _ :: t => last_capture acc t
  end.

(** The last 32-bit register value read in a trace. *)
Definition last_status (ops : list event) : option Z :=
  option_map bytes_word (last_capture None ops).

(** The register values read first after each wall-clock wait: in
    [eraseFLASH] these are the reads that close an erase attempt.  [armed]
    says that a wait has passed and its read is still to come. *)
Fixpoint reads_after_wait (armed : bool) (ops : list event) : list Z :=
  match ops with
  | [] => []
  | Usleep _ :: t => reads_after_wait true t
  | ShiftDR _ (Some rx) _ _ :: t =>
      if armed then bytes_word rx :: reads_after_wait false t
      else reads_after_wait false t
  | _ :: t => reads_after_wait armed t
  end.

Fixpoint armed_after (armed : bool) (ops : list event) : bool :=
  match ops with
  | [] => armed
  | Usleep _ :: t => armed_after true t
  | ShiftDR _ (Some _) _ _ :: t => armed_after false t
  | _ :: t => armed_after armed t
  end.

Definition timed_out (ops : list event) : Prop :=
  In (PrintError "timeout") ops.

Definition done_final (st : Z) : bool :=
  negb (Z.land st STATUS_DONE_FINAL =? 0).

(** The trace ends with a register read of value [st], console output
    apart. *)
Definition ends_with_read (st : Z) (ops : list event) : Prop :=
  forall acc, option_map bytes_word (last_capture acc ops) = Some st.

(** An index into one of the two local arrays of [spi_put] that lies inside
    the array. *)
Definition in_bounds (e : event) : bool :=
  match e with
  | Index Jtx i size | Index Jrx i size => (0 <=? i) && (i <? size)
  | _ => true
  end.

(** *** The SPI bus *)

(** The response byte of one poll on the shift-register-assisted path, from
    the capture [k]. *)
Definition gw2a_response (hw : nat -> list Z) (k : nat) : Z :=
  let rx := capture 3 (hw k) in
  u8 (Z.lor (reverseByte (Z.shiftr (nth 1 rx 0) 1)) (Z.land 0x01 (nth 2 rx 0))).

(** The byte that the [n] captures from [k] on add to [tmp] on the bit-bang
    path, one bit each, from mask [bm] downwards. *)
Fixpoint legacy_bits (g : Gowin) (hw : nat -> list Z) (k n : nat) (bm tmp : Z)
  : Z :=
  match n with
  | O => tmp
  | S n' =>
      let r := nth 0 (capture 1 (hw k)) 0 in
      legacy_bits g hw (S k) n' (u8 (Z.shiftr bm 1))
                  (if negb (Z.land r (_spi_do g) =? 0) then u8 (Z.lor tmp bm)
                   else tmp)
  end.

Definition legacy_response (g : Gowin) (hw : nat -> list Z) (k : nat) : Z :=
  legacy_bits g hw k 8 0x80 0.

(** The response byte of poll [j] of a [spi_wait] that starts at capture
    [base]: one capture per poll on the assisted path, eight on the bit-bang
    path. *)
Definition spi_response (g : Gowin) (hw : nat -> list Z) (base j : nat) : Z :=
  if is_gw2a g then gw2a_response hw (base + j)
  else legacy_response g hw (base + 8 * j).

(** The iteration budget of [spi_wait]: the 32-bit counter meets a
    [timeout] of 0 only when it wraps. *)
Definition spi_budget (timeout : Z) : Z :=
  if timeout =? 0 then 2 ^ 32 else timeout.

(** The last data-register shift of a trace. *)
Fixpoint last_shift_dr (acc : option event) (ops : list event) : option event :=
  match ops with
  | [] => acc
  | ShiftDR tdi tdo drlen st :: t =>
      last_shift_dr (Some (ShiftDR tdi tdo drlen st)) t
  | _ :: t => last_shift_dr acc t
  end.

(** The bus is left released: the last data-register shift is an 8-bit pin
    vector, not captured, with chip-select high and clock low. *)
Definition bus_released (g : Gowin) (ops : list event) : bool :=
  match last_shift_dr None ops with
  | Some (ShiftDR [t] None drlen None) =>
      (drlen =? 8) && negb (Z.land t (_spi_cs g) =? 0)
      && (Z.land t (_spi_sck g) =? 0)
  | _ => false
  end.

(** The two pin assignments that the constructor installs. *)
Definition pins_installed (g : Gowin) : Prop :=
  (_spi_sck g, _spi_cs g, _spi_di g, _spi_do g, _spi_msk g)
  = (BSCAN_SPI_SCK, BSCAN_SPI_CS, BSCAN_SPI_DI, BSCAN_SPI_DO, BSCAN_SPI_MSK)
  \/
  (_spi_sck g, _spi_cs g, _spi_di g, _spi_do g, _spi_msk g)
  = (BSCAN_GW1NSR_4C_SPI_SCK, BSCAN_GW1NSR_4C_SPI_CS, BSCAN_GW1NSR_4C_SPI_DI,
     BSCAN_GW1NSR_4C_SPI_DO, BSCAN_GW1NSR_4C_SPI_MSK).

(** What a status poll may put on the trace. *)
Definition is_poll_event (e : event) : bool :=
  match e with
  | ShiftIR tdi irlen => (tdi =? STATUS_REGISTER) && (irlen =? 8)
  | ToggleClk n => n =? 5
  | ShiftDR _ (Some _) drlen None => drlen =? 32
  | Printf _ _ => true
  | PrintError s => String.eqb s "timeout"
  | _ => false
  end.

(** The raw erase pulse: TAP state changes and clocks only. *)
Definition is_pulse_event (e : event) : bool :=
  match e with
  | SetState _ | ToggleClk _ => true
  | _ => false
  end.

(** Register traffic: commands other than the two flash commands, their
    settle clocks, register reads and console output.  No TAP state change,
    no wait, no flash erase or program command. *)
Definition is_register_event (e : event) : bool :=
  match e with
  | ShiftIR tdi irlen =>
      negb (tdi =? EFLASH_ERASE) && negb (tdi =? EF_PROGRAM)
  | ToggleClk _ => true
  | ShiftDR _ (Some _) _ None => true
  | PrintInfo _ | PrintError _ | PrintSuccess _ | PrintWarn _
  | Printf _ _ | DisplayReadReg _ _ => true
  | _ => false
  end.

(** The data-register shifts that name their end state: in [writeSRAM] these
    are the chunks of the payload. Each is given by its bit count and the
    TAP state it ends in. *)
Definition payload_shifts (ops : list event) : list (Z * tapState_t) :=
  flat_map (fun e =>
              match e with
              | ShiftDR _ None drlen (Some st) => [(drlen, st)]
              | _ => []
              end) ops.

(** The chunks that the specification asks of [write_sram] for a payload of
    [total] bits: full chunks that stay in shift-DR, then the short rest, if
    any, which goes to run-test-idle. *)
Definition chunks_of (total : Z) : list (Z * tapState_t) :=
  repeat (pstep, SHIFT_DR) (Z.to_nat (total / pstep))
  ++ (if total mod pstep =? 0 then [] else [(total mod pstep, RUN_TEST_IDLE)]).

(** *** The internal flash as an observer

    What the flash makes of a trace: the program command opens a page, the
    first data-register shift after it is the page address (least
    significant byte first), every further one is a data word whose bytes
    arrive in reverse order, and the next command closes the page. *)

Record flash_rx : Type := mkFlashRx {
  pages_done : list (Z * list Z);
  page_cur : option (option Z * list Z)
}.

Definition close_page (st : flash_rx) : list (Z * list Z) :=
  match page_cur st with
  | Some (Some addr, bytes) => pages_done st ++ [(addr, bytes)]
  | _ => pages_done st
  end.

Definition flash_step (st : flash_rx) (e : event) : flash_rx :=
  match e with
  | ShiftIR tdi _ =>
      mkFlashRx (close_page st)
                (if tdi =? EF_PROGRAM then Some (None, []) else None)
  | ShiftDR tdi None _ _ =>
      match page_cur st with
      | Some (None, _) =>
          mkFlashRx (pages_done st) (Some (Some (bytes_word tdi), []))
      | Some (Some addr, bytes) =>
          mkFlashRx (pages_done st) (Some (Some addr, bytes ++ rev tdi))
      | None => st
      end
  | _ => st
  end.

Definition flash_run (st : flash_rx) (ops : list event) : flash_rx :=
  fold_left flash_step ops st.

(** The pages a trace programs, each with its address and its bytes. *)
Definition flash_pages (ops : list event) : list (Z * list Z) :=
  close_page (flash_run (mkFlashRx [] None) ops).

(** Events that neither open a page nor add to one. *)
Definition is_nonprog_event (e : event) : bool :=
  match e with
  | ShiftIR tdi _ => negb (tdi =? EF_PROGRAM)
  | ShiftDR _ None _ _ => false
  | _ => true
  end.

(** The pages [writeFLASH] is to program for an image of [nbytes] bytes at
    offset [page]: page [k] goes to address [page + 64 * k] (modulo 2^32)
    and holds bytes [256 * k ..] of the image, 0xFF past its end, and the
    autoboot pattern in its first four bytes when its address is 0. *)
Definition flash_page_addr (page k : Z) : Z := u32 (64 * k + page).

Definition flash_page_byte (data : list Z) (nbytes page k i : Z) : Z :=
  if (flash_page_addr page k =? 0) && (i <? 4) then nth (Z.to_nat i) pat 0
  else if 256 * k + i <? nbytes then nth (Z.to_nat (256 * k + i)) data 0
  else 0xff.

Definition flash_page_content (data : list Z) (nbytes page k : Z) : list Z :=
  map (fun i => flash_page_byte data nbytes page k (Z.of_nat i)) (seq 0 256).

Definition flash_pages_upto (data : list Z) (nbytes page : Z) (n : nat)
  : list (Z * list Z) :=
  map (fun k => (flash_page_addr page (Z.of_nat k),
                 flash_page_content data nbytes page (Z.of_nat k)))
      (seq 0 n).

Definition is_byte (b : Z) : Prop := 0 <= b < 256.

(** The bytes handed to the data-register shifts that name their end state:
    in [writeSRAM] the payload, in the order it is sent. *)
Definition payload_bytes (ops : list event) : list Z :=
  flat_map (fun e =>
              match e with
              | ShiftDR tdi None _ (Some _) => tdi
              | _ => []
              end) ops.


(** A run is confined to [P]: every event it appends to the trace
    satisfies [P]. *)
Definition confined {A} (P : event -> bool) (m : M A) : Prop :=
  forall w a w', m w = Some (a, w') ->
    exists ops, trace w' = trace w ++ ops /\ forallb P ops = true.

(** No instruction of [cmds] is shifted in. *)
Definition avoids (cmds : list Z) (e : event) : bool :=
  match e with
  | ShiftIR tdi _ => negb (existsb (Z.eqb tdi) cmds)
  | _ => true
  end.

(** Anything but the report of a poll that timed out. *)
Definition not_timeout (e : event) : bool :=
  match e with
  | PrintError s => negb (String.eqb s "timeout")
  | _ => true
  end.


(** The bits that a bit-bang transfer clocks into the SPI flash: the
    data-in pin of every one-byte pin vector that is written with
    chip-select low and the clock high. *)
Definition spi_clocked_bits (g : Gowin) (ops : list event) : list bool :=
  flat_map (fun e =>
              match e with
              | ShiftDR [t] _ _ _ =>
                  if (Z.land t (_spi_cs g) =? 0)
                     && negb (Z.land t (_spi_sck g) =? 0)
                  then [negb (Z.land t (_spi_di g) =? 0)]
                  else []
              | _ => []
              end) ops.

(** Bytes from bits, most significant bit first; fewer than eight bits at
    the end make no byte. *)
Fixpoint bytes_of_bits (bits : list bool) : list Z :=
  match bits with
  | b7 :: b6 :: b5 :: b4 :: b3 :: b2 :: b1 :: b0 :: rest =>
      fold_left (fun a (b : bool) => 2 * a + Z.b2z b)
                [b7; b6; b5; b4; b3; b2; b1; b0] 0
      :: bytes_of_bits rest
  | _ => []
  end.

(** The masks of the bit loops, in the order they are used, and the bits of
    a byte under them. *)
Definition bit_masks : list Z := [0x80; 0x40; 0x20; 0x10; 0x08; 0x04; 0x02; 0x01].

Definition byte_bits (x : Z) : list bool :=
  map (fun bm => negb (Z.land x bm =? 0)) bit_masks.


(** The two vectors of a status read on the bit-bang path: clock low and
    clock high, chip-select and data-in low. *)
Definition poll_low (g : Gowin) : Z := Z.lor (_spi_msk g) (_spi_do g).
Definition poll_high (g : Gowin) : Z := u8 (Z.lor (poll_low g) (_spi_sck g)).

(** What a poll of the shift-register-assisted [spi_wait] may put on the
    trace: instruction 0x16 with its five clocks, the move to Exit2-DR, a
    captured 24-bit shift that sends [tx], and console output. *)
Definition is_assisted_poll_event (tx : list Z) (e : event) : bool :=
  match e with
  | ShiftIR tdi irlen => (tdi =? 0x16) && (irlen =? 8)
  | ToggleClk n => n =? 5
  | SetState EXIT2_DR => true
  | ShiftDR tdi (Some _) drlen None =>
      (if list_eq_dec Z.eq_dec tdi tx then true else false) && (drlen =? 24)
  | Printf _ _ => true
  | _ => false
  end.

(** *** Hexadecimal text *)

(** The character that writes the digit [d] (0 to 15), in upper or lower
    case. *)
Definition hex_char (upper : bool) (d : Z) : ascii :=
  nth (Z.to_nat d)
      (list_ascii_of_string
         (if upper then "0123456789ABCDEF" else "0123456789abcdef"))
      "0"%char.

(** The text that writes the digits [ds], most significant first, each in
    its own case, and the number it denotes. *)
Fixpoint hex_text (ds : list (bool * Z)) : string :=
  match ds with
  | [] => EmptyString
  | (upper, d) :: t => String (hex_char upper d) (hex_text t)
  end.

Definition hex_value (ds : list (bool * Z)) : Z :=
  fold_left (fun a x => 16 * a + snd x) ds 0.

(** The two reports of [checkCRC]. *)
Definition crc_success : list event := [PrintSuccess "CRC check: Success"].

Definition crc_failure (ucode sum16 : Z) : list event :=
  [PrintError "CRC check : FAIL";
   Printf "Read: 0x%08x checksum: 0x%04x\n" [ucode; sum16]].

(** *** The erase pulse and the close of an erase attempt *)

(** A raw erase pulse starts at the head of [ops]: the TAP is driven to
    shift-DR, clocked 32 times and driven back to run-test/idle. *)
Definition is_pulse_at (ops : list event) : bool :=
  match ops with
  | SetState SHIFT_DR :: ToggleClk n :: SetState RUN_TEST_IDLE :: _ => n =? 32
  | _ => false
  end.

(** The complete pulses of a trace. *)
Fixpoint count_pulses (ops : list event) : nat :=
  match ops with
  | [] => 0
  | _ :: t => (if is_pulse_at ops then 1 else 0) + count_pulses t
  end.

(** Every move of the TAP to shift-DR in [ops] starts a complete pulse,
    whatever follows [ops]. *)
Definition whole_pulses (ops : list event) : Prop :=
  forall tl,
    count_pulses (ops ++ tl)
    = (count_shift_dr_state ops + count_pulses tl)%nat.

(** The register values read since the last wall-clock wait ([acc] holds
    those read before [ops]). *)
Fixpoint reads_since_wait (acc : list Z) (ops : list event) : list Z :=
  match ops with
  | [] => acc
  | Usleep _ :: t => reads_since_wait [] t
  | ShiftDR _ (Some rx) _ _ :: t => reads_since_wait (acc ++ [bytes_word rx]) t
  | _ :: t => reads_since_wait acc t
  end.

(** The trace ends with the close of an erase attempt: the wall-clock wait,
    the status read that captures [rx], and console output. *)
Definition attempt_closed (rx : list Z) (ops : list event) : Prop :=
  exists pre tail,
    ops = pre ++ [Usleep (500 * 1000); ShiftIR STATUS_REGISTER 8; ToggleClk 5;
                  ShiftDR (word_bytes 0xffffffff) (Some rx) 32 None] ++ tail /\
    Forall (fun e => is_console e = true) tail.

(** A run keeps [Q]: the events it appends to the trace satisfy [Q]. *)
Definition keeps {A} (Q : list event -> Prop) (m : M A) : Prop :=
  forall w a w', m w = Some (a, w') ->
    exists ops, trace w' = trace w ++ ops /\ Q ops.

(** *** Sample inputs *)

(** A device whose every register read gives [v]. *)
Definition hw_const (v : Z) : nat -> list Z := fun _ => word_bytes v.

(** The world before anything was sent, with the detected idcode. *)
Definition world0 (idcode : Z) : World := mkWorld idcode 0 2500000 [].

(** The session that the constructor builds without an image: for every
    idcode but the GW2A and GW5A ones the caller's flags stand. *)
Definition session0 (idcode : Z) : Gowin :=
  mkGowin None None FLASH_MODE (idcode =? 0x0900281B) false
          ((idcode =? 0x0100381B) || (idcode =? 0x100681b)) false false false
          BSCAN_SPI_SCK BSCAN_SPI_CS BSCAN_SPI_DI BSCAN_SPI_DO BSCAN_SPI_MSK
          false false false.

(** The session that the constructor builds for a GW2A-18 without an
    image. *)
Definition session_gw2a : Gowin :=
  mkGowin None None FLASH_MODE false true false false true true
          BSCAN_SPI_SCK BSCAN_SPI_CS BSCAN_SPI_DI BSCAN_SPI_DO BSCAN_SPI_MSK
          false false false.

(** A structured image that parses and declares [idcode] in its header. *)
Definition fs_declaring (idcode : string) : Parser :=
  mkParser true (mkImage [] 0 [("idcode"%string, idcode)] 0).

(** Uninitialised locals that happen to hold zero. *)
Definition zero_junk : nat -> Z := fun _ => 0.

(** A device that answers its register reads from a script, and 0 once the
    script is used up. *)
Definition hw_script (l : list Z) : nat -> list Z :=
  fun k => word_bytes (nth k l 0).

(** A flash that needs two erase attempts: the first status read shows
    neither valid nor done; each attempt sees edit mode set on enable and
    cleared on disable; the read that closes the first attempt shows
    done-final set, the one that closes the second shows it cleared, and so
    does the final read. *)
Definition erase_script : list Z :=
  [0; STATUS_SYSTEM_EDIT_MODE; 0; STATUS_DONE_FINAL;
   STATUS_SYSTEM_EDIT_MODE; 0; 0; 0].

(** An image whose computed checksum is 1 and whose header declares the
    user code [0x1A2B3C4D] as its checksum. *)
Definition fs_usercode : Image :=
  mkImage [] 0 [("checkSum"%string, "0x1A2B3c4d"%string)] 1.

(** * Lemmas on the monad and on loops *)

Lemma spec_ret {A} (a : A) w Q : Q a w -> spec (ret a) w Q.
Proof. intros H. exists a, w. split; [reflexivity | exact H]. Qed.

Lemma spec_bind {A B} (m : M A) (k : A -> M B) w Q :
  spec m w (fun a w1 => spec (k a) w1 Q) -> spec (bind m k) w Q.
Proof.
  intros (a & w1 & Hm & b & w2 & Hk & HQ).
  exists b, w2. split; [| exact HQ].
  unfold bind. rewrite Hm. exact Hk.
Qed.

Lemma spec_weaken {A} (m : M A) w (P Q : A -> World -> Prop) :
  spec m w P -> (forall a w', P a w' -> Q a w') -> spec m w Q.
Proof.
  intros (a & w' & Hm & HP) H. exists a, w'. split; [exact Hm | auto].
Qed.

Lemma spec_emit e w Q :
  Q tt (mkWorld (target_device_id w) (reads w) (clkfreq w) (trace w ++ [e])) ->
  spec (emit e) w Q.
Proof. intros H. eexists _, _. split; [reflexivity | exact H]. Qed.

Lemma spec_when b (m : M unit) w Q :
  (b = true -> spec m w Q) -> (b = false -> Q tt w) -> spec (when b m) w Q.
Proof.
  destruct b; intros H1 H2; simpl; [apply H1 | apply spec_ret, H2]; reflexivity.
Qed.

(** Running [n + m] rounds is running [n] rounds and then [m] more. *)
Lemma iter_nat_add {S R} (body : S -> M (S + R)) n m s w :
  iter_nat body (n + m) s w =
  match iter_nat body n s w with
  | Some (inl s', w') => iter_nat body m s' w'
  | Some (inr x, w') => Some (inr x, w')
  | None => None
  end.
Proof.
  revert s w. induction n as [| n IH]; intros s w; simpl.
  - reflexivity.
  - unfold bind. destruct (body s w) as [[[s' | x] w'] |]; simpl.
    + apply IH.
    + reflexivity.
    + reflexivity.
Qed.

(** Binary fuel and unary fuel run the same rounds. *)
Lemma loop_pos_iter_nat {S R} (body : S -> M (S + R)) p s w :
  loop_pos body p s w = iter_nat body (Pos.to_nat p) s w.
Proof.
  revert s w. induction p as [q IH | q IH |]; intros s w.
  - rewrite Pos2Nat.inj_xI.
    change (Datatypes.S (2 * Pos.to_nat q))
      with (1 + (2 * Pos.to_nat q))%nat.
    replace (2 * Pos.to_nat q)%nat with (Pos.to_nat q + Pos.to_nat q)%nat by lia.
    simpl. unfold bind.
    destruct (body s w) as [[[s' | x] w'] |]; simpl; try reflexivity.
    rewrite iter_nat_add, IH.
    destruct (iter_nat body (Pos.to_nat q) s' w') as [[[s'' | x] w''] |];
      simpl; try reflexivity.
    apply IH.
  - rewrite Pos2Nat.inj_xO.
    replace (2 * Pos.to_nat q)%nat with (Pos.to_nat q + Pos.to_nat q)%nat by lia.
    simpl. unfold bind.
    rewrite iter_nat_add, IH.
    destruct (iter_nat body (Pos.to_nat q) s w) as [[[s'' | x] w''] |];
      simpl; try reflexivity.
    apply IH.
  - simpl. unfold bind.
    destruct (body s w) as [[[s' | x] w'] |]; reflexivity.
Qed.

(** The loop rule: an invariant on the loop variables and the world, and a
    variant that every round that goes on decreases. *)
Lemma spec_iter_nat {S R} (body : S -> M (S + R))
    (Inv : S -> World -> Prop) (mu : S -> nat) (Q : R -> World -> Prop) :
  (forall s w, Inv s w ->
     spec (body s) w (fun r w' =>
       match r with
       | inl s' => Inv s' w' /\ (mu s' < mu s)%nat
       | inr x => Q x w'
       end)) ->
  forall n s w, Inv s w -> (mu s < n)%nat ->
    spec (iter_nat body n s) w (fun r w' =>
      match r with
      | inl _ => False
      | inr x => Q x w'
      end).
Proof.
  intros Hbody n. induction n as [| n IH]; intros s w Hinv Hmu.
  - lia.
  - simpl. apply spec_bind.
    eapply spec_weaken; [apply Hbody, Hinv |].
    intros [s' | x] w' H; simpl in H.
    + destruct H as [Hinv' Hlt]. apply IH; [exact Hinv' | lia].
    + apply spec_ret. exact H.
Qed.

Lemma spec_loop {S R} (body : S -> M (S + R))
    (Inv : S -> World -> Prop) (mu : S -> nat) (Q : R -> World -> Prop)
    fuel s w :
  (forall s w, Inv s w ->
     spec (body s) w (fun r w' =>
       match r with
       | inl s' => Inv s' w' /\ (mu s' < mu s)%nat
       | inr x => Q x w'
       end)) ->
  Inv s w -> (mu s < Pos.to_nat fuel)%nat ->
  spec (loop fuel body s) w Q.
Proof.
  intros Hbody Hinv Hmu.
  destruct (spec_iter_nat body Inv mu Q Hbody (Pos.to_nat fuel) s w Hinv Hmu)
    as ([s' | x] & w' & Hrun & HQ); [contradiction |].
  exists x, w'. split; [| exact HQ].
  unfold loop, bind. rewrite loop_pos_iter_nat, Hrun. reflexivity.
Qed.

(** * The status poller *)

Section Poller.

Variable hw : nat -> list Z.
Variable g : Gowin.

Lemma spec_readStatusReg w Q :
  Q (status_at hw (reads w))
    (mkWorld (target_device_id w) (S (reads w)) (clkfreq w)
       (trace w ++ [ShiftIR STATUS_REGISTER 8; ToggleClk 5;
                    ShiftDR (word_bytes 0xffffffff)
                            (Some (capture 4 (hw (reads w)))) 32 None])) ->
  spec (readStatusReg hw) w Q.
Proof.
  intros H. eexists _, _. split; [reflexivity |].
  simpl. rewrite <- !app_assoc. exact H.
Qed.

(** The poll loop from any point: [t] rounds are behind, none of them
    matched. *)
Lemma pollFlag_from mask value w0 t w :
  0 <= t <= POLL_LIMIT ->
  reads w = (reads w0 + Z.to_nat t)%nat ->
  (forall k, (k < Z.to_nat t)%nat ->
     Z.land (status_at hw (reads w0 + k)) mask <> value) ->
  forall fuel, (Z.to_nat (POLL_LIMIT - t) < Pos.to_nat fuel)%nat ->
  spec (loop fuel (pollFlag_body hw g mask value) t) w (fun r w' =>
    (reads w' <= reads w0 + Z.to_nat POLL_LIMIT + 1)%nat /\
    (r = true <->
     exists k, (k < Z.to_nat POLL_LIMIT)%nat /\
       Z.land (status_at hw (reads w0 + k)) mask = value)).
Proof.
  intros Ht Hr Hno fuel Hfuel.
  apply spec_loop with
    (Inv := fun t w =>
       0 <= t <= POLL_LIMIT /\
       reads w = (reads w0 + Z.to_nat t)%nat /\
       (forall k, (k < Z.to_nat t)%nat ->
          Z.land (status_at hw (reads w0 + k)) mask <> value))
    (mu := fun t => Z.to_nat (POLL_LIMIT - t));
    [| auto | exact Hfuel].
  clear. intros t w (Ht & Hr & Hno).
  unfold pollFlag_body.
  apply spec_bind, spec_readStatusReg.
  apply spec_bind.
  set (w1 := mkWorld _ _ _ _).
  assert (Hw1 : reads w1 = S (reads w)) by reflexivity.
  clearbody w1.
  apply spec_weaken with (P := fun _ w' => reads w' = S (reads w)).
  { apply spec_when; intros _; [apply spec_emit |]; exact Hw1. }
  intros [] w2 Hw2.
  destruct (Z.eqb_spec t POLL_LIMIT) as [-> | Hne].
  - apply spec_bind, spec_emit, spec_ret. cbv beta iota. split.
    + change (reads w2 <= reads w0 + Z.to_nat POLL_LIMIT + 1)%nat.
      rewrite Hw2, Hr. lia.
    + split; [discriminate |].
      intros (k & Hk & Hm). exfalso. exact (Hno k Hk Hm).
  - destruct (Z.eqb_spec (Z.land (status_at hw (reads w)) mask) value)
      as [Hm | Hm]; cbn [negb]; apply spec_ret; cbv beta iota.
    + split.
      * rewrite Hw2, Hr. unfold POLL_LIMIT in *. lia.
      * split; [intros _ | reflexivity].
        exists (Z.to_nat t). split.
        -- unfold POLL_LIMIT in *. lia.
        -- rewrite <- Hr. exact Hm.
    + split; [split; [lia | split] |].
      * rewrite Hw2, Hr. lia.
      * intros k Hk.
        destruct (Nat.eq_dec k (Z.to_nat t)) as [-> | Hk'].
        -- rewrite <- Hr. exact Hm.
        -- apply Hno. lia.
      * lia.
Qed.

End Poller.

(** C4. [pollFlag] returns from every world, for every mask and expected
    value, after at most 100000001 reads of the status register; it returns
    [true] exactly when one of the first 100000000 reads satisfies
    [(status & mask) == value], and [false] (the timeout) otherwise. *)
Theorem pollFlag_terminates hw g mask value w :
  exists r w',
    pollFlag hw g mask value w = Some (r, w') /\
    Z.of_nat (reads w') <= Z.of_nat (reads w) + 100000001 /\
    (r = true <->
     exists k, Z.of_nat k < 100000000 /\
       Z.land (status_at hw (reads w + k)) mask = value).
Proof.
  destruct (pollFlag_from hw g mask value w 0 w) with (fuel := 100000001%positive)
    as (r & w' & Hrun & Hreads & Hiff).
  - unfold POLL_LIMIT. lia.
  - simpl. lia.
  - intros k Hk. simpl in Hk. lia.
  - unfold POLL_LIMIT. lia.
  - exists r, w'. split; [exact Hrun |].
    unfold POLL_LIMIT in *.
    split; [lia |].
    rewrite Hiff. split; intros (k & Hk & Hm); exists k; (split; [lia | exact Hm]).
Qed.

(** * Reasoning on the events a run appends *)

Lemma emits_ret {A} (a : A) (P : A -> list event -> Prop) :
  P a [] -> emits (ret a) P.
Proof.
  intros H w. apply spec_ret. exists []. rewrite app_nil_r. auto.
Qed.

Lemma emits_bind {A B} (m : M A) (k : A -> M B) P1 (Q : B -> list event -> Prop) :
  emits m P1 ->
  (forall a o1, P1 a o1 -> emits (k a) (fun b o2 => Q b (o1 ++ o2))) ->
  emits (bind m k) Q.
Proof.
  intros Hm Hk w. apply spec_bind.
  eapply spec_weaken; [apply Hm |].
  intros a w1 (o1 & Ht1 & HP1). cbv beta.
  eapply spec_weaken; [apply (Hk a o1 HP1) |].
  intros b w2 (o2 & Ht2 & HQ). cbv beta in *.
  exists (o1 ++ o2). rewrite Ht2, Ht1, app_assoc. auto.
Qed.

Lemma emits_weaken {A} (m : M A) (P Q : A -> list event -> Prop) :
  emits m P -> (forall a ops, P a ops -> Q a ops) -> emits m Q.
Proof.
  intros Hm H w. eapply spec_weaken; [apply Hm |].
  intros a w' (ops & Ht & HP). exists ops. auto.
Qed.

Lemma emits_emit e : emits (emit e) (fun _ ops => ops = [e]).
Proof. intros w. apply spec_emit. exists [e]. auto. Qed.

Lemma emits_when b (m : M unit) (P : list event -> Prop) :
  emits m (fun _ ops => P ops) ->
  emits (when b m) (fun _ ops => if b then P ops else ops = []).
Proof.
  intros Hm. destruct b; simpl; [exact Hm | apply emits_ret; reflexivity].
Qed.

(** The loop rule on appended events: the invariant speaks of the loop
    variables and of the events since the loop began. *)
Lemma emits_loop {S R} (body : S -> M (S + R))
    (Inv : S -> list event -> Prop) (mu : S -> nat)
    (Q : R -> list event -> Prop) fuel s :
  (forall s acc, Inv s acc ->
     emits (body s) (fun r ops =>
       match r with
       | inl s' => Inv s' (acc ++ ops) /\ (mu s' < mu s)%nat
       | inr x => Q x (acc ++ ops)
       end)) ->
  Inv s [] -> (mu s < Pos.to_nat fuel)%nat ->
  emits (loop fuel body s) Q.
Proof.
  intros Hbody Hinv Hmu w0.
  apply spec_loop with
    (Inv := fun s w => exists acc, trace w = trace w0 ++ acc /\ Inv s acc)
    (mu := mu); [| exists []; rewrite app_nil_r; auto | exact Hmu].
  intros s1 w (acc & Ht & Hacc).
  eapply spec_weaken; [apply (Hbody s1 acc Hacc) |].
  intros [s' | x] w' (ops & Ht' & H); cbv beta iota in *.
  - destruct H as [H1 H2]. split; [| exact H2].
    exists (acc ++ ops). rewrite Ht', Ht, app_assoc. auto.
  - exists (acc ++ ops). rewrite Ht', Ht, app_assoc. auto.
Qed.

(** A run whose events are known exactly. *)
Lemma emits_exact {A} (m : M A) (P : A -> list event -> Prop) :
  (forall w, exists a ops,
     m w = Some (a, mkWorld (target_device_id w) (reads w) (clkfreq w)
                            (trace w ++ ops)) /\ P a ops) ->
  emits m P.
Proof.
  intros H w. destruct (H w) as (a & ops & Hrun & HP).
  eexists _, _. split; [exact Hrun |]. exists ops. auto.
Qed.

Ltac ebind L := eapply emits_bind; [apply L |].

Ltac solve_timeout :=
  unfold timed_out in *;
  repeat (progress (rewrite ?in_app_iff; cbn [In app]));
  intuition (try discriminate).

Section Events.

Variable hw : nat -> list Z.
Variable g : Gowin.

Lemma emits_send_command c :
  emits (send_command c) (fun r ops => r = true /\ ops = [ShiftIR c 8; ToggleClk 5]).
Proof.
  intros w. eexists _, _. split; [reflexivity |].
  exists [ShiftIR c 8; ToggleClk 5]. simpl. rewrite <- app_assoc. auto.
Qed.

Lemma emits_readReg32 c :
  emits (readReg32 hw c) (fun v ops =>
    exists rx, ops = [ShiftIR c 8; ToggleClk 5;
                      ShiftDR (word_bytes 0xffffffff) (Some rx) 32 None] /\
               v = bytes_word rx).
Proof.
  intros w. eexists _, _. split; [reflexivity |].
  eexists. simpl. rewrite <- !app_assoc. split; [reflexivity |].
  eexists. split; reflexivity.
Qed.

Lemma emits_sendClkUs us :
  emits (sendClkUs us) (fun _ ops => exists n, ops = [ToggleClk n]).
Proof.
  intros w. unfold sendClkUs, getClkFreq, toggleClk, emit, bind. cbv zeta.
  eexists _, _. split; [reflexivity |].
  eexists. simpl. split; [reflexivity |]. eexists. reflexivity.
Qed.

Lemma timed_out_app a b : timed_out (a ++ b) <-> timed_out a \/ timed_out b.
Proof. unfold timed_out. apply in_app_iff. Qed.

Lemma emits_pollFlag mask value :
  emits (pollFlag hw g mask value) (fun r ops =>
    Forall (fun e => is_poll_event e = true) ops /\
    (r = false <-> timed_out ops)).
Proof.
  unfold pollFlag.
  apply emits_loop with
    (Inv := fun t acc =>
       0 <= t <= POLL_LIMIT /\
       Forall (fun e => is_poll_event e = true) acc /\ ~ timed_out acc)
    (mu := fun t => Z.to_nat (POLL_LIMIT - t)).
  - intros t acc (Ht & Hacc & Hno). unfold pollFlag_body.
    eapply emits_bind; [apply emits_readReg32 |].
    intros status o1 (rx & -> & _).
    eapply emits_bind; [apply emits_when, emits_emit |].
    intros [] o2 Ho2.
    assert (Hp2 : Forall (fun e => is_poll_event e = true) o2 /\ ~ timed_out o2).
    { destruct (_verbose g); subst o2; split;
        try solve [repeat constructor];
        unfold timed_out; simpl; intuition discriminate. }
    destruct Hp2 as [Hp2 Hn2].
    assert (Hp1 : Forall (fun e => is_poll_event e = true)
                    [ShiftIR STATUS_REGISTER 8; ToggleClk 5;
                     ShiftDR (word_bytes 0xffffffff) (Some rx) 32 None])
      by (repeat constructor).
    assert (Hn1 : ~ timed_out [ShiftIR STATUS_REGISTER 8; ToggleClk 5;
                     ShiftDR (word_bytes 0xffffffff) (Some rx) 32 None])
      by (unfold timed_out; simpl; intuition discriminate).
    destruct (Z.eqb_spec t POLL_LIMIT) as [-> | Hne].
    + eapply emits_bind; [apply emits_emit |].
      intros [] o3 ->. apply emits_ret. rewrite app_nil_r. split.
      * rewrite !Forall_app. repeat split; auto; repeat constructor.
      * split; [intros _ | reflexivity].
        unfold timed_out. rewrite !in_app_iff. simpl. auto 10.
    + destruct (Z.land status mask =? value); cbn [negb]; apply emits_ret;
        rewrite app_nil_r.
      * split.
        -- rewrite !Forall_app. auto.
        -- split; [discriminate |].
           rewrite !timed_out_app. tauto.
      * split; [split; [lia | split] |].
        -- rewrite !Forall_app. auto.
        -- rewrite !timed_out_app. tauto.
        -- lia.
  - unfold POLL_LIMIT. split; [lia |]. split; [constructor |].
    unfold timed_out. simpl. tauto.
  - unfold POLL_LIMIT. lia.
Qed.

(** Poll events are register events, and neither is a flash command or a
    wait. *)
Lemma poll_event_register e :
  is_poll_event e = true -> is_register_event e = true.
Proof.
  destruct e as [tdi irlen | tdi [rx |] drlen [st |] | | | | | | | s | | | | |];
    simpl; try discriminate; try reflexivity.
  intros H. apply andb_true_iff in H. destruct H as [H _].
  apply Z.eqb_eq in H. subst tdi. reflexivity.
Qed.

Lemma Forall_poll_register ops :
  Forall (fun e => is_poll_event e = true) ops ->
  Forall (fun e => is_register_event e = true) ops.
Proof.
  intros H. eapply Forall_impl; [| exact H]. apply poll_event_register.
Qed.

Ltac solve_register :=
  rewrite ?Forall_app; repeat split;
  try assumption; try (apply Forall_poll_register; assumption);
  repeat constructor.

(** *** Observers and concatenation *)

Lemma count_cmd_app c a b :
  count_cmd c (a ++ b) = (count_cmd c a + count_cmd c b)%nat.
Proof. unfold count_cmd. rewrite filter_app, length_app. reflexivity. Qed.

Lemma count_shift_dr_state_app a b :
  count_shift_dr_state (a ++ b)
  = (count_shift_dr_state a + count_shift_dr_state b)%nat.
Proof.
  unfold count_shift_dr_state. rewrite filter_app, length_app. reflexivity.
Qed.

Lemma last_capture_app acc a b :
  last_capture acc (a ++ b) = last_capture (last_capture acc a) b.
Proof.
  revert acc. induction a as [| e a IH]; intros acc; [reflexivity |].
  destruct e as [| tdi [rx |] drlen st | | | | | | | | | | | |]; simpl; apply IH.
Qed.

Lemma reads_after_wait_app armed a b :
  reads_after_wait armed (a ++ b)
  = reads_after_wait armed a ++ reads_after_wait (armed_after armed a) b.
Proof.
  revert armed. induction a as [| e a IH]; intros armed; [reflexivity |].
  destruct e as [| tdi [rx |] drlen st | | | | | | | | | | | |]; simpl;
    try apply IH.
  destruct armed; simpl; rewrite IH; reflexivity.
Qed.

Lemma armed_after_app armed a b :
  armed_after armed (a ++ b) = armed_after (armed_after armed a) b.
Proof.
  revert armed. induction a as [| e a IH]; intros armed; [reflexivity |].
  destruct e as [| tdi [rx |] drlen st | | | | | | | | | | | |]; simpl; apply IH.
Qed.

(** Register traffic holds no flash command, no TAP state change and no
    wait. *)
Lemma register_events_silent ops :
  Forall (fun e => is_register_event e = true) ops ->
  count_cmd EFLASH_ERASE ops = 0%nat /\
  count_cmd EF_PROGRAM ops = 0%nat /\
  count_shift_dr_state ops = 0%nat /\
  reads_after_wait false ops = [] /\
  armed_after false ops = false.
Proof.
  induction 1 as [| e ops He _ IH]; [repeat split |].
  destruct IH as (I1 & I2 & I3 & I4 & I5).
  unfold count_cmd, count_shift_dr_state in *.
  destruct e as [tdi irlen | tdi [rx |] drlen [st |] | | | | | | | | | | | |];
    simpl in *; try discriminate; auto.
  apply andb_true_iff in He. destruct He as [He1 He2].
  apply negb_true_iff in He1, He2.
  unfold is_cmd. rewrite He1, He2. simpl. auto.
Qed.

(** *** Configuration enable and disable *)

Lemma emits_enableCfg :
  emits (enableCfg hw g) (fun r ops =>
    Forall (fun e => is_register_event e = true) ops /\
    (r = false <-> timed_out ops)).
Proof.
  unfold enableCfg.
  eapply emits_bind; [apply emits_send_command |].
  intros _ o1 (_ & ->).
  eapply emits_weaken; [apply emits_pollFlag |].
  intros r ops (Hp & Ht). split.
  - rewrite Forall_app. split; [repeat constructor |].
    apply Forall_poll_register, Hp.
  - rewrite Ht, timed_out_app. unfold timed_out at 2. simpl.
    intuition discriminate.
Qed.

Lemma emits_disableCfg :
  emits (disableCfg hw g) (fun r ops =>
    Forall (fun e => is_register_event e = true) ops /\
    (r = false <-> timed_out ops)).
Proof.
  unfold disableCfg.
  eapply emits_bind; [apply emits_send_command |].
  intros _ o1 (_ & ->).
  eapply emits_bind; [apply emits_send_command |].
  intros _ o2 (_ & ->).
  eapply emits_weaken; [apply emits_pollFlag |].
  intros r ops (Hp & Ht). split.
  - rewrite !Forall_app. repeat split; [repeat constructor .. |].
    apply Forall_poll_register, Hp.
  - rewrite Ht, !timed_out_app. unfold timed_out at 2 3. simpl.
    intuition discriminate.
Qed.

(** The status dump of verbose mode: [displayReadReg(prefix, readStatusReg())]
    under [if (_verbose)]. *)
Lemma emits_verbose_dump b prefix :
  emits (when b (st <- readStatusReg hw ;; displayReadReg prefix st))
    (fun _ ops =>
       Forall (fun e => is_register_event e = true) ops /\ ~ timed_out ops).
Proof.
  eapply emits_weaken.
  - apply emits_when with
      (P := fun ops => Forall (fun e => is_register_event e = true) ops /\
                       ~ timed_out ops).
    eapply emits_bind; [apply emits_readReg32 |].
    intros st o1 (rx & -> & _).
    eapply emits_weaken; [apply emits_emit |].
    intros _ o2 ->. split; [repeat constructor |].
    unfold timed_out. simpl. intuition discriminate.
  - intros u ops H. destruct b; [exact H | subst ops].
    split; [constructor | unfold timed_out; simpl; tauto].
Qed.

(** *** [eraseSRAM] *)

Lemma ends_with_read_app st a b :
  ends_with_read st b -> ends_with_read st (a ++ b).
Proof.
  intros H acc. rewrite last_capture_app. apply H.
Qed.

(** The closing idiom of the erase and write functions: read the status
    register, print the verdict on done-final, return [on_set] when it is
    set. *)
Lemma emits_final_read (on_set : bool) (e1 e2 : event) :
  is_register_event e1 = true -> is_register_event e2 = true ->
  e1 <> PrintError "timeout" -> e2 <> PrintError "timeout" ->
  (forall tdi drlen rx st, e1 <> ShiftDR tdi (Some rx) drlen st) ->
  (forall tdi drlen rx st, e2 <> ShiftDR tdi (Some rx) drlen st) ->
  emits (st <- readStatusReg hw ;;
         if negb (Z.land st STATUS_DONE_FINAL =? 0) then
           emit e1 ;; ret on_set
         else
           emit e2 ;; ret (negb on_set))
    (fun r ops =>
       Forall (fun e => is_register_event e = true) ops /\
       ~ timed_out ops /\
       exists st, ends_with_read st ops /\
                  r = if done_final st then on_set else negb on_set).
Proof.
  intros R1 R2 T1 T2 C1 C2.
  ebind emits_readReg32. intros st o1 (rx & -> & ->).
  assert (E : forall e, (forall tdi drlen rx st, e <> ShiftDR tdi (Some rx) drlen st) ->
            ends_with_read (bytes_word rx)
              ([ShiftIR STATUS_REGISTER 8; ToggleClk 5;
                ShiftDR (word_bytes 0xffffffff) (Some rx) 32 None] ++ [e] ++ [])).
  { intros e He acc. simpl.
    destruct e as [| tdi [rx' |] drlen st | | | | | | | | | | | |];
      try reflexivity.
    exfalso. eapply He. reflexivity. }
  unfold done_final.
  destruct (Z.land (bytes_word rx) STATUS_DONE_FINAL =? 0) eqn:Hdf; cbn [negb].
  - ebind emits_emit. intros [] o2 ->. apply emits_ret.
    split; [solve_register; assumption |].
    split; [solve_timeout |].
    exists (bytes_word rx). rewrite Hdf. split; [apply E, C2 | reflexivity].
  - ebind emits_emit. intros [] o2 ->. apply emits_ret.
    split; [solve_register; assumption |].
    split; [solve_timeout |].
    exists (bytes_word rx). rewrite Hdf. split; [apply E, C1 | reflexivity].
Qed.

Lemma emits_eraseSRAM :
  emits (eraseSRAM hw g) (fun r ops =>
    Forall (fun e => is_register_event e = true) ops /\
    (timed_out ops /\ r = false \/
     ~ timed_out ops /\
     exists st, ends_with_read st ops /\ r = negb (done_final st))).
Proof.
  unfold eraseSRAM.
  ebind emits_emit. intros [] o1 ->.
  ebind emits_verbose_dump. intros [] o2 (R2 & T2).
  ebind emits_enableCfg. intros ok o3 (R3 & T3).
  destruct ok; cbn [negb].
  2:{ ebind emits_emit. intros [] o4 ->. apply emits_ret.
      split; [solve_register |]. left. split; [| reflexivity].
      assert (timed_out o3) by (apply T3; reflexivity). solve_timeout. }
  assert (N3 : ~ timed_out o3) by (intros H; apply T3 in H; discriminate).
  ebind emits_send_command. intros _ o4 (_ & ->).
  ebind emits_send_command. intros _ o5 (_ & ->).
  ebind emits_pollFlag. intros ok o6 (R6 & T6).
  destruct ok.
  2:{ ebind emits_emit. intros [] o7 ->. apply emits_ret.
      split; [solve_register |]. left. split; [| reflexivity].
      assert (timed_out o6) by (apply T6; reflexivity). solve_timeout. }
  assert (N6 : ~ timed_out o6) by (intros H; apply T6 in H; discriminate).
  ebind emits_verbose_dump. intros [] o7 (R7 & T7).
  ebind emits_send_command. intros _ o8 (_ & ->).
  ebind emits_send_command. intros _ o9 (_ & ->).
  ebind emits_disableCfg. intros ok o10 (R10 & T10).
  destruct ok; cbn [negb].
  2:{ ebind emits_emit. intros [] o11 ->. apply emits_ret.
      split; [solve_register |]. left. split; [| reflexivity].
      assert (timed_out o10) by (apply T10; reflexivity). solve_timeout. }
  assert (N10 : ~ timed_out o10) by (intros H; apply T10 in H; discriminate).
  ebind emits_verbose_dump. intros [] o11 (R11 & T11).
  eapply emits_weaken.
  { apply emits_final_read with (on_set := false)
      (e1 := PrintError "FAIL") (e2 := PrintSuccess "DONE");
      try reflexivity; discriminate. }
  intros r o12 (R12 & T12 & st & E12 & ->).
  split; [solve_register |]. right. split.
  - solve_timeout.
  - exists st. split.
    + repeat apply ends_with_read_app. exact E12.
    + destruct (done_final st); reflexivity.
Qed.

(** *** [eraseFLASH] *)

Lemma pulse_events_transparent ops :
  Forall (fun e => is_pulse_event e = true) ops ->
  (forall c, count_cmd c ops = 0%nat) /\
  ~ timed_out ops /\
  (forall b, reads_after_wait b ops = []) /\
  (forall b, armed_after b ops = b).
Proof.
  induction 1 as [| e ops He _ IH].
  - repeat split; auto.
  - destruct IH as (I1 & I2 & I3 & I4).
    destruct e as [| tdi [rx |] drlen st | | | | | | | | | | | |];
      simpl in *; try discriminate; repeat split; auto;
      unfold timed_out in *; simpl; intuition discriminate.
Qed.

(** The erase pulse drives the TAP to shift-DR exactly [nb_iter] times. *)
Lemma emits_erase_pulse nb_iter :
  0 <= nb_iter < 66 ->
  emits (loop 66 (erase_pulse_body nb_iter) 0) (fun _ ops =>
    Forall (fun e => is_pulse_event e = true) ops /\
    count_shift_dr_state ops = Z.to_nat nb_iter).
Proof.
  intros Hnb.
  apply emits_loop with
    (Inv := fun i acc =>
       0 <= i <= nb_iter /\
       Forall (fun e => is_pulse_event e = true) acc /\
       count_shift_dr_state acc = Z.to_nat i)
    (mu := fun i => Z.to_nat (nb_iter - i)).
  - intros i acc (Hi & Hacc & Hc). unfold erase_pulse_body.
    destruct (Z.ltb_spec i nb_iter) as [Hlt | Hge].
    + ebind emits_emit. intros [] o1 ->.
      ebind emits_emit. intros [] o2 ->.
      ebind emits_emit. intros [] o3 ->.
      apply emits_ret. split; [split; [lia | split] | lia].
      * rewrite Forall_app. split; [exact Hacc | repeat constructor].
      * rewrite count_shift_dr_state_app, Hc.
        change (count_shift_dr_state _) with 1%nat. lia.
    + apply emits_ret. rewrite app_nil_r. split; [exact Hacc |].
      rewrite Hc. f_equal. lia.
  - split; [lia |]. split; [constructor | reflexivity].
  - change (Pos.to_nat 66) with 66%nat. lia.
Qed.

(** What one round of the retry loop appends, by the way it ends. *)
Lemma emits_eraseFLASH_body i :
  emits (eraseFLASH_body hw g i) (fun r ops =>
    let n := if is_gw1n1 g then 65%nat else 1%nat in
    armed_after false ops = false /\
    match r with
    | inl i' =>
        i' = i + 1 /\ i < 100 /\ ~ timed_out ops /\
        count_cmd EFLASH_ERASE ops = 1%nat /\
        count_shift_dr_state ops = n /\
        exists st, reads_after_wait false ops = [st] /\ done_final st = true
    | inr (Some b) =>
        b = false /\ i < 100 /\ timed_out ops /\
        (count_cmd EFLASH_ERASE ops <= 1)%nat /\
        count_shift_dr_state ops = (n * count_cmd EFLASH_ERASE ops)%nat /\
        reads_after_wait false ops = []
    | inr None =>
        ~ timed_out ops /\
        (100 <= i /\ ops = [] \/
         i < 100 /\
         count_cmd EFLASH_ERASE ops = 1%nat /\
         count_shift_dr_state ops = n /\
         exists st, reads_after_wait false ops = [st] /\ done_final st = false)
    end).
Proof.
  unfold eraseFLASH_body.
  destruct (Z.ltb_spec i 100) as [Hlt | Hge].
  2:{ apply emits_ret. cbv zeta. split; [reflexivity |].
      split; [intros [] | left; split; [lia | reflexivity]]. }
  ebind emits_verbose_dump. intros [] o1 (R1 & T1).
  destruct (register_events_silent o1 R1) as (E1 & _ & S1 & W1 & A1).
  ebind emits_enableCfg. intros ok o2 (R2 & T2).
  destruct (register_events_silent o2 R2) as (E2 & _ & S2 & W2 & A2).
  destruct ok; cbn [negb].
  2:{ ebind emits_emit. intros [] o3 ->. apply emits_ret. cbv zeta.
      rewrite !armed_after_app, !count_cmd_app, !count_shift_dr_state_app,
        !reads_after_wait_app, ?A1, ?A2, ?W1, ?W2, ?E1, ?E2, ?S1, ?S2.
      simpl. rewrite ?A1, ?A2, ?W2.
      repeat split; auto;
        try (unfold count_cmd, count_shift_dr_state;
             destruct (is_gw1n1 g); simpl; lia).
      assert (timed_out o2) by (apply T2; reflexivity). solve_timeout. }
  assert (N2 : ~ timed_out o2) by (intros H; apply T2 in H; discriminate).
  ebind emits_send_command. intros _ o3 (_ & ->).
  ebind emits_emit. intros [] o4 ->.
  eapply emits_bind.
  { apply emits_erase_pulse with (nb_iter := if is_gw1n1 g then 65 else 1).
    destruct (is_gw1n1 g); lia. }
  intros [] o5 (R5 & S5).
  destruct (pulse_events_transparent o5 R5) as (E5 & T5 & W5 & A5).
  assert (S5' : count_shift_dr_state o5 = if is_gw1n1 g then 65%nat else 1%nat)
    by (rewrite S5; destruct (is_gw1n1 g); reflexivity).
  clear S5.
  ebind emits_sendClkUs. intros [] o6 (clk & ->).
  ebind emits_disableCfg. intros ok o7 (R7 & T7).
  destruct (register_events_silent o7 R7) as (E7 & _ & S7 & W7 & A7).
  destruct ok; cbn [negb].
  2:{ ebind emits_emit. intros [] o8 ->. apply emits_ret. cbv zeta.
      rewrite !armed_after_app, !count_cmd_app, !count_shift_dr_state_app,
        !reads_after_wait_app, ?A1, ?A2, ?W1, ?W2, ?E1, ?E2, ?S1, ?S2,
        ?E5, ?S5', ?S7, ?E7.
      simpl. rewrite ?A1, ?A2, ?W2, ?A5, ?W5, ?A7, ?W7. simpl.
      rewrite ?A1, ?A2, ?W2, ?A5, ?W5, ?A7, ?W7. simpl.
      change (count_cmd EFLASH_ERASE [ShiftIR EFLASH_ERASE 8; ToggleClk 5])
        with 1%nat.
      repeat split; auto;
        try (unfold count_cmd, count_shift_dr_state;
             destruct (is_gw1n1 g); simpl; lia).
      assert (timed_out o7) by (apply T7; reflexivity). solve_timeout. }
  assert (N7 : ~ timed_out o7) by (intros H; apply T7 in H; discriminate).
  ebind emits_emit. intros [] o8 ->.
  ebind emits_emit. intros [] o9 ->.
  ebind emits_readReg32. intros st o10 (rx & -> & ->).
  eapply emits_bind.
  { apply emits_when with (P := fun ops =>
      ops = [DisplayReadReg "after erase flash" (bytes_word rx)]).
    apply emits_emit. }
  intros [] o11 H11.
  assert (F11 : Forall (fun e => is_register_event e = true) o11 /\
                ~ timed_out o11).
  { destruct (_verbose g); subst o11; split; repeat constructor;
      solve_timeout. }
  destruct F11 as [R11 T11].
  destruct (register_events_silent o11 R11) as (E11 & _ & S11 & W11 & A11).
  clear H11.
  assert (Hobs :
    forall tl,
    armed_after false
      (o1 ++ o2 ++ [ShiftIR EFLASH_ERASE 8; ToggleClk 5] ++
       [SetState RUN_TEST_IDLE] ++ o5 ++ [ToggleClk clk] ++ o7 ++ [Flush] ++
       [Usleep (500 * 1000)] ++
       [ShiftIR STATUS_REGISTER 8; ToggleClk 5;
        ShiftDR (word_bytes 0xffffffff) (Some rx) 32 None] ++ o11 ++ tl)
      = armed_after false tl /\
    reads_after_wait false
      (o1 ++ o2 ++ [ShiftIR EFLASH_ERASE 8; ToggleClk 5] ++
       [SetState RUN_TEST_IDLE] ++ o5 ++ [ToggleClk clk] ++ o7 ++ [Flush] ++
       [Usleep (500 * 1000)] ++
       [ShiftIR STATUS_REGISTER 8; ToggleClk 5;
        ShiftDR (word_bytes 0xffffffff) (Some rx) 32 None] ++ o11 ++ tl)
      = bytes_word rx :: reads_after_wait false tl).
  { intros tl.
    rewrite !armed_after_app, !reads_after_wait_app.
    rewrite ?A1, ?W1. simpl. rewrite ?A1, ?A2, ?W2. simpl.
    rewrite ?A1, ?A2, ?A5, ?W5. simpl.
    rewrite ?A1, ?A2, ?A5, ?A7, ?W7. simpl.
    rewrite ?A1, ?A2, ?A5, ?A7, ?A11, ?W11. simpl.
    rewrite ?A1, ?A2, ?A5, ?A7, ?A11, ?W11. simpl. auto. }
  assert (Hcnt :
    count_cmd EFLASH_ERASE
      (o1 ++ o2 ++ [ShiftIR EFLASH_ERASE 8; ToggleClk 5] ++
       [SetState RUN_TEST_IDLE] ++ o5 ++ [ToggleClk clk] ++ o7 ++ [Flush] ++
       [Usleep (500 * 1000)] ++
       [ShiftIR STATUS_REGISTER 8; ToggleClk 5;
        ShiftDR (word_bytes 0xffffffff) (Some rx) 32 None] ++ o11 ++ [])
      = 1%nat /\
    count_shift_dr_state
      (o1 ++ o2 ++ [ShiftIR EFLASH_ERASE 8; ToggleClk 5] ++
       [SetState RUN_TEST_IDLE] ++ o5 ++ [ToggleClk clk] ++ o7 ++ [Flush] ++
       [Usleep (500 * 1000)] ++
       [ShiftIR STATUS_REGISTER 8; ToggleClk 5;
        ShiftDR (word_bytes 0xffffffff) (Some rx) 32 None] ++ o11 ++ [])
      = (if is_gw1n1 g then 65%nat else 1%nat)).
  { rewrite !count_cmd_app, !count_shift_dr_state_app,
      ?E1, ?E2, ?E5, ?E7, ?E11, ?S1, ?S2, ?S5', ?S7, ?S11.
    change (count_cmd EFLASH_ERASE [ShiftIR EFLASH_ERASE 8; ToggleClk 5])
      with 1%nat.
    unfold count_cmd, count_shift_dr_state. simpl.
    destruct (is_gw1n1 g); split; lia. }
  assert (Hto :
    ~ timed_out
      (o1 ++ o2 ++ [ShiftIR EFLASH_ERASE 8; ToggleClk 5] ++
       [SetState RUN_TEST_IDLE] ++ o5 ++ [ToggleClk clk] ++ o7 ++ [Flush] ++
       [Usleep (500 * 1000)] ++
       [ShiftIR STATUS_REGISTER 8; ToggleClk 5;
        ShiftDR (word_bytes 0xffffffff) (Some rx) 32 None] ++ o11 ++ []))
    by solve_timeout.
  destruct (Hobs []) as [HA HW]. destruct Hcnt as [HE HS].
  unfold done_final.
  destruct (Z.land (bytes_word rx) STATUS_DONE_FINAL =? 0) eqn:Hdf;
    apply emits_ret; cbv zeta; (split; [exact HA |]).
  - split; [exact Hto |]. right. repeat split; auto.
    exists (bytes_word rx). rewrite Hdf. split; [exact HW | reflexivity].
  - repeat split; auto.
    exists (bytes_word rx). rewrite Hdf. split; [exact HW | reflexivity].
Qed.

Lemma Forall_removelast {A} (P : A -> Prop) l :
  Forall P l -> Forall P (removelast l).
Proof.
  induction 1 as [| x l Hx Hl IH]; [constructor |].
  destruct l as [| y l]; [constructor |].
  change (Forall P (x :: removelast (y :: l))). constructor; assumption.
Qed.

(** The retry loop as a whole. *)
Lemma emits_eraseFLASH_loop :
  emits (loop 101 (eraseFLASH_body hw g) 0) (fun r ops =>
    let n := if is_gw1n1 g then 65%nat else 1%nat in
    let posts := reads_after_wait false ops in
    armed_after false ops = false /\
    (count_cmd EFLASH_ERASE ops <= 100)%nat /\
    count_shift_dr_state ops = (n * count_cmd EFLASH_ERASE ops)%nat /\
    Forall (fun st => done_final st = true) (removelast posts) /\
    match r with
    | Some b => b = false /\ timed_out ops
    | None =>
        ~ timed_out ops /\
        List.length posts = count_cmd EFLASH_ERASE ops /\
        (count_cmd EFLASH_ERASE ops = 100%nat \/
         exists front st, posts = front ++ [st] /\ done_final st = false)
    end).
Proof.
  apply emits_loop with
    (Inv := fun i acc =>
       0 <= i <= 100 /\ ~ timed_out acc /\ armed_after false acc = false /\
       count_cmd EFLASH_ERASE acc = Z.to_nat i /\
       count_shift_dr_state acc
       = ((if is_gw1n1 g then 65 else 1) * Z.to_nat i)%nat /\
       List.length (reads_after_wait false acc) = Z.to_nat i /\
       Forall (fun st => done_final st = true) (reads_after_wait false acc))
    (mu := fun i => Z.to_nat (100 - i)).
  - intros i acc (Hi & T & A & E & S & L & F).
    eapply emits_weaken; [apply emits_eraseFLASH_body |].
    intros r ops. cbv zeta.
    rewrite armed_after_app, count_cmd_app, count_shift_dr_state_app,
      reads_after_wait_app, A, E, S.
    destruct r as [i' | [b |]].
    + intros (A' & -> & Hlt & T' & E' & S' & st & W' & D').
      rewrite E', S', W'. split; [| lia].
      split; [lia |]. split; [solve_timeout |]. split; [exact A' |].
      split; [lia |]. split; [destruct (is_gw1n1 g); lia |].
      split; [rewrite length_app, L; simpl; lia |].
      apply Forall_app. split; [exact F | repeat constructor; exact D'].
    + intros (A' & -> & Hlt & T' & E' & S' & W').
      rewrite S', W', app_nil_r.
      split; [exact A' |]. split; [lia |].
      split; [destruct (is_gw1n1 g); lia |].
      split; [apply Forall_removelast, F |].
      split; [reflexivity | solve_timeout].
    + intros (A' & T' & [(Hge & ->) | (Hlt & E' & S' & st & W' & D')]).
      * simpl. rewrite !app_nil_r.
        change (count_cmd EFLASH_ERASE []) with 0%nat.
        change (count_shift_dr_state []) with 0%nat.
        rewrite ?Nat.add_0_r.
        split; [reflexivity |]. split; [lia |].
        split; [destruct (is_gw1n1 g); lia |].
        split; [apply Forall_removelast, F |].
        split; [solve_timeout |].
        split; [lia |]. left. lia.
      * rewrite E', S', W', removelast_last.
        split; [exact A' |]. split; [lia |].
        split; [destruct (is_gw1n1 g); lia |].
        split; [exact F |].
        split; [solve_timeout |].
        split; [rewrite length_app, L; simpl; lia |].
        right. exists (reads_after_wait false acc), st. auto.
  - simpl. repeat split; try lia; auto;
      try solve [intros []]; destruct (is_gw1n1 g); reflexivity.
  - change (Pos.to_nat 101) with 101%nat. lia.
Qed.

Lemma ends_with_read_last_status st ops :
  ends_with_read st ops -> last_status ops = Some st.
Proof. intros H. apply H. Qed.

Lemma emits_eraseFLASH :
  emits (eraseFLASH hw g) (fun r ops =>
    let n := if is_gw1n1 g then 65%nat else 1%nat in
    let posts := reads_after_wait false ops in
    (count_cmd EFLASH_ERASE ops <= 100)%nat /\
    count_shift_dr_state ops = (n * count_cmd EFLASH_ERASE ops)%nat /\
    Forall (fun st => done_final st = true) (removelast posts) /\
    (r = true ->
     List.length posts = count_cmd EFLASH_ERASE ops /\
     (count_cmd EFLASH_ERASE ops = 100%nat \/
      exists front st, posts = front ++ [st] /\ done_final st = false)) /\
    (r = false <->
     timed_out ops \/
     exists st, last_status ops = Some st /\ done_final st = true)).
Proof.
  unfold eraseFLASH.
  ebind emits_readReg32. intros st0 o1 (rx0 & -> & ->).
  set (o1 := [ShiftIR STATUS_REGISTER 8; ToggleClk 5;
              ShiftDR (word_bytes 0xffffffff) (Some rx0) 32 None]).
  assert (R1 : Forall (fun e => is_register_event e = true) o1)
    by (repeat constructor).
  assert (T1 : ~ timed_out o1) by (subst o1; solve_timeout).
  destruct (register_events_silent o1 R1) as (E1 & _ & S1 & W1 & A1).
  clearbody o1.
  eapply emits_bind with
    (P1 := fun ok o2 =>
       Forall (fun e => is_register_event e = true) o2 /\
       (ok = false /\ timed_out o2 \/
        ok = false /\ ~ timed_out o2 /\
          (exists st, ends_with_read st o2 /\ done_final st = true) \/
        ok = true /\ ~ timed_out o2)).
  { destruct (negb (Z.land (bytes_word rx0) STATUS_GOWIN_VLD =? 0)).
    - eapply emits_weaken; [apply emits_eraseSRAM |].
      intros r ops (R & [(T & ->) | (T & st & E & ->)]); (split; [exact R |]);
        [left; auto |].
      destruct (done_final st) eqn:D; simpl.
      + right. left. repeat split; auto. exists st. auto.
      + right. right. auto.
    - apply emits_ret. split; [constructor |]. right. right.
      split; [reflexivity | intros []]. }
  intros ok o2 (R2 & H2).
  destruct (register_events_silent o2 R2) as (E2 & _ & S2 & W2 & A2).
  destruct ok; cbn [negb].
  2:{ apply emits_ret. cbv zeta. rewrite !app_nil_r.
      rewrite !count_cmd_app, !count_shift_dr_state_app, !reads_after_wait_app,
        E1, E2, S1, S2, W1, A1, W2.
      simpl.
      split; [lia |]. split; [lia |].
      split; [constructor |]. split; [discriminate |].
      split; [intros _ | reflexivity].
      destruct H2 as [(_ & T) | [(_ & T & st & E & D) | (? & _)]];
        [left; solve_timeout | | discriminate].
      right. exists st. split; [| exact D].
      apply ends_with_read_last_status. repeat apply ends_with_read_app.
      exact E. }
  assert (T2 : ~ timed_out o2).
  { destruct H2 as [(? & _) | [(? & _) | (_ & T)]];
      [discriminate | discriminate | exact T]. }
  clear H2.
  ebind emits_emit. intros [] o3 ->.
  ebind emits_eraseFLASH_loop.
  intros r o4. cbv zeta. intros (A4 & E4 & S4 & F4 & H4).
  assert (Hpre : forall tl,
    reads_after_wait false (o1 ++ o2 ++ [PrintInfo "Erase FLASH "] ++ o4 ++ tl)
    = reads_after_wait false o4 ++ reads_after_wait false tl).
  { intros tl. rewrite !reads_after_wait_app.
    rewrite ?W1, ?A1. simpl. rewrite ?W2, ?A2. simpl. rewrite ?A4. reflexivity. }
  assert (Hcnt : forall tl,
    count_cmd EFLASH_ERASE (o1 ++ o2 ++ [PrintInfo "Erase FLASH "] ++ o4 ++ tl)
    = (count_cmd EFLASH_ERASE o4 + count_cmd EFLASH_ERASE tl)%nat /\
    count_shift_dr_state (o1 ++ o2 ++ [PrintInfo "Erase FLASH "] ++ o4 ++ tl)
    = (count_shift_dr_state o4 + count_shift_dr_state tl)%nat).
  { intros tl. rewrite !count_cmd_app, !count_shift_dr_state_app, E1, E2, S1, S2.
    split; reflexivity. }
  destruct r as [b |].
  - destruct H4 as (-> & T4). apply emits_ret. cbv zeta.
    rewrite Hpre. destruct (Hcnt []) as [-> ->]. simpl.
    change (count_cmd EFLASH_ERASE []) with 0%nat.
    change (count_shift_dr_state []) with 0%nat.
    rewrite !Nat.add_0_r, app_nil_r.
    split; [exact E4 |]. split; [exact S4 |]. split; [exact F4 |].
    split; [discriminate |].
    split; [intros _; left; solve_timeout | reflexivity].
  - destruct H4 as (T4 & L4 & X4).
    eapply emits_weaken.
    { apply emits_final_read with (on_set := false)
        (e1 := PrintError "FAIL") (e2 := PrintSuccess "DONE");
        try reflexivity; discriminate. }
    intros r o5 (R5 & T5 & st & E5 & ->).
    destruct (register_events_silent o5 R5) as (E5' & _ & S5 & W5 & A5).
    rewrite Hpre. destruct (Hcnt o5) as [-> ->].
    rewrite E5', S5, W5, !Nat.add_0_r, app_nil_r.
    split; [exact E4 |]. split; [exact S4 |]. split; [exact F4 |].
    split; [intros _; auto |].
    assert (Hls : last_status (o1 ++ o2 ++ [PrintInfo "Erase FLASH "] ++ o4 ++ o5)
                  = Some st).
    { apply ends_with_read_last_status. repeat apply ends_with_read_app.
      exact E5. }
    rewrite Hls.
    split.
    + intros Hr. right. exists st. split; [reflexivity |].
      destruct (done_final st); [reflexivity | discriminate].
    + assert (Hno : ~ timed_out
                        (o1 ++ o2 ++ [PrintInfo "Erase FLASH "] ++ o4 ++ o5))
        by solve_timeout.
      intros [T | (st' & Hst & D)]; [contradiction |].
      injection Hst as <-. rewrite D. reflexivity.
Qed.

End Events.

(** * Construction *)

(** The quirk flags of a constructed session are functions of the detected
    idcode alone. *)
Lemma Gowin_ctor_quirks file_extension open_file mcufw open_mcufw prg_type
    external_flash verify verbose quiet skip_checksum0 w0 g w1 :
  Gowin_ctor file_extension open_file mcufw open_mcufw prg_type
             external_flash verify verbose quiet skip_checksum0 w0
  = Some (inr g, w1) ->
  let idcode := target_device_id w0 in
  is_gw1n1 g = (idcode =? 0x0900281B) /\
  is_gw2a g = ((idcode =? 0x0000081b) || (idcode =? 0x0000281b)) /\
  _verbose g = verbose.
Proof.
  unfold Gowin_ctor, bindX, liftX, bind, get_target_device_id, ret, throw.
  intros H. cbv zeta.
  repeat match type of H with
         | context [match ?x with _ => _ end] => destruct x eqn:?
         end;
    try discriminate; injection H as <- _; simpl;
    repeat match goal with
           | E : (if ?c then _ else _) = (_, _) |- _ =>
               destruct c eqn:?; inversion E; subst; clear E
           end;
    auto.
Qed.

(** * Internal-flash erase *)

(** A loop whose first round leaves is that round. *)
Lemma spec_loop_first_round {S R} (body : S -> M (S + R)) fuel s w
    (Q : R -> World -> Prop) :
  spec (body s) w (fun r w' =>
    match r with
    | inl _ => False
    | inr x => Q x w'
    end) ->
  spec (loop fuel body s) w Q.
Proof.
  intros ([s' | x] & w' & Hrun & HQ); [contradiction |].
  exists x, w'. split; [| exact HQ].
  unfold loop, bind. rewrite loop_pos_iter_nat.
  destruct (Pos.to_nat fuel) as [| n] eqn:E; [lia |].
  simpl. unfold bind. rewrite Hrun. reflexivity.
Qed.

(** A poll that never sees its value times out. *)
Lemma pollFlag_never hw g mask value w :
  (forall k, Z.land (status_at hw k) mask <> value) ->
  spec (pollFlag hw g mask value) w (fun r _ => r = false).
Proof.
  intros Hno.
  eapply spec_weaken.
  - apply (pollFlag_from hw g mask value w 0 w).
    + unfold POLL_LIMIT. lia.
    + simpl. lia.
    + intros k _. apply Hno.
    + unfold POLL_LIMIT. lia.
  - intros r w' (_ & Hiff). destruct r; [| reflexivity].
    destruct (proj1 Hiff eq_refl) as (k & _ & Hm).
    exfalso. exact (Hno _ Hm).
Qed.

(** ** Complete erase pulses *)

Lemma whole_pulses_nil : whole_pulses [].
Proof. intros tl. reflexivity. Qed.

Lemma whole_pulses_app a b :
  whole_pulses a -> whole_pulses b -> whole_pulses (a ++ b).
Proof.
  intros Ha Hb tl.
  rewrite <- app_assoc, Ha, Hb, count_shift_dr_state_app. lia.
Qed.

Lemma whole_pulses_other e :
  is_shift_dr_state e = false -> whole_pulses [e].
Proof.
  intros He tl. cbn [app count_pulses].
  destruct e as [| | | [] | | | | | | | | | |]; try discriminate; reflexivity.
Qed.

Lemma whole_pulses_pulse :
  whole_pulses [SetState SHIFT_DR; ToggleClk 32; SetState RUN_TEST_IDLE].
Proof. intros tl. reflexivity. Qed.

(** *** Runs that keep a property of the appended events *)

Section Keeps.

Variable Q : list event -> Prop.
Hypothesis Q_nil : Q [].
Hypothesis Q_app : forall a b, Q a -> Q b -> Q (a ++ b).

Lemma keeps_ret {A} (a : A) : keeps Q (ret a).
Proof.
  intros w a' w' H. injection H as <- <-. exists []. rewrite app_nil_r. auto.
Qed.

Lemma keeps_bind {A B} (m : M A) (k : A -> M B) :
  keeps Q m -> (forall a, keeps Q (k a)) -> keeps Q (bind m k).
Proof.
  intros Hm Hk w b w2 H. unfold bind in H.
  destruct (m w) as [[a w1] |] eqn:E; [| discriminate].
  destruct (Hm _ _ _ E) as (o1 & T1 & F1).
  destruct (Hk a _ _ _ H) as (o2 & T2 & F2).
  exists (o1 ++ o2). rewrite T2, T1, app_assoc. auto.
Qed.

Lemma keeps_emit e : Q [e] -> keeps Q (emit e).
Proof. intros HQ w a w' H. injection H as _ <-. exists [e]. auto. Qed.

Lemma keeps_when b (m : M unit) : keeps Q m -> keeps Q (when b m).
Proof. destruct b; [auto | intros _; apply keeps_ret]. Qed.

Lemma keeps_iter_nat {S R} (body : S -> M (S + R)) :
  (forall s, keeps Q (body s)) -> forall n s, keeps Q (iter_nat body n s).
Proof.
  intros Hb n. induction n as [| n IH]; intros s; simpl.
  - apply keeps_ret.
  - apply keeps_bind; [apply Hb |].
    intros [s' | x]; [apply IH | apply keeps_ret].
Qed.

Lemma keeps_loop {S R} fuel (body : S -> M (S + R)) s :
  (forall s, keeps Q (body s)) -> keeps Q (loop fuel body s).
Proof.
  intros Hb w a w' H. unfold loop, bind in H.
  rewrite loop_pos_iter_nat in H.
  destruct (iter_nat body (Pos.to_nat fuel) s w) as [[[s' | x] w1] |] eqn:E;
    try discriminate.
  injection H as <- <-.
  exact (keeps_iter_nat body Hb _ _ _ _ _ E).
Qed.

Lemma keeps_shiftDR_rx hw tdi drlen :
  (forall rx, Q [ShiftDR tdi (Some rx) drlen None]) ->
  keeps Q (shiftDR_rx hw tdi drlen).
Proof.
  intros HQ w a w' H. injection H as _ <-.
  eexists. split; [reflexivity | apply HQ].
Qed.

Lemma keeps_getClkFreq : keeps Q getClkFreq.
Proof.
  intros w a w' H. injection H as _ <-. exists []. rewrite app_nil_r. auto.
Qed.

End Keeps.

(** Both of two properties of a run that returns. *)
Lemma emits_both {A} (m : M A) (P Q : A -> list event -> Prop) :
  emits m P -> emits m Q -> emits m (fun a ops => P a ops /\ Q a ops).
Proof.
  intros HP HQ w.
  destruct (HP w) as (a & w' & Hrun & ops & Ht & Hp).
  destruct (HQ w) as (a' & w'' & Hrun' & ops' & Ht' & Hq).
  rewrite Hrun in Hrun'. injection Hrun' as <- <-.
  rewrite Ht in Ht'. apply app_inv_head in Ht'. subst ops'.
  exists a, w'. split; [exact Hrun |]. exists ops. auto.
Qed.

Ltac keep_step :=
  lazymatch goal with
  | |- keeps _ (ret _) => apply keeps_ret; exact whole_pulses_nil
  | |- keeps _ (emit _) =>
      apply keeps_emit; apply whole_pulses_other; reflexivity
  | |- keeps _ (shiftDR_rx _ _ _) =>
      apply keeps_shiftDR_rx; intros; apply whole_pulses_other; reflexivity
  | |- keeps _ getClkFreq => apply keeps_getClkFreq; exact whole_pulses_nil
  | |- keeps _ (when _ _) => apply keeps_when; [exact whole_pulses_nil |]
  | |- keeps _ (loop _ _ _) =>
      apply keeps_loop; [exact whole_pulses_nil | exact whole_pulses_app
                         | intros ?]
  | |- keeps _ (bind _ _) =>
      apply keeps_bind; [exact whole_pulses_app | | intros ?]
  | |- keeps _ (if ?c then _ else _) => destruct c
  | |- keeps _ (match ?x with _ => _ end) => destruct x
  end.

Section ErasePulses.

Variable hw : nat -> list Z.
Variable g : Gowin.

(** One round of the pulse loop is one complete pulse, or nothing. *)
Lemma erase_pulse_body_whole nb_iter i :
  keeps whole_pulses (erase_pulse_body nb_iter i).
Proof.
  unfold erase_pulse_body.
  destruct (i <? nb_iter); [| apply keeps_ret, whole_pulses_nil].
  intros w a w' H. injection H as _ <-.
  exists [SetState SHIFT_DR; ToggleClk 32; SetState RUN_TEST_IDLE].
  cbn [trace]. rewrite <- !app_assoc. split; [reflexivity |].
  exact whole_pulses_pulse.
Qed.

(** Nothing else in [eraseFLASH] drives the TAP to shift-DR. *)
Lemma eraseFLASH_whole_pulses : keeps whole_pulses (eraseFLASH hw g).
Proof.
  unfold eraseFLASH, eraseFLASH_body, eraseSRAM, enableCfg, disableCfg,
    pollFlag, pollFlag_body, sendClkUs, readStatusReg, readReg32,
    send_command, displayReadReg, shiftIR, toggleClk, set_state, flush,
    usleep.
  repeat (cbv beta zeta;
          lazymatch goal with
          | |- keeps _ (loop _ (erase_pulse_body _) _) =>
              apply keeps_loop;
              [exact whole_pulses_nil | exact whole_pulses_app
               | intros ?; apply erase_pulse_body_whole]
          | |- _ => keep_step
          end).
Qed.

End ErasePulses.

(** ** The close of an erase attempt and the final read *)

Lemma reads_since_wait_app acc a b :
  reads_since_wait acc (a ++ b) = reads_since_wait (reads_since_wait acc a) b.
Proof.
  revert acc. induction a as [| e a IH]; intros acc; [reflexivity |].
  destruct e as [| tdi [rx |] drlen st | | | | | | | | | | | |]; simpl;
    apply IH.
Qed.

Lemma console_reads tail :
  Forall (fun e => is_console e = true) tail ->
  (forall acc, reads_since_wait acc tail = acc) /\
  (forall b, reads_after_wait b tail = []) /\
  (forall b, armed_after b tail = b).
Proof.
  induction 1 as [| e tail He _ IH]; [repeat split |].
  destruct IH as (I1 & I2 & I3).
  destruct e as [| tdi [rx |] drlen st | | | | | | | | | | | |];
    try discriminate; repeat split; intros; simpl; auto.
Qed.

Lemma attempt_closed_app rx a b :
  attempt_closed rx b -> attempt_closed rx (a ++ b).
Proof.
  intros (pre & tail & -> & Htail). exists (a ++ pre), tail.
  rewrite <- app_assoc. auto.
Qed.

(** A trace that ends with the close of an attempt and one more status
    read: the reads since the last wait are the closing read and that one,
    and the closing read is the last of the reads that follow a wait. *)
Lemma closed_then_read rx1 rx2 e ops :
  attempt_closed rx1 ops ->
  is_console e = true ->
  let final := [ShiftIR STATUS_REGISTER 8; ToggleClk 5;
                ShiftDR (word_bytes 0xffffffff) (Some rx2) 32 None; e] in
  reads_since_wait [] (ops ++ final) = [bytes_word rx1; bytes_word rx2] /\
  exists front,
    reads_after_wait false (ops ++ final) = front ++ [bytes_word rx1].
Proof.
  intros (pre & tail & -> & Htail) He final.
  destruct (console_reads tail Htail) as (S1 & W1 & A1).
  destruct (console_reads [e] (Forall_cons _ He (Forall_nil _)))
    as (S2 & W2 & A2).
  split.
  - rewrite <- !app_assoc, reads_since_wait_app. cbn [app reads_since_wait].
    rewrite reads_since_wait_app, S1. subst final. cbn [reads_since_wait].
    apply (S2 [bytes_word rx1; bytes_word rx2]).
  - exists (reads_after_wait false pre).
    rewrite <- !app_assoc, reads_after_wait_app. f_equal.
    cbn [app reads_after_wait]. f_equal.
    rewrite reads_after_wait_app, W1, A1. subst final.
    cbn [app reads_after_wait]. apply (W2 false).
Qed.

Section EraseClose.

Variable hw : nat -> list Z.
Variable g : Gowin.

(** A round of the retry loop that is not cut short by a poll ends with
    the close of its attempt. *)
Lemma emits_eraseFLASH_body_closed i :
  emits (eraseFLASH_body hw g i) (fun r ops =>
    match r with
    | inl i' => i' = i + 1 /\ i < 100 /\ exists rx, attempt_closed rx ops
    | inr (Some _) => True
    | inr None => 100 <= i /\ ops = [] \/ exists rx, attempt_closed rx ops
    end).
Proof.
  unfold eraseFLASH_body.
  destruct (Z.ltb_spec i 100) as [Hlt | Hge].
  2:{ apply emits_ret. left. split; [lia | reflexivity]. }
  ebind (emits_verbose_dump hw). intros [] o1 _.
  ebind (emits_enableCfg hw g). intros ok o2 _.
  destruct ok; cbn [negb].
  2:{ ebind emits_emit. intros [] o3 _. apply emits_ret. exact I. }
  ebind emits_send_command. intros _ o3 _.
  ebind emits_emit. intros [] o4 _.
  eapply emits_bind.
  { apply emits_erase_pulse with (nb_iter := if is_gw1n1 g then 65 else 1).
    destruct (is_gw1n1 g); lia. }
  intros [] o5 _.
  ebind emits_sendClkUs. intros [] o6 _.
  ebind (emits_disableCfg hw g). intros ok o7 _.
  destruct ok; cbn [negb].
  2:{ ebind emits_emit. intros [] o8 _. apply emits_ret. exact I. }
  ebind emits_emit. intros [] o8 _.
  ebind emits_emit. intros [] o9 ->.
  ebind (emits_readReg32 hw). intros st o10 (rx & -> & ->).
  eapply emits_bind.
  { apply emits_when with (P := fun ops =>
      ops = [DisplayReadReg "after erase flash" (bytes_word rx)]).
    apply emits_emit. }
  intros [] o11 H11.
  assert (C11 : Forall (fun e => is_console e = true) o11)
    by (destruct (_verbose g); subst o11; repeat constructor).
  assert (Hclosed :
    attempt_closed rx
      (o1 ++ o2 ++ o3 ++ o4 ++ o5 ++ o6 ++ o7 ++ o8 ++
       [Usleep (500 * 1000)] ++
       [ShiftIR STATUS_REGISTER 8; ToggleClk 5;
        ShiftDR (word_bytes 0xffffffff) (Some rx) 32 None] ++ o11 ++ [])).
  { exists (o1 ++ o2 ++ o3 ++ o4 ++ o5 ++ o6 ++ o7 ++ o8), o11.
    split; [| exact C11].
    rewrite app_nil_r. repeat rewrite <- app_assoc. reflexivity. }
  destruct (Z.land (bytes_word rx) STATUS_DONE_FINAL =? 0); apply emits_ret.
  - right. exists rx. exact Hclosed.
  - split; [reflexivity |]. split; [exact Hlt |]. exists rx. exact Hclosed.
Qed.

Lemma emits_eraseFLASH_loop_closed :
  emits (loop 101 (eraseFLASH_body hw g) 0) (fun r ops =>
    r = None -> exists rx, attempt_closed rx ops).
Proof.
  apply emits_loop with
    (Inv := fun i acc =>
       0 <= i <= 100 /\
       (i = 0 \/ exists rx, attempt_closed rx acc))
    (mu := fun i => Z.to_nat (100 - i)).
  - intros i acc (Hi & Hacc).
    eapply emits_weaken; [apply emits_eraseFLASH_body_closed |].
    intros [i' | [b |]] ops.
    + intros (-> & Hlt & rx & Hc). split; [| lia].
      split; [lia |]. right. exists rx. apply attempt_closed_app, Hc.
    + intros _. discriminate.
    + intros [(Hge & ->) | (rx & Hc)] _.
      * rewrite app_nil_r. destruct Hacc as [-> | Hacc]; [lia | exact Hacc].
      * exists rx. apply attempt_closed_app, Hc.
  - split; [lia | left; reflexivity].
  - change (Pos.to_nat 101) with 101%nat. lia.
Qed.

(** [eraseFLASH] as a whole: a poll timed out, or the preliminary SRAM
    erase failed and no erase command was sent, or the trace ends with the
    close of an attempt followed by one more status read and the verdict on
    it, which decides the result. *)
Lemma emits_eraseFLASH_closed :
  emits (eraseFLASH hw g) (fun r ops =>
    timed_out ops
    \/ count_cmd EFLASH_ERASE ops = 0%nat /\ r = false
    \/ exists rx1 rx2 e pre,
         attempt_closed rx1 pre /\ is_console e = true /\
         ops = pre ++ [ShiftIR STATUS_REGISTER 8; ToggleClk 5;
                       ShiftDR (word_bytes 0xffffffff) (Some rx2) 32 None; e] /\
         r = negb (done_final (bytes_word rx2))).
Proof.
  unfold eraseFLASH.
  ebind (emits_readReg32 hw). intros st0 o1 (rx0 & -> & ->).
  set (o1 := [ShiftIR STATUS_REGISTER 8; ToggleClk 5;
              ShiftDR (word_bytes 0xffffffff) (Some rx0) 32 None]).
  assert (R1 : Forall (fun e => is_register_event e = true) o1)
    by (repeat constructor).
  destruct (register_events_silent o1 R1) as (E1 & _).
  clearbody o1.
  eapply emits_bind with
    (P1 := fun (ok : bool) o2 =>
       Forall (fun e => is_register_event e = true) o2).
  { destruct (negb (Z.land (bytes_word rx0) STATUS_GOWIN_VLD =? 0)).
    - eapply emits_weaken; [apply emits_eraseSRAM |].
      intros r ops (R & _). exact R.
    - apply emits_ret. constructor. }
  intros ok o2 R2.
  destruct (register_events_silent o2 R2) as (E2 & _).
  destruct ok; cbn [negb].
  2:{ apply emits_ret. right. left.
      rewrite !count_cmd_app, E1, E2. split; reflexivity. }
  ebind emits_emit. intros [] o3 ->.
  eapply emits_bind.
  { apply emits_both;
      [apply emits_eraseFLASH_loop | apply emits_eraseFLASH_loop_closed]. }
  intros r o4 (H4 & C4). cbv zeta in H4.
  destruct H4 as (_ & _ & _ & _ & H4).
  destruct r as [b |].
  - destruct H4 as (-> & T4). apply emits_ret. left. solve_timeout.
  - destruct (C4 eq_refl) as (rx1 & Hc).
    ebind (emits_readReg32 hw). intros st o5 (rx2 & -> & ->).
    destruct (negb (Z.land (bytes_word rx2) STATUS_DONE_FINAL =? 0)) eqn:D.
    + ebind emits_emit. intros [] o6 ->. apply emits_ret.
      right. right.
      exists rx1, rx2, (PrintError "FAIL"),
        (o1 ++ o2 ++ [PrintInfo "Erase FLASH "] ++ o4).
      split; [do 3 apply attempt_closed_app; exact Hc |].
      split; [reflexivity |].
      split; [| unfold done_final; rewrite D; reflexivity].
      rewrite app_nil_r. repeat rewrite <- app_assoc. reflexivity.
    + ebind emits_emit. intros [] o6 ->. apply emits_ret.
      right. right.
      exists rx1, rx2, (PrintSuccess "DONE"),
        (o1 ++ o2 ++ [PrintInfo "Erase FLASH "] ++ o4).
      split; [do 3 apply attempt_closed_app; exact Hc |].
      split; [reflexivity |].
      split; [| unfold done_final; rewrite D; reflexivity].
      rewrite app_nil_r. repeat rewrite <- app_assoc. reflexivity.
Qed.

End EraseClose.

(** C3, as amended. For a session built by the constructor, [eraseFLASH]
    returns from every world. It sends the erase command at most 100 times;
    the raw pulse (TAP to shift-DR, 32 clocks, TAP back to run-test/idle)
    is run 65 times per erase command when the detected idcode is
    0x0900281B and once otherwise, and the TAP is driven to shift-DR for
    nothing else; every status read that closes an attempt, except the last
    such read, shows done-final set (the loop is left on the first one that
    shows it cleared); and it reports failure exactly when a status poll
    timed out (inside the preliminary SRAM erase, or inside the enable or
    disable of an attempt) or the last status read it made shows done-final
    set. When no poll timed out, either the preliminary SRAM erase failed
    and no erase command was sent, or exactly two status reads follow the
    last wall-clock wait: the read that closes the last attempt and the
    final read after the loop, and the result is success exactly when that
    final read shows done-final cleared. *)
Theorem eraseFLASH_retries file_extension open_file mcufw open_mcufw prg_type
    external_flash verify verbose quiet skip_checksum0 w0 g w1 hw w :
  Gowin_ctor file_extension open_file mcufw open_mcufw prg_type
             external_flash verify verbose quiet skip_checksum0 w0
  = Some (inr g, w1) ->
  exists r w' ops,
    eraseFLASH hw g w = Some (r, w') /\
    trace w' = trace w ++ ops /\
    let n := if target_device_id w0 =? 0x0900281B then 65%nat else 1%nat in
    let posts := reads_after_wait false ops in
    (count_cmd EFLASH_ERASE ops <= 100)%nat /\
    count_shift_dr_state ops = (n * count_cmd EFLASH_ERASE ops)%nat /\
    count_pulses ops = (n * count_cmd EFLASH_ERASE ops)%nat /\
    Forall (fun st => done_final st = true) (removelast posts) /\
    (r = true ->
     List.length posts = count_cmd EFLASH_ERASE ops /\
     (count_cmd EFLASH_ERASE ops = 100%nat \/
      exists front st, posts = front ++ [st] /\ done_final st = false)) /\
    (r = false <->
     timed_out ops \/
     exists st, last_status ops = Some st /\ done_final st = true) /\
    (~ timed_out ops ->
     count_cmd EFLASH_ERASE ops = 0%nat /\ r = false
     \/
     exists closing final,
       reads_since_wait [] ops = [closing; final] /\
       (exists front, posts = front ++ [closing]) /\
       r = negb (done_final final)).
Proof.
  intros Hctor.
  destruct (Gowin_ctor_quirks _ _ _ _ _ _ _ _ _ _ _ _ _ Hctor) as (Hq & _).
  destruct (emits_both _ _ _ (emits_eraseFLASH hw g)
              (emits_eraseFLASH_closed hw g) w)
    as (r & w' & Hrun & ops & Ht & H & Hc).
  exists r, w', ops. split; [exact Hrun |]. split; [exact Ht |].
  cbv zeta in *. rewrite <- Hq.
  destruct H as (H1 & H2 & H3 & H4 & H5).
  split; [exact H1 |]. split; [exact H2 |].
  split.
  { destruct (eraseFLASH_whole_pulses hw g _ _ _ Hrun) as (ops' & Ht' & Hw).
    rewrite Ht in Ht'. apply app_inv_head in Ht'. subst ops'.
    rewrite <- H2, <- (app_nil_r ops), Hw, app_nil_r. cbn [count_pulses]. lia. }
  split; [exact H3 |]. split; [exact H4 |]. split; [exact H5 |].
  intros Hno.
  destruct Hc as [Hto | [Hzero | (rx1 & rx2 & e & pre & Hpre & He & -> & ->)]];
    [contradiction | left; exact Hzero | right].
  exists (bytes_word rx1), (bytes_word rx2).
  destruct (closed_then_read rx1 rx2 e pre Hpre He) as (Hs & Hp).
  split; [exact Hs |]. split; [exact Hp | reflexivity].
Qed.

Lemma eraseFLASH_retries_witness :
  exists r w' ops,
    eraseFLASH (hw_script erase_script) (session0 0x0900281B)
               (world0 0x0900281B)
    = Some (r, w') /\
    trace w' = trace (world0 0x0900281B) ++ ops /\
    (count_cmd EFLASH_ERASE ops <= 100)%nat /\
    count_shift_dr_state ops = (65 * count_cmd EFLASH_ERASE ops)%nat /\
    count_pulses ops = (65 * count_cmd EFLASH_ERASE ops)%nat /\
    Forall (fun st => done_final st = true)
           (removelast (reads_after_wait false ops)) /\
    (r = true ->
     List.length (reads_after_wait false ops) = count_cmd EFLASH_ERASE ops /\
     (count_cmd EFLASH_ERASE ops = 100%nat \/
      exists front st,
        reads_after_wait false ops = front ++ [st] /\ done_final st = false)) /\
    (r = false <->
     timed_out ops \/
     exists st, last_status ops = Some st /\ done_final st = true) /\
    (~ timed_out ops ->
     count_cmd EFLASH_ERASE ops = 0%nat /\ r = false
     \/
     exists closing final,
       reads_since_wait [] ops = [closing; final] /\
       (exists front, reads_after_wait false ops = front ++ [closing]) /\
       r = negb (done_final final)).
Proof.
  apply (eraseFLASH_retries "" None "" None WR_FLASH false false false false
           false (world0 0x0900281B) (session0 0x0900281B)
           (world0 0x0900281B) (hw_script erase_script) (world0 0x0900281B)).
  reflexivity.
Defined.

(** On the scripted flash the run makes two attempts, 130 pulses in all,
    and succeeds; the reads that close the attempts show done-final set
    and then cleared, and the final read, the second since the last wait,
    shows it cleared. *)
Lemma eraseFLASH_two_attempts :
  option_map
    (fun x => (fst x, count_cmd EFLASH_ERASE (trace (snd x)),
               count_pulses (trace (snd x)),
               reads_after_wait false (trace (snd x)),
               reads_since_wait [] (trace (snd x))))
    (eraseFLASH (hw_script erase_script) (session0 0x0900281B)
                (world0 0x0900281B))
  = Some (true, 2%nat, 130%nat, [STATUS_DONE_FINAL; 0], [0; 0]).
Proof. vm_compute. reflexivity. Qed.

(** C3, the claim as stated fails: on a device whose status register always
    reads 0, no read ever shows done-final set, and [eraseFLASH] still
    reports failure (its first enable of the configuration times out). *)
Lemma eraseFLASH_fails_without_done_final :
  (exists w',
     eraseFLASH (hw_const 0) (session0 0x0900281B) (world0 0x0900281B)
     = Some (false, w')) /\
  (forall k, done_final (status_at (hw_const 0) k) = false).
Proof.
  split; [| intros k; reflexivity].
  assert (H : spec (eraseFLASH (hw_const 0) (session0 0x0900281B))
                   (world0 0x0900281B) (fun r _ => r = false)).
  { unfold eraseFLASH.
    apply spec_bind, spec_readStatusReg.
    change (status_at (hw_const 0) (reads (world0 0x0900281B))) with 0.
    cbn [Z.land negb Z.eqb]. apply spec_bind, spec_ret. cbn [negb].
    apply spec_bind, spec_emit.
    apply spec_bind, spec_loop_first_round.
    unfold eraseFLASH_body. cbn [Z.ltb Z.compare Pos.compare Pos.compare_cont].
    apply spec_bind. cbn [session0 _verbose when]. apply spec_ret.
    apply spec_bind. unfold enableCfg.
    apply spec_bind.
    eapply spec_weaken with (P := fun _ _ => True).
    { eexists _, _. split; [reflexivity | exact I]. }
    intros _ w1 _.
    eapply spec_weaken; [apply pollFlag_never |].
    - intros k. discriminate.
    - intros r w2 ->. cbn [negb].
      apply spec_bind, spec_emit, spec_ret, spec_ret. reflexivity. }
  destruct H as (r & w' & Hrun & ->). exists w'. exact Hrun.
Qed.

(** * SRAM load *)

Section SramLoad.

Variable hw : nat -> list Z.
Variable g : Gowin.

Lemma payload_shifts_app a b :
  payload_shifts (a ++ b) = payload_shifts a ++ payload_shifts b.
Proof. apply flat_map_app. Qed.

Lemma register_events_no_payload ops :
  Forall (fun e => is_register_event e = true) ops -> payload_shifts ops = [].
Proof.
  induction 1 as [| e ops He _ IH]; [reflexivity |].
  destruct e as [| tdi [rx |] drlen [st |] | | | | | | | | | | | |];
    simpl in *; try discriminate; exact IH.
Qed.

(** The payload loop sends the chunks of [chunks_of]. *)
Lemma emits_writeSRAM_loop data length :
  0 <= length ->
  emits (loop (Z.to_pos (Z.abs length + 2)) (writeSRAM_body data) (length, 0))
    (fun _ ops => payload_shifts ops = chunks_of length /\
                  Forall (fun e => is_console e = false) ops /\
                  forall acc, last_capture acc ops = acc).
Proof.
  intros Hlen.
  apply emits_loop with
    (Inv := fun st acc =>
       let remains := fst st in
       0 <= remains <= length /\
       Forall (fun e => is_console e = false) acc /\
       (forall a, last_capture a acc = a) /\
       (remains = 0 /\ payload_shifts acc = chunks_of length \/
        0 < remains /\ (length - remains) mod pstep = 0 /\
        payload_shifts acc
        = repeat (pstep, SHIFT_DR) (Z.to_nat ((length - remains) / pstep))))
    (mu := fun st => Z.to_nat (fst st)).
  - intros [remains ptr] acc. cbn [fst]. intros (Hr & Hc & Hl & Hp).
    unfold writeSRAM_body.
    destruct (Z.eqb_spec remains 0) as [-> | Hne]; cbn [negb].
    + apply emits_ret. rewrite app_nil_r.
      destruct Hp as [(_ & Hp) | (? & _)]; [auto | lia].
    + destruct Hp as [(? & _) | (Hpos & Hmod & Hp)]; [lia |].
      destruct (Z.ltb_spec remains pstep) as [Hlt | Hge].
      * ebind emits_emit. intros [] o1 ->. apply emits_ret.
        rewrite app_nil_r. cbn [fst]. split; [| lia].
        split; [lia |].
        split; [apply Forall_app; split; [exact Hc | repeat constructor] |].
        split; [intros a; rewrite last_capture_app, Hl; reflexivity |].
        left. split; [lia |].
        rewrite payload_shifts_app, Hp. unfold chunks_of. simpl.
        unfold pstep in *.
        assert (E1 : length / 524288 = (length - remains) / 524288).
        { apply Z.mod_divide in Hmod; [| lia].
          destruct Hmod as [q Hq].
          replace length with (q * 524288 + remains) by lia.
          rewrite Z.div_add_l by lia.
          replace (q * 524288 + remains - remains) with (q * 524288) by lia.
          rewrite Z.div_mul by lia. rewrite Z.div_small by lia. lia. }
        assert (E2 : length mod 524288 = remains).
        { apply Z.mod_divide in Hmod; [| lia].
          destruct Hmod as [q Hq].
          replace length with (remains + q * 524288) by lia.
          rewrite Z.mod_add by lia. apply Z.mod_small. lia. }
        rewrite E1, E2.
        destruct (Z.eqb_spec remains 0); [lia | reflexivity].
      * ebind emits_emit. intros [] o1 ->. apply emits_ret.
        rewrite app_nil_r. cbn [fst]. unfold pstep in *. split; [| lia].
        split; [lia |].
        split; [apply Forall_app; split; [exact Hc | repeat constructor] |].
        split; [intros a; rewrite last_capture_app, Hl; reflexivity |].
        assert (Hq : exists q, length - remains = q * 524288 /\ 0 <= q).
        { apply Z.mod_divide in Hmod; [| lia].
          destruct Hmod as [q Hq]. exists q. split; [exact Hq | lia]. }
        destruct Hq as (q & Hq & Hq0).
        assert (E0 : (length - remains) / 524288 = q)
          by (rewrite Hq; apply Z.div_mul; lia).
        assert (E1 : (length - (remains - 524288)) / 524288 = q + 1).
        { replace (length - (remains - 524288)) with ((q + 1) * 524288) by lia.
          apply Z.div_mul. lia. }
        assert (Hstep :
          payload_shifts (acc ++ [ShiftDR
             (firstn (nbytes 524288) (skipn (Z.to_nat ptr) data)) None 524288
             (Some SHIFT_DR)])
          = repeat (524288, SHIFT_DR) (Z.to_nat (q + 1))).
        { rewrite payload_shifts_app, Hp, E0. simpl.
          replace (Z.to_nat (q + 1)) with (Z.to_nat q + 1)%nat by lia.
          rewrite repeat_app. reflexivity. }
        destruct (Z.eq_dec (remains - 524288) 0) as [Hz | Hnz].
        -- left. split; [exact Hz |].
           rewrite Hstep. unfold chunks_of, pstep.
           replace length with ((q + 1) * 524288) by lia.
           rewrite Z.div_mul, Z.mod_mul by lia. simpl.
           rewrite app_nil_r. reflexivity.
        -- right. split; [lia |]. split.
           ++ replace (length - (remains - 524288)) with ((q + 1) * 524288)
                by lia.
              apply Z.mod_mul. lia.
           ++ rewrite Hstep, E1. reflexivity.
  - cbn [fst]. split; [lia |]. split; [constructor |].
    split; [reflexivity |].
    destruct (Z.eq_dec length 0) as [-> | Hnz].
    + left. split; reflexivity.
    + right. split; [lia |]. rewrite Z.sub_diag. split; reflexivity.
  - cbn [fst]. lia.
Qed.

(** [writeSRAM] as a whole, for a payload of [length] bits: the chunks are
    those of [chunks_of], and the result is the done-final bit of the last
    status read. *)
Lemma emits_writeSRAM fs data length :
  0 <= length ->
  emits (writeSRAM hw g fs data length) (fun r ops =>
    payload_shifts ops = chunks_of length /\
    exists st, ends_with_read st ops /\ r = done_final st).
Proof.
  intros Hlen. unfold writeSRAM.
  ebind emits_emit. intros [] o1 ->.
  ebind emits_verbose_dump. intros [] o2 (R2 & _).
  ebind emits_send_command. intros _ o3 (_ & ->).
  ebind emits_send_command. intros _ o4 (_ & ->).
  ebind emits_send_command. intros _ o5 (_ & ->).
  eapply emits_bind; [apply emits_writeSRAM_loop, Hlen |].
  intros [] o6 (P6 & _ & _).
  ebind emits_send_command. intros _ o7 (_ & ->).
  ebind emits_emit. intros [] o8 ->.
  ebind emits_send_command. intros _ o9 (_ & ->).
  ebind emits_send_command. intros _ o10 (_ & ->).
  ebind emits_send_command. intros _ o11 (_ & ->).
  ebind emits_verbose_dump. intros [] o12 (R12 & _).
  eapply emits_weaken.
  { apply emits_final_read with (on_set := true)
      (e1 := PrintSuccess "DONE") (e2 := PrintSuccess "FAIL");
      try reflexivity; discriminate. }
  intros r o13 (R13 & _ & st & E13 & ->).
  split.
  - rewrite !payload_shifts_app, P6.
    rewrite (register_events_no_payload o2 R2),
      (register_events_no_payload o12 R12),
      (register_events_no_payload o13 R13).
    simpl. rewrite app_nil_r. reflexivity.
  - exists st. split.
    + repeat apply ends_with_read_app. exact E13.
    + destruct (done_final st); reflexivity.
Qed.

End SramLoad.

(** C5, on the code: an image of exactly 2^19 bits is sent as one chunk
    whose shift names shift-DR as its end state; no shift of the payload
    goes to run-test-idle. (The verdict is the done-final bit, here set.) *)
Theorem writeSRAM_full_chunk_stays_in_shift_dr :
  option_map (fun x => (fst x, payload_shifts (trace (snd x))))
    (writeSRAM (hw_const STATUS_DONE_FINAL) (session0 0x0900281B)
               (mkImage (repeat 0 (Z.to_nat 65536)) 524288 [] 0)
               (repeat 0 (Z.to_nat 65536)) 524288 (world0 0x0900281B))
  = Some (true, [(524288, SHIFT_DR)]).
Proof. vm_compute. reflexivity. Qed.

(** * Bytes, words and byte order *)

Lemma land_byte_mask y k :
  0 <= k -> Z.land y (Z.shiftl 255 k) = Z.shiftl ((y / 2 ^ k) mod 256) k.
Proof.
  intros Hk. change 255 with (Z.ones 8). change 256 with (2 ^ 8).
  rewrite <- (Z.land_ones (y / 2 ^ k) 8) by lia.
  rewrite <- Z.shiftr_div_pow2 by lia.
  apply Z.bits_inj'. intros n Hn.
  rewrite Z.land_spec.
  destruct (Z.ltb_spec n k) as [Hlt | Hge].
  - rewrite !Z.shiftl_spec_low by lia. apply andb_false_r.
  - rewrite !Z.shiftl_spec_high by lia.
    rewrite Z.land_spec, Z.shiftr_spec by lia.
    replace (n - k + k) with n by lia. reflexivity.
Qed.

Lemma lor_disjoint p q k :
  0 <= k -> 0 <= q < 2 ^ k -> Z.lor (p * 2 ^ k) q = p * 2 ^ k + q.
Proof.
  intros Hk Hq.
  rewrite <- Z.add_lor_land.
  assert (E : Z.land (p * 2 ^ k) q = 0).
  { apply Z.bits_inj'. intros n Hn.
    rewrite Z.land_spec, Z.bits_0.
    destruct (Z.ltb_spec n k) as [Hlt | Hge].
    - rewrite Z.mul_pow2_bits_low by lia. reflexivity.
    - rewrite <- (Z.mod_small q (2 ^ k)) by lia.
      rewrite Z.mod_pow2_bits_high by lia. apply andb_false_r. }
  rewrite E. lia.
Qed.

(** [bswap_32] on a word taken from memory and put back reverses its four
    bytes. *)
Lemma bswap_32_bytes a b c d :
  is_byte a -> is_byte b -> is_byte c -> is_byte d ->
  word_bytes (bswap_32 (bytes_word [a; b; c; d])) = [d; c; b; a].
Proof.
  unfold is_byte. intros Ha Hb Hc Hd.
  unfold bytes_word, u8. cbn [nth].
  rewrite !Z.mod_small by lia. rewrite !Z.shiftl_mul_pow2 by lia.
  set (x := a + b * 2 ^ 8 + c * 2 ^ 16 + d * 2 ^ 24).
  unfold bswap_32.
  change 0xff000000 with (Z.shiftl 255 24).
  change 0x00ff0000 with (Z.shiftl 255 16).
  change 0x0000ff00 with (Z.shiftl 255 8).
  change 0x000000ff with (Z.shiftl 255 0).
  rewrite !land_byte_mask by lia.
  rewrite !Z.shiftl_mul_pow2, !Z.shiftr_div_pow2 by lia.
  assert (E1 : (x * 2 ^ 24 / 2 ^ 24) mod 256 = a)
    by (subst x; Z.div_mod_to_equations; lia).
  assert (E2 : (x * 2 ^ 8 / 2 ^ 16) mod 256 = b)
    by (subst x; Z.div_mod_to_equations; lia).
  assert (E3 : (x / 2 ^ 8 / 2 ^ 8) mod 256 = c)
    by (subst x; Z.div_mod_to_equations; lia).
  assert (E4 : (x / 2 ^ 24 / 2 ^ 0) mod 256 = d)
    by (subst x; Z.div_mod_to_equations; lia).
  rewrite E1, E2, E3, E4. clear E1 E2 E3 E4. clear x.
  rewrite (lor_disjoint a (b * 2 ^ 16) 24) by lia.
  replace (a * 2 ^ 24 + b * 2 ^ 16) with ((a * 2 ^ 8 + b) * 2 ^ 16) by lia.
  rewrite (lor_disjoint _ (c * 2 ^ 8) 16) by lia.
  replace ((a * 2 ^ 8 + b) * 2 ^ 16 + c * 2 ^ 8)
    with ((a * 2 ^ 16 + b * 2 ^ 8 + c) * 2 ^ 8) by lia.
  rewrite (lor_disjoint _ (d * 2 ^ 0) 8) by lia.
  unfold word_bytes, u8. rewrite !Z.shiftr_div_pow2 by lia.
  repeat f_equal; Z.div_mod_to_equations; lia.
Qed.

(** A 32-bit word survives the round trip through its memory image. *)
Lemma bytes_word_word_bytes w :
  0 <= w < 2 ^ 32 -> bytes_word (word_bytes w) = w.
Proof.
  intros Hw. unfold bytes_word, word_bytes, u8. cbn [nth].
  rewrite !Z.shiftl_mul_pow2, !Z.shiftr_div_pow2 by lia.
  Z.div_mod_to_equations. lia.
Qed.

Lemma firstn_add_skipn {A} (n m : nat) (l : list A) :
  firstn (n + m) l = firstn n l ++ firstn m (skipn n l).
Proof.
  revert l. induction n as [| n IH]; intros l; [reflexivity |].
  destruct l as [| x l]; simpl.
  - rewrite firstn_nil. reflexivity.
  - rewrite IH. reflexivity.
Qed.

Lemma skipn_four {A} (n : nat) (l : list A) :
  (n + 4 <= List.length l)%nat ->
  exists a b c d tl, skipn n l = a :: b :: c :: d :: tl.
Proof.
  intros H.
  assert (Hl : (4 <= List.length (skipn n l))%nat) by (rewrite length_skipn; lia).
  destruct (skipn n l) as [| a [| b [| c [| d tl]]]]; simpl in Hl; try lia.
  eauto 6.
Qed.

(** * Internal-flash write *)

Section FlashWrite.

Variable hw : nat -> list Z.
Variable g : Gowin.
Variable uninit : nat -> Z.

Lemma flash_run_app st a b :
  flash_run st (a ++ b) = flash_run (flash_run st a) b.
Proof. apply fold_left_app. Qed.

Lemma nonprog_events_keep_pages ops :
  Forall (fun e => is_nonprog_event e = true) ops ->
  forall st, close_page (flash_run st ops) = close_page st.
Proof.
  induction 1 as [| e ops He _ IH]; intros st; [reflexivity |].
  change (flash_run st (e :: ops)) with (flash_run (flash_step st e) ops).
  rewrite IH.
  destruct e as [tdi irlen | tdi [rx |] drlen es | | | | | | | | | | | |];
    simpl in *; try discriminate; try reflexivity.
  apply negb_true_iff in He. rewrite He. unfold close_page. simpl.
  destruct (page_cur st) as [[[addr |] bytes] |]; reflexivity.
Qed.

Lemma register_event_nonprog e :
  is_register_event e = true -> is_nonprog_event e = true.
Proof.
  destruct e as [tdi irlen | tdi [rx |] drlen [es |] | | | | | | | | | | | |];
    simpl; try discriminate; try reflexivity.
  intros H. apply andb_true_iff in H. tauto.
Qed.

Lemma Forall_register_nonprog ops :
  Forall (fun e => is_register_event e = true) ops ->
  Forall (fun e => is_nonprog_event e = true) ops.
Proof.
  intros H. eapply Forall_impl; [| exact H]. apply register_event_nonprog.
Qed.

(** The 64 words of a page reach the flash as the 256 bytes of the page
    buffer, in order. *)
Lemma emits_writeFLASH_words xpage :
  List.length xpage = 256%nat -> Forall is_byte xpage ->
  emits (loop 65 (writeFLASH_word g xpage) 0) (fun _ ops =>
    forall done a bs,
      flash_run (mkFlashRx done (Some (Some a, bs))) ops
      = mkFlashRx done (Some (Some a, bs ++ xpage))).
Proof.
  intros Hlen Hbytes.
  apply emits_loop with
    (Inv := fun y acc =>
       0 <= y <= 64 /\
       forall done a bs,
         flash_run (mkFlashRx done (Some (Some a, bs))) acc
         = mkFlashRx done (Some (Some a, bs ++ firstn (Z.to_nat (4 * y)) xpage)))
    (mu := fun y => Z.to_nat (64 - y)).
  - intros y acc (Hy & Hacc). unfold writeFLASH_word.
    destruct (Z.ltb_spec y 64) as [Hlt | Hge].
    + ebind emits_emit. intros [] o1 ->.
      ebind emits_sendClkUs. intros [] o2 (n & ->).
      apply emits_ret. split; [split; [lia |] | lia].
      intros done a bs.
      rewrite !flash_run_app, Hacc.
      unfold flash_run. cbn [app fold_left flash_step page_cur pages_done].
      destruct (skipn_four (Z.to_nat (y * 4)) xpage) as (b0 & b1 & b2 & b3 & tl & E);
        [lia |].
      rewrite E.
      assert (Hin : Forall is_byte (b0 :: b1 :: b2 :: b3 :: tl)).
      { rewrite <- E. apply Forall_forall. intros x Hx.
        rewrite Forall_forall in Hbytes. apply Hbytes.
        rewrite <- (firstn_skipn (Z.to_nat (y * 4)) xpage).
        apply in_or_app. right. exact Hx. }
      inversion Hin as [| ? ? B0 Hin1]; subst.
      inversion Hin1 as [| ? ? B1 Hin2]; subst.
      inversion Hin2 as [| ? ? B2 Hin3]; subst.
      inversion Hin3 as [| ? ? B3 _]; subst.
      change (bytes_word (b0 :: b1 :: b2 :: b3 :: tl))
        with (bytes_word [b0; b1; b2; b3]).
      rewrite bswap_32_bytes by assumption.
      cbn [rev app]. f_equal. f_equal. f_equal.
      rewrite <- app_assoc. f_equal.
      replace (Z.to_nat (4 * (y + 1))) with (Z.to_nat (y * 4) + 4)%nat by lia.
      rewrite firstn_add_skipn, E.
      replace (Z.to_nat (4 * y)) with (Z.to_nat (y * 4)) by lia.
      reflexivity.
    + apply emits_ret. rewrite app_nil_r. intros done a bs.
      rewrite Hacc.
      assert (y = 64) by lia. subst y.
      rewrite firstn_all2 by (rewrite Hlen; lia). reflexivity.
  - split; [lia |]. intros done a bs. simpl. rewrite app_nil_r. reflexivity.
  - change (Pos.to_nat 65) with 65%nat. lia.
Qed.

Lemma length_memcpy dst src n :
  (n <= List.length dst)%nat -> List.length (memcpy dst src n) = List.length dst.
Proof.
  intros H. unfold memcpy.
  rewrite length_app, length_map, length_seq, length_skipn. lia.
Qed.

Lemma nth_memcpy dst src n i d :
  nth i (memcpy dst src n) d
  = if (i <? n)%nat then nth i src 0 else nth i dst d.
Proof.
  unfold memcpy.
  destruct (Nat.ltb_spec i n) as [Hlt | Hge].
  - rewrite app_nth1 by (rewrite length_map, length_seq; exact Hlt).
    rewrite (nth_indep _ d (nth 0%nat src 0))
      by (rewrite length_map, length_seq; exact Hlt).
    rewrite (map_nth (fun i => nth i src 0) (seq 0 n) 0%nat i).
    rewrite seq_nth by exact Hlt. reflexivity.
  - rewrite app_nth2 by (rewrite length_map, length_seq; exact Hge).
    rewrite length_map, length_seq, nth_skipn.
    f_equal. lia.
Qed.

(** The page buffer that round [k] sends is the page of the specification,
    whatever the buffer held before. *)
Lemma page_buffer_content page data nbytes (k : nat) xpage :
  List.length xpage = 256%nat ->
  256 * Z.of_nat k < nbytes ->
  let off := 256 * Z.of_nat k in
  let xl := if nbytes - off <? 256 then (memset 256 0xff, nbytes - off)
            else (xpage, 256) in
  let xp1 := memcpy (fst xl) (skipn (Z.to_nat off) data) (Z.to_nat (snd xl)) in
  (if negb (flash_page_addr page (Z.of_nat k) =? 0) then xp1
   else memcpy xp1 pat 4)
  = flash_page_content data nbytes page (Z.of_nat k).
Proof.
  intros Hlen Hoff off xl xp1.
  assert (Hxl : List.length (fst xl) = 256%nat /\
                (Z.to_nat (snd xl) <= 256)%nat).
  { subst xl. destruct (Z.ltb_spec (nbytes - off) 256); cbn [fst snd].
    - split; [apply repeat_length | lia].
    - split; [exact Hlen | lia]. }
  destruct Hxl as [Hl1 Hl2].
  assert (Hxp1 : List.length xp1 = 256%nat)
    by (subst xp1; rewrite length_memcpy; lia).
  apply (nth_ext _ _ 0 0).
  - unfold flash_page_content. rewrite length_map, length_seq.
    destruct (negb _); [exact Hxp1 |].
    rewrite length_memcpy; [exact Hxp1 | rewrite Hxp1; lia].
  - intros i Hi.
    assert (Hi' : (i < 256)%nat).
    { destruct (negb _); [lia |].
      rewrite length_memcpy in Hi; [lia | rewrite Hxp1; lia]. }
    clear Hi.
    unfold flash_page_content.
    rewrite (nth_indep (map _ (seq 0 256)) 0
               (flash_page_byte data nbytes page (Z.of_nat k) (Z.of_nat 0)))
      by (rewrite length_map, length_seq; exact Hi').
    rewrite (map_nth (fun i => flash_page_byte data nbytes page (Z.of_nat k)
                                 (Z.of_nat i)) (seq 0 256) 0%nat i).
    rewrite seq_nth by exact Hi'. cbn [Nat.add].
    unfold flash_page_byte. rewrite Nat2Z.id.
    assert (Hxp1i :
      nth i xp1 0
      = if 256 * Z.of_nat k + Z.of_nat i <? nbytes
        then nth (Z.to_nat (256 * Z.of_nat k + Z.of_nat i)) data 0
        else 0xff).
    { subst xp1. rewrite nth_memcpy, nth_skipn.
      subst xl off.
      destruct (Z.ltb_spec (nbytes - 256 * Z.of_nat k) 256) as [Hs | Hs];
        cbn [fst snd].
      - destruct (Nat.ltb_spec i (Z.to_nat (nbytes - 256 * Z.of_nat k)));
          destruct (Z.ltb_spec (256 * Z.of_nat k + Z.of_nat i) nbytes);
          try lia.
        + f_equal. lia.
        + unfold memset. apply nth_repeat_lt. exact Hi'.
      - destruct (Nat.ltb_spec i (Z.to_nat 256));
          destruct (Z.ltb_spec (256 * Z.of_nat k + Z.of_nat i) nbytes);
          try lia.
        f_equal. lia. }
    destruct (flash_page_addr page (Z.of_nat k) =? 0); cbn [negb andb].
    + rewrite nth_memcpy.
      destruct (Nat.ltb_spec i 4); destruct (Z.ltb_spec (Z.of_nat i) 4);
        first [lia | reflexivity | exact Hxp1i].
    + exact Hxp1i.
Qed.

Lemma nth_is_byte l n : Forall is_byte l -> is_byte (nth n l 0).
Proof.
  intros H. destruct (nth_in_or_default n l 0) as [Hin | ->].
  - rewrite Forall_forall in H. apply H, Hin.
  - unfold is_byte. lia.
Qed.

Lemma flash_page_content_bytes data nbytes page k :
  Forall is_byte data -> Forall is_byte (flash_page_content data nbytes page k).
Proof.
  intros Hd. unfold flash_page_content. apply Forall_forall.
  intros x Hx. apply in_map_iff in Hx. destruct Hx as (i & <- & _).
  unfold flash_page_byte.
  destruct (_ && _).
  - apply nth_is_byte. unfold pat, is_byte. repeat constructor; simpl; lia.
  - destruct (_ <? _); [apply nth_is_byte, Hd | unfold is_byte; lia].
Qed.

Lemma flash_page_content_length data nbytes page k :
  List.length (flash_page_content data nbytes page k) = 256%nat.
Proof. unfold flash_page_content. rewrite length_map, length_seq. reflexivity. Qed.

Lemma flash_pages_upto_S data nbytes page n :
  flash_pages_upto data nbytes page (S n)
  = flash_pages_upto data nbytes page n
    ++ [(flash_page_addr page (Z.of_nat n),
         flash_page_content data nbytes page (Z.of_nat n))].
Proof.
  unfold flash_pages_upto. rewrite seq_S, map_app. reflexivity.
Qed.

Lemma emits_ret_eq {A} (a : A) :
  emits (ret a) (fun x ops => x = a /\ ops = []).
Proof. apply emits_ret. auto. Qed.

(** One round of the page loop: past the image it leaves the loop;
    otherwise it programs page [k] of the specification. *)
Lemma emits_writeFLASH_page page data nbytes (k : nat) xpage :
  Forall is_byte data ->
  List.length xpage = 256%nat ->
  emits (writeFLASH_page g page data nbytes (256 * Z.of_nat k, xpage))
    (fun r ops =>
       if 256 * Z.of_nat k <? nbytes then
         r = inl (256 * Z.of_nat k + 256,
                  flash_page_content data nbytes page (Z.of_nat k)) /\
         forall st,
           close_page (flash_run st ops)
           = close_page st
             ++ [(flash_page_addr page (Z.of_nat k),
                  flash_page_content data nbytes page (Z.of_nat k))]
       else r = inr tt /\ ops = []).
Proof.
  intros Hd Hlen. unfold writeFLASH_page.
  destruct (Z.ltb_spec (256 * Z.of_nat k) nbytes) as [Hlt | Hge];
    [| apply emits_ret; auto].
  pose proof (page_buffer_content page data nbytes k xpage Hlen Hlt) as Hc.
  cbv zeta in Hc.
  assert (Ha : u32 (Z.quot (256 * Z.of_nat k) 4 + page)
               = flash_page_addr page (Z.of_nat k)).
  { unfold flash_page_addr. f_equal.
    replace (256 * Z.of_nat k) with (64 * Z.of_nat k * 4) by lia.
    rewrite Z.quot_mul by lia. reflexivity. }
  rewrite Ha. clear Ha.
  set (content := flash_page_content data nbytes page (Z.of_nat k)) in *.
  set (addr := flash_page_addr page (Z.of_nat k)) in *.
  assert (Hcb : Forall is_byte content)
    by (apply flash_page_content_bytes, Hd).
  assert (Hcl : List.length content = 256%nat)
    by (apply flash_page_content_length).
  assert (Haddr : bytes_word (word_bytes addr) = addr).
  { apply bytes_word_word_bytes. subst addr. unfold flash_page_addr, u32.
    apply Z.mod_pos_bound. lia. }
  clearbody content addr.
  revert Hc.
  generalize (if nbytes - 256 * Z.of_nat k <? 256
              then (memset 256 0xff, nbytes - 256 * Z.of_nat k)
              else (xpage, 256)).
  intros [xp l] Hc. cbn [fst snd] in Hc. cbv beta iota zeta.
  eapply emits_bind with
    (P1 := fun x o => x = content /\
                      Forall (fun e => is_nonprog_event e = true) o).
  { destruct (negb (addr =? 0)).
    - ebind emits_sendClkUs. intros [] o (n & ->). apply emits_ret.
      split; [exact Hc | repeat constructor].
    - apply emits_ret. split; [exact Hc | constructor]. }
  intros x o0 (-> & N0). clear Hc.
  ebind emits_send_command. intros _ o1 (_ & ->).
  ebind emits_send_command. intros _ o2 (_ & ->).
  ebind emits_send_command. intros _ o3 (_ & ->).
  ebind emits_emit. intros [] o4 ->.
  ebind emits_sendClkUs. intros [] o5 (n5 & ->).
  eapply emits_bind; [apply emits_writeFLASH_words; assumption |].
  intros [] o6 H6.
  ebind emits_sendClkUs. intros [] o7 (n7 & ->).
  apply emits_ret. split; [reflexivity |].
  intros st.
  rewrite flash_run_app.
  set (st0 := flash_run st o0).
  assert (Hst0 : close_page st0 = close_page st)
    by (apply nonprog_events_keep_pages, N0).
  clearbody st0.
  cbn [app]. unfold flash_run at 1. cbn [fold_left flash_step].
  change (EF_PROGRAM =? EF_PROGRAM) with true.
  change (CONFIG_ENABLE =? EF_PROGRAM) with false.
  change (NOOP =? EF_PROGRAM) with false.
  cbn [page_cur pages_done close_page].
  change (fold_left flash_step ?l ?s) with (flash_run s l).
  rewrite flash_run_app, H6. cbn [app].
  unfold flash_run. cbn [fold_left flash_step close_page page_cur pages_done].
  unfold htole32. rewrite Haddr, Hst0. reflexivity.
Qed.

(** The page loop programs the pages of the specification, in order. *)
Lemma emits_writeFLASH_loop page data nbytes xpage0 :
  0 <= nbytes -> Forall is_byte data -> List.length xpage0 = 256%nat ->
  emits (loop (Z.to_pos (nbytes + 1)) (writeFLASH_page g page data nbytes)
              (0, xpage0))
    (fun _ ops =>
       forall st,
         close_page (flash_run st ops)
         = close_page st
           ++ flash_pages_upto data nbytes page
                (Z.to_nat ((nbytes + 255) / 256))).
Proof.
  intros Hn Hd Hlen0.
  apply emits_loop with
    (Inv := fun s acc =>
       exists k : nat,
         fst s = 256 * Z.of_nat k /\
         256 * Z.of_nat k < nbytes + 256 /\
         List.length (snd s) = 256%nat /\
         forall st,
           close_page (flash_run st acc)
           = close_page st ++ flash_pages_upto data nbytes page k)
    (mu := fun s => Z.to_nat (nbytes - fst s)).
  - intros [off xpage] acc (k & Hoff & Hk & Hlen & Hacc).
    cbn [fst snd] in *. subst off.
    eapply emits_weaken; [apply emits_writeFLASH_page; assumption |].
    intros r ops H.
    destruct (Z.ltb_spec (256 * Z.of_nat k) nbytes) as [Hlt | Hge].
    + destruct H as (-> & Hops). cbn [fst snd]. split; [| lia].
      exists (S k). split; [lia |]. split; [lia |].
      split; [apply flash_page_content_length |].
      intros st. rewrite flash_run_app, Hops, Hacc, flash_pages_upto_S.
      rewrite app_assoc. reflexivity.
    + destruct H as (-> & ->). rewrite app_nil_r. intros st.
      rewrite Hacc. f_equal. f_equal.
      assert (Z.of_nat k = (nbytes + 255) / 256)
        by (Z.div_mod_to_equations; lia).
      lia.
  - exists 0%nat. cbn [fst snd]. split; [reflexivity |]. split; [lia |].
    split; [exact Hlen0 |]. intros st. simpl. rewrite app_nil_r. reflexivity.
  - cbn [fst]. rewrite Z.sub_0_r. lia.
Qed.




End FlashWrite.






(** * Checksum verifier *)

Lemma land_low16 u : Z.land 0xffff u mod 2 ^ 16 = u mod 2 ^ 16.
Proof.
  rewrite Z.land_comm. change 0xffff with (Z.ones 16).
  rewrite Z.land_ones by lia. apply Z.mod_mod. lia.
Qed.

(** What [checkCRC] prints, from the user code read and the image. *)
Lemma checkCRC_run hw fs w :
  let rx := capture 4 (hw (reads w)) in
  let ucode := bytes_word rx in
  let matched :=
    (ucode mod 2 ^ 16 =? checksum fs)
    || match getHeaderVal fs "checkSum" with
       | Some hdr => negb (String.eqb hdr "") && (ucode =? strtol16 hdr)
       | None => false
       end in
  checkCRC hw fs w
  = Some (tt, mkWorld (target_device_id w) (S (reads w)) (clkfreq w)
                (trace w
                 ++ [ShiftIR READ_USERCODE 8; ToggleClk 5;
                     ShiftDR (word_bytes 0xffffffff) (Some rx) 32 None]
                 ++ (if matched then [PrintSuccess "CRC check: Success"]
                     else [PrintError "CRC check : FAIL";
                           Printf "Read: 0x%08x checksum: 0x%04x\n"
                                  [ucode; checksum fs]]))).
Proof.
  intros rx ucode matched.
  set (read := [ShiftIR READ_USERCODE 8; ToggleClk 5;
                ShiftDR (word_bytes 0xffffffff) (Some rx) 32 None]).
  assert (Hread : readUserCode hw w
                  = Some (ucode,
                          mkWorld (target_device_id w) (S (reads w)) (clkfreq w)
                                  (trace w ++ read))).
  { unfold readUserCode, readReg32, send_command, shiftIR, toggleClk,
      shiftDR_rx, emit, bind, ret, le32toh. cbn.
    rewrite <- !app_assoc. reflexivity. }
  unfold checkCRC, bind. rewrite Hread, land_low16. cbv zeta.
  subst matched.
  destruct (ucode mod 2 ^ 16 =? checksum fs); cbn [orb].
  - unfold emit. cbn. rewrite <- app_assoc. reflexivity.
  - destruct (getHeaderVal fs "checkSum") as [hdr |].
    + destruct (negb (String.eqb hdr "") && (ucode =? strtol16 hdr));
        unfold emit; cbn; rewrite <- !app_assoc; reflexivity.
    + unfold emit. cbn. rewrite <- !app_assoc. reflexivity.
Qed.

(** ** Hexadecimal text, as [strtol] reads it *)

Lemma hex_digit_hex_char upper d :
  0 <= d < 16 -> hex_digit (hex_char upper d) = Some d.
Proof.
  intros H.
  assert (E : d = 0 \/ d = 1 \/ d = 2 \/ d = 3 \/ d = 4 \/ d = 5 \/ d = 6
              \/ d = 7 \/ d = 8 \/ d = 9 \/ d = 10 \/ d = 11 \/ d = 12
              \/ d = 13 \/ d = 14 \/ d = 15) by lia.
  destruct upper;
    repeat (destruct E as [-> | E]; [reflexivity |]); subst d; reflexivity.
Qed.

Lemma hex_char_plain upper d :
  0 <= d < 16 ->
  let c := hex_char upper d in
  is_space c = false /\ Ascii.eqb c "-" = false /\ Ascii.eqb c "+" = false
  /\ Ascii.eqb c "x" = false /\ Ascii.eqb c "X" = false.
Proof.
  intros H.
  assert (E : d = 0 \/ d = 1 \/ d = 2 \/ d = 3 \/ d = 4 \/ d = 5 \/ d = 6
              \/ d = 7 \/ d = 8 \/ d = 9 \/ d = 10 \/ d = 11 \/ d = 12
              \/ d = 13 \/ d = 14 \/ d = 15) by lia.
  destruct upper;
    repeat (destruct E as [-> | E]; [repeat split |]); subst d; repeat split.
Qed.

Lemma hex_digits_hex_text ds :
  Forall (fun x => 0 <= snd x < 16) ds ->
  forall a, hex_digits (Some a) (hex_text ds)
            = Some (fold_left (fun a x => 16 * a + snd x) ds a).
Proof.
  induction 1 as [| [u d] t Hd _ IH]; intros a; [reflexivity |].
  cbn [hex_text hex_digits fold_left snd].
  rewrite hex_digit_hex_char by exact Hd. apply IH.
Qed.

Lemma hex_digits_hex_text_first ds :
  ds <> [] -> Forall (fun x => 0 <= snd x < 16) ds ->
  hex_digits None (hex_text ds) = Some (hex_value ds).
Proof.
  intros Hne H. destruct H as [| [u d] t Hd Ht]; [congruence |].
  cbn [hex_text hex_digits]. rewrite hex_digit_hex_char by exact Hd.
  apply hex_digits_hex_text, Ht.
Qed.

(** [strip_0x] without its nested patterns. *)
Lemma strip_0x_eq s :
  strip_0x s
  = match s with
    | String c (String x (String d s')) =>
        if Ascii.eqb c "0" && (Ascii.eqb x "x" || Ascii.eqb x "X")
           && match hex_digit d with Some _ => true | None => false end
        then String d s' else s
    | _ => s
    end.
Proof.
  destruct s as [| c [| x [| d s']]]; try reflexivity;
    destruct c as [[] [] [] [] [] [] [] []]; reflexivity.
Qed.

Lemma strip_0x_hex_text ds :
  Forall (fun x => 0 <= snd x < 16) ds ->
  strip_0x (hex_text ds) = hex_text ds.
Proof.
  intros H. rewrite strip_0x_eq.
  destruct H as [| [u1 d1] t H1 Ht]; [reflexivity |].
  destruct Ht as [| [u2 d2] t H2 Ht]; [reflexivity |].
  destruct Ht as [| [u3 d3] t H3 Ht]; [reflexivity |].
  cbn [hex_text].
  destruct (hex_char_plain u2 d2 H2) as (_ & _ & _ & -> & ->).
  rewrite andb_false_r. reflexivity.
Qed.

(** A text that starts with no sign is read as positive, from its start. *)
Lemma sign_plain c s :
  Ascii.eqb c "-" = false -> Ascii.eqb c "+" = false ->
  match String c s with
  | String "-" s' => (true, s')
  | String "+" s' => (false, s')
  | _ => (false, String c s)
  end = (false, String c s).
Proof.
  destruct c as [[] [] [] [] [] [] [] []]; intros Hm Hp;
    try reflexivity; discriminate.
Qed.

Lemma parse_hex_plain c s :
  is_space c = false -> Ascii.eqb c "-" = false -> Ascii.eqb c "+" = false ->
  parse_hex (String c s) = (false, hex_digits None (strip_0x (String c s))).
Proof.
  intros Hsp Hm Hp. unfold parse_hex. cbn [skip_spaces]. rewrite Hsp.
  cbv zeta. rewrite sign_plain by assumption. reflexivity.
Qed.

Lemma parse_hex_0x x c s d :
  Ascii.eqb x "x" || Ascii.eqb x "X" = true ->
  hex_digit c = Some d ->
  parse_hex (String "0" (String x (String c s)))
  = (false, hex_digits None (String c s)).
Proof.
  intros Hx Hc. rewrite parse_hex_plain by reflexivity.
  rewrite strip_0x_eq, Hx, Hc. reflexivity.
Qed.

(** [strtol] in base 16 on hexadecimal text, with or without the [0x]:
    the number written, held down to [LONG_MAX]. *)
Lemma strtol16_hex_text pfx ds :
  In pfx [""; "0x"; "0X"]%string ->
  ds <> [] -> Forall (fun x => 0 <= snd x < 16) ds ->
  strtol16 (pfx ++ hex_text ds) = Z.min (hex_value ds) LONG_MAX.
Proof.
  intros Hpfx Hne H.
  pose proof (hex_digits_hex_text_first ds Hne H) as Hv.
  pose proof (strip_0x_hex_text ds H) as Hs.
  destruct H as [| [u d] t Hd Ht]; [congruence |].
  cbn [hex_text] in *.
  destruct (hex_char_plain u d Hd) as (Hsp & Hm & Hp & _).
  unfold strtol16.
  destruct Hpfx as [<- | [<- | [<- | []]]].
  - change ("" ++ String (hex_char u d) (hex_text t))%string
      with (String (hex_char u d) (hex_text t)).
    rewrite parse_hex_plain, Hs, Hv by assumption. reflexivity.
  - change ("0x" ++ String (hex_char u d) (hex_text t))%string
      with (String "0" (String "x" (String (hex_char u d) (hex_text t)))).
    rewrite (parse_hex_0x _ _ _ d), Hv;
      [reflexivity | reflexivity | apply hex_digit_hex_char, Hd].
  - change ("0X" ++ String (hex_char u d) (hex_text t))%string
      with (String "0" (String "X" (String (hex_char u d) (hex_text t)))).
    rewrite (parse_hex_0x _ _ _ d), Hv;
      [reflexivity | reflexivity | apply hex_digit_hex_char, Hd].
Qed.

(** What [strtol] makes of other texts: white space and a sign are read,
    the digits end at the first character that is none, no digit gives 0,
    and the value is held within [long]. *)
Lemma strtol16_samples :
  strtol16 "1A2b" = 0x1A2B /\ strtol16 "0X1a2B" = 0x1A2B /\
  strtol16 "  +7f" = 0x7F /\ strtol16 "-0x10" = -16 /\
  strtol16 "12g4" = 0x12 /\ strtol16 "0x" = 0 /\ strtol16 "xyz" = 0 /\
  strtol16 "FFFFFFFFFFFFFFFFFFFF" = LONG_MAX /\
  strtol16 "-FFFFFFFFFFFFFFFFFFFF" = LONG_MIN.
Proof. repeat split. Qed.

Lemma bytes_word_range l : 0 <= bytes_word l < 2 ^ 32.
Proof.
  unfold bytes_word, u8. rewrite !Z.shiftl_mul_pow2 by lia.
  pose proof (Z.mod_pos_bound (nth 0 l 0) 256).
  pose proof (Z.mod_pos_bound (nth 1 l 0) 256).
  pose proof (Z.mod_pos_bound (nth 2 l 0) 256).
  pose proof (Z.mod_pos_bound (nth 3 l 0) 256).
  change (2 ^ 8) with 256. change (2 ^ 16) with 65536.
  change (2 ^ 24) with 16777216. change (2 ^ 32) with 4294967296.
  lia.
Qed.

(** C6. [checkCRC] returns from every world without an error. It reads the
    user-code register and sends nothing else to the device (nothing is
    erased or rewritten); after the read it prints one of two reports.
    The report is the success line when the low 16 bits of the user code
    equal the image's checksum taken to 16 bits or, failing that, when the
    header holds a non-empty [checkSum] field whose value, as [strtol]
    reads it in base 16, equals the full 32-bit user code; otherwise it is
    the CRC failure with both values. In particular: when the field is
    hexadecimal text, with or without [0x] and in either case of letters,
    success means the 16-bit match or that the user code is the number the
    text writes; when the field is missing or empty, success means the
    16-bit match. *)
Theorem checkCRC_verdict hw fs w :
  exists w' rx report,
    checkCRC hw fs w = Some (tt, w') /\
    rx = capture 4 (hw (reads w)) /\
    trace w' =
    trace w
    ++ [ShiftIR READ_USERCODE 8; ToggleClk 5;
        ShiftDR (word_bytes 0xffffffff) (Some rx) 32 None]
    ++ report /\
    let ucode := bytes_word rx in
    let sum16 := img_checksum fs mod 2 ^ 16 in
    let matched :=
      (ucode mod 2 ^ 16 =? sum16)
      || match getHeaderVal fs "checkSum" with
         | Some hdr => negb (String.eqb hdr "") && (ucode =? strtol16 hdr)
         | None => false
         end in
    report = (if matched then crc_success else crc_failure ucode sum16) /\
    (forall pfx ds,
       In pfx [""; "0x"; "0X"]%string ->
       ds <> [] -> Forall (fun x => 0 <= snd x < 16) ds ->
       getHeaderVal fs "checkSum" = Some (pfx ++ hex_text ds)%string ->
       (report = crc_success <->
        ucode mod 2 ^ 16 = sum16 \/ ucode = hex_value ds)) /\
    (getHeaderVal fs "checkSum" = None
     \/ getHeaderVal fs "checkSum" = Some ""%string ->
     (report = crc_success <-> ucode mod 2 ^ 16 = sum16)).
Proof.
  eexists _, _, _. split; [apply checkCRC_run |]. split; [reflexivity |].
  split; [reflexivity |].
  cbv zeta.
  set (ucode := bytes_word (capture 4 (hw (reads w)))).
  change (checksum fs) with (img_checksum fs mod 2 ^ 16).
  set (sum16 := img_checksum fs mod 2 ^ 16).
  assert (Hu : 0 <= ucode < 2 ^ 32) by apply bytes_word_range.
  assert (Hrep : forall b : bool,
            (if b then crc_success else crc_failure ucode sum16) = crc_success
            <-> b = true).
  { intros []; split; intros E; try reflexivity; discriminate. }
  split; [reflexivity |]. split.
  - intros pfx ds Hpfx Hne Hds Hhdr. rewrite Hrep, Hhdr.
    assert (Hnonempty : String.eqb (pfx ++ hex_text ds) "" = false).
    { destruct Hds as [| [u d] t]; [congruence |].
      destruct Hpfx as [<- | [<- | [<- | []]]]; reflexivity. }
    rewrite Hnonempty, strtol16_hex_text by assumption. cbn [negb andb].
    rewrite orb_true_iff, !Z.eqb_eq.
    assert (Hmax : 2 ^ 32 <= LONG_MAX) by (unfold LONG_MAX; lia).
    split; (intros [E | E]; [left; exact E | right; lia]).
  - intros Hhdr. rewrite Hrep.
    destruct Hhdr as [-> | ->]; cbn [String.eqb negb andb];
      rewrite orb_false_r; apply Z.eqb_eq.
Qed.

Lemma checkCRC_verdict_witness :
  exists w' report,
    checkCRC (hw_const 0x1A2B3C4D) fs_usercode (world0 0) = Some (tt, w') /\
    trace w'
    = [ShiftIR READ_USERCODE 8; ToggleClk 5;
       ShiftDR (word_bytes 0xffffffff) (Some (word_bytes 0x1A2B3C4D)) 32 None]
      ++ report /\
    report = crc_success.
Proof.
  destruct (checkCRC_verdict (hw_const 0x1A2B3C4D) fs_usercode (world0 0))
    as (w' & rx & report & Hrun & Hrx & Ht & _ & Hhex & _).
  exists w', report. split; [exact Hrun |].
  split; [rewrite Ht, Hrx; reflexivity |].
  apply (Hhex "0x"%string
              [(false, 1); (true, 10); (false, 2); (true, 11);
               (false, 3); (false, 12); (false, 4); (false, 13)]).
  - right. left. reflexivity.
  - discriminate.
  - repeat constructor; cbn; lia.
  - reflexivity.
  - right. rewrite Hrx. reflexivity.
Defined.

(** * Top level: internal flash *)

Section ProgramFlash.

Variable hw : nat -> list Z.
Variable g : Gowin.
Variable uninit : nat -> Z.

Lemma total_checkCRC fs : emits (checkCRC hw fs) (fun _ _ => True).
Proof.
  intros w. eexists _, _. split; [apply checkCRC_run |].
  eexists. split; [reflexivity | exact I].
Qed.

Lemma total_writeFLASH_words xpage :
  emits (loop 65 (writeFLASH_word g xpage) 0) (fun _ _ => True).
Proof.
  apply emits_loop with (Inv := fun y _ => 0 <= y)
                        (mu := fun y => Z.to_nat (64 - y)).
  - intros y acc Hy. unfold writeFLASH_word.
    destruct (Z.ltb_spec y 64).
    + ebind emits_emit. intros [] o1 _.
      ebind emits_sendClkUs. intros [] o2 _.
      apply emits_ret. split; lia.
    + apply emits_ret. exact I.
  - lia.
  - change (Pos.to_nat 65) with 65%nat. lia.
Qed.

Lemma total_writeFLASH_page page data nbytes off xpage :
  emits (writeFLASH_page g page data nbytes (off, xpage)) (fun r _ =>
    match r with
    | inl (off', _) => off < nbytes /\ off' = off + 256
    | inr _ => True
    end).
Proof.
  unfold writeFLASH_page.
  destruct (Z.ltb_spec off nbytes) as [Hlt | Hge]; [| apply emits_ret; exact I].
  generalize (if nbytes - off <? 256 then (memset 256 0xff, nbytes - off)
              else (xpage, 256)).
  intros [xp l]. cbv beta iota zeta.
  eapply emits_bind with (P1 := fun _ _ => True).
  { destruct (negb _).
    - ebind emits_sendClkUs. intros [] o _. apply emits_ret. exact I.
    - apply emits_ret. exact I. }
  intros x o0 _.
  ebind emits_send_command. intros _ o1 _.
  ebind emits_send_command. intros _ o2 _.
  ebind emits_send_command. intros _ o3 _.
  ebind emits_emit. intros [] o4 _.
  ebind emits_sendClkUs. intros [] o5 _.
  ebind total_writeFLASH_words. intros [] o6 _.
  ebind emits_sendClkUs. intros [] o7 _.
  apply emits_ret. split; [exact Hlt | reflexivity].
Qed.

(** [writeFLASH] returns on every input. *)
Lemma total_writeFLASH page data length :
  emits (writeFLASH hw g uninit page data length) (fun _ _ => True).
Proof.
  unfold writeFLASH.
  ebind emits_emit. intros [] o1 _.
  ebind emits_verbose_dump. intros [] o2 _.
  eapply emits_bind with (P1 := fun _ _ => True).
  { apply emits_loop with
      (Inv := fun _ _ => True)
      (mu := fun s => Z.to_nat (Z.quot length 8 - fst s)).
    - intros [off xpage] acc _.
      eapply emits_weaken; [apply total_writeFLASH_page |].
      intros [[off' xp'] | []] ops H; [| exact I].
      cbn [fst]. split; [exact I | lia].
    - exact I.
    - cbn [fst].
      destruct (Z.quot length 8) as [| p | p]; simpl; lia. }
  intros [] o3 _.
  ebind emits_disableCfg. intros ok o4 _.
  destruct ok; cbn [negb].
  2:{ ebind emits_emit. intros [] o5 _. apply emits_ret. exact I. }
  ebind emits_verbose_dump. intros [] o5 _.
  ebind emits_send_command. intros _ o6 _.
  ebind emits_send_command. intros _ o7 _.
  ebind emits_verbose_dump. intros [] o8 _.
  ebind emits_emit. intros [] o9 _.
  ebind emits_emit. intros [] o10 _.
  ebind emits_verbose_dump. intros [] o11 _.
  eapply emits_weaken.
  { apply emits_final_read with (on_set := true)
      (e1 := PrintSuccess "DONE") (e2 := PrintSuccess "FAIL");
      try reflexivity; discriminate. }
  intros r o12 _. exact I.
Qed.

(** What follows the status check of [programFlash] when the device is
    ready always returns. *)
Lemma total_programFlash_rest fs :
  emits (ok <- eraseFLASH hw g ;;
         if negb ok then ret tt
         else
           ok <- writeFLASH hw g uninit 0 (img_data fs) (img_length fs) ;;
           if negb ok then ret tt
           else
             ok <- match _mcufw g with
                   | Some mcu =>
                       writeFLASH hw g uninit 0x380 (img_data mcu)
                                  (img_length mcu)
                   | None => ret true
                   end ;;
             if negb ok then ret tt
             else
               when (_verify g)
                    (emit (PrintWarn "writing verification not supported")) ;;
               when (negb (skip_checksum g)) (checkCRC hw fs) ;;
               when (_verbose g)
                    (st <- readStatusReg hw ;;
                     displayReadReg "after program flash" st))
        (fun _ _ => True).
Proof.
  ebind emits_eraseFLASH. intros ok o1 _.
  destruct ok; cbn [negb]; [| apply emits_ret; exact I].
  ebind total_writeFLASH. intros ok o2 _.
  destruct ok; cbn [negb]; [| apply emits_ret; exact I].
  eapply emits_bind with (P1 := fun _ _ => True).
  { destruct (_mcufw g); [apply total_writeFLASH | apply emits_ret; exact I]. }
  intros ok o3 _.
  destruct ok; cbn [negb]; [| apply emits_ret; exact I].
  eapply emits_bind with (P1 := fun _ _ => True).
  { destruct (_verify g); simpl;
      [eapply emits_weaken; [apply emits_emit | auto]
      | apply emits_ret; exact I]. }
  intros [] o4 _.
  eapply emits_bind with (P1 := fun _ _ => True).
  { destruct (negb (skip_checksum g)); simpl;
      [apply total_checkCRC | apply emits_ret; exact I]. }
  intros [] o5 _.
  eapply emits_weaken; [apply emits_verbose_dump | auto].
Qed.

End ProgramFlash.

(** C10. [programFlash] returns from every world. What it sends first is
    fixed: the clock setting, the config-disable command and command 0, the
    move of the TAP to test-logic-reset and one read of the status register;
    no erase or program command is among these. When that read shows
    neither the Gowin-VLD bit nor the POR bit, all that follows is the
    console message: nothing more is sent to the device. *)
Theorem programFlash_status_gate hw g uninit fs w :
  exists w' rx rest,
    programFlash hw g uninit fs w = Some (tt, w') /\
    rx = capture 4 (hw (reads w)) /\
    trace w' =
    trace w
    ++ [SetClkFreq 2500000; ShiftIR CONFIG_DISABLE 8; ToggleClk 5;
        ShiftIR 0 8; ToggleClk 5; SetState TEST_LOGIC_RESET;
        ShiftIR STATUS_REGISTER 8; ToggleClk 5;
        ShiftDR (word_bytes 0xffffffff) (Some rx) 32 None]
    ++ rest /\
    (Z.land (bytes_word rx) (Z.lor STATUS_GOWIN_VLD STATUS_POR) = 0 ->
     rest = [DisplayReadReg "Either GOWIN_VLD or POR should be set, aborting"
                            (bytes_word rx)]).
Proof.
  set (rx := capture 4 (hw (reads w))).
  set (pre := [SetClkFreq 2500000; ShiftIR CONFIG_DISABLE 8; ToggleClk 5;
               ShiftIR 0 8; ToggleClk 5; SetState TEST_LOGIC_RESET;
               ShiftIR STATUS_REGISTER 8; ToggleClk 5;
               ShiftDR (word_bytes 0xffffffff) (Some rx) 32 None]).
  set (w1 := mkWorld (target_device_id w) (S (reads w)) 2500000
                     (trace w ++ pre)).
  unfold programFlash.
  set (rest := fun ok : bool => if negb ok then ret tt else _).
  assert (Hpre : forall (k : Z -> M unit),
            (setClkFreq 2500000 ;;
             send_command CONFIG_DISABLE ;;
             send_command 0 ;;
             set_state TEST_LOGIC_RESET ;;
             state <- readStatusReg hw ;;
             k state) w
            = k (bytes_word rx) w1).
  { intros k. unfold bind, setClkFreq, send_command, set_state, readStatusReg,
      readReg32, shiftIR, toggleClk, shiftDR_rx, emit, bind, ret, le32toh.
    cbn. subst w1 pre. cbn. rewrite <- !app_assoc. reflexivity. }
  rewrite Hpre. clear Hpre.
  destruct (Z.eqb_spec (Z.land (bytes_word rx)
                               (Z.lor STATUS_GOWIN_VLD STATUS_POR)) 0)
    as [Hz | Hnz].
  - eexists _, rx, [_]. split; [reflexivity |]. split; [reflexivity |].
    split; [| intros _; reflexivity].
    subst w1. cbn [trace]. rewrite <- app_assoc. reflexivity.
  - destruct (total_programFlash_rest hw g uninit fs w1)
      as ([] & w' & Hrun & ops & Ht & _).
    exists w', rx, ops. split; [exact Hrun |]. split; [reflexivity |].
    split; [| intros H; contradiction].
    rewrite Ht. subst w1. cbn [trace]. rewrite <- app_assoc. reflexivity.
Qed.

(** * Construction and the idcode of the image *)

(** C7, as amended. For a structured image that parses and whose header
    holds a hexadecimal idcode, the constructor returns after console output
    only (nothing is sent to the device). It fails with the idcode-mismatch
    error exactly when the declared idcode, its top four bits cleared,
    differs from the detected idcode; when the two agree and no
    microcontroller firmware is given, it yields a session that holds the
    image. *)
Theorem Gowin_ctor_idcode_check p idcode_str v mcufw open_mcufw prg_type
    external_flash verify verbose quiet skip_checksum0 w :
  parse_ok p = true ->
  getHeaderVal (parsed p) "idcode" = Some idcode_str ->
  stoul16 idcode_str = StoulValue v ->
  exists res w' ops,
    Gowin_ctor "fs" (Some p) mcufw open_mcufw prg_type external_flash verify
               verbose quiet skip_checksum0 w
    = Some (res, w') /\
    trace w' = trace w ++ ops /\
    Forall (fun e => is_console e = true) ops /\
    (res = inl (IdcodeMismatch (u32 v) (target_device_id w)) <->
     Z.land (u32 v) 0x0fffffff <> target_device_id w) /\
    (Z.land (u32 v) 0x0fffffff = target_device_id w -> mcufw = ""%string ->
     exists g, res = inr g /\ _fs g = Some (parsed p)).
Proof.
  intros Hparse Hhdr Hstoul.
  unfold Gowin_ctor, Gowin_open, bindX, liftX, bind, get_target_device_id,
    throw, ret, when, emit.
  cbn [String.eqb Ascii.eqb Bool.eqb negb].
  rewrite Hparse. cbn [negb]. rewrite Hhdr, Hstoul.
  destruct (Z.eqb_spec (Z.land (u32 v) 0x0fffffff) (target_device_id w))
    as [Heq | Hne]; cbn [negb].
  - destruct (String.eqb_spec mcufw "") as [Hm | Hm];
      (destruct open_mcufw as [q |]; [destruct (parse_ok q) |]);
      destruct verbose; cbn;
      repeat match goal with
             | |- context [if ?c then _ else _] => destruct c eqn:?
             end;
      eexists _, _, _; (split; [reflexivity |]); cbn [trace];
      rewrite <- ?app_assoc;
      (split; [reflexivity |]); (split; [repeat constructor |]);
      (split; [split; [discriminate | intros H; contradiction] |]);
      intros _ Hm'; try contradiction;
      eexists; split; reflexivity.
  - destruct verbose; cbn;
      eexists _, _, _; (split; [reflexivity |]); cbn [trace];
      rewrite <- ?app_assoc;
      (split; [reflexivity |]); (split; [repeat constructor |]);
      (split; [split; [intros _; exact Hne | reflexivity] |]);
      intros H; contradiction.
Qed.

Lemma Gowin_ctor_idcode_check_witness :
  exists res w' ops,
    Gowin_ctor "fs" (Some (fs_declaring "0x12345678")) "" None WR_FLASH false
               false false false false (world0 0x0900281B)
    = Some (res, w') /\
    trace w' = trace (world0 0x0900281B) ++ ops /\
    Forall (fun e => is_console e = true) ops /\
    (res = inl (IdcodeMismatch (u32 0x12345678)
                  (target_device_id (world0 0x0900281B))) <->
     Z.land (u32 0x12345678) 0x0fffffff <> target_device_id (world0 0x0900281B))
    /\
    (Z.land (u32 0x12345678) 0x0fffffff = target_device_id (world0 0x0900281B) ->
     ""%string = ""%string ->
     exists g, res = inr g /\ _fs g = Some (parsed (fs_declaring "0x12345678"))).
Proof.
  apply (Gowin_ctor_idcode_check (fs_declaring "0x12345678") "0x12345678"
           0x12345678 "" None WR_FLASH false false false false false
           (world0 0x0900281B)); reflexivity.
Defined.

(** C7, the claim as stated fails in both directions: an image that
    declares idcode 0x1900281B does not match a device whose idcode is
    0x0900281B, and construction succeeds all the same; and with a detected
    idcode of 0x1900281B the same image, whose idcode now matches, is turned
    down with the idcode-mismatch error. The top four bits of the declared
    idcode are cleared before the comparison, those of the detected idcode
    are not. *)
Lemma Gowin_ctor_ignores_version_bits :
  stoul16 "0x1900281B" = StoulValue 0x1900281B /\
  0x1900281B <> 0x0900281B /\
  (exists g w',
     Gowin_ctor "fs" (Some (fs_declaring "0x1900281B")) "" None WR_FLASH false
                false false false false (world0 0x0900281B)
     = Some (inr g, w')) /\
  (exists w',
     Gowin_ctor "fs" (Some (fs_declaring "0x1900281B")) "" None WR_FLASH false
                false false false false (world0 0x1900281B)
     = Some (inl (IdcodeMismatch 0x1900281B 0x1900281B), w')).
Proof.
  split; [reflexivity |]. split; [lia |].
  split; [vm_compute; eexists _, _; reflexivity
         | vm_compute; eexists; reflexivity].
Qed.

(** * SPI over boundary scan: the local arrays of [spi_put] *)

(** C9, on the code: a call on the shift-register-assisted path with a
    one-byte transmit buffer and a receive buffer allocates both local
    arrays with one element, and then writes [jtx[1]] and reads [jrx[1]] and
    [jrx[2]]. *)
Theorem spi_put_gw2a_indexes_past_arrays :
  option_map (fun x => filter (fun e => negb (in_bounds e)) (trace (snd x)))
    (spi_put (hw_const 0) session_gw2a zero_junk (Some [0x9f]) (Some [0]) 1
             (world0 0x0000081b))
  = Some [Index Jtx 1 1; Index Jrx 1 1; Index Jrx 1 1; Index Jrx 2 1].
Proof. vm_compute. reflexivity. Qed.

(** * SPI over boundary scan: [spi_wait] *)

Section SpiWait.

Variable hw : nat -> list Z.
Variable g : Gowin.

(** The 32-bit counter reaches [timeout] exactly when the budget is used
    up. *)
Lemma count_meets_timeout timeout j :
  0 <= timeout < 2 ^ 32 -> 0 <= j <= spi_budget timeout - 1 ->
  (u32 (j + 1) = timeout <-> j + 1 = spi_budget timeout) /\
  (j + 1 <> spi_budget timeout -> u32 (j + 1) = j + 1).
Proof.
  unfold spi_budget, u32. intros Ht Hj.
  destruct (Z.eqb_spec timeout 0) as [-> | Hne].
  - split; [split; intros H |].
    + destruct (Z.eq_dec (j + 1) (2 ^ 32)) as [E | E]; [exact E |].
      rewrite Z.mod_small in H by lia. lia.
    + rewrite H. reflexivity.
    + intros H. apply Z.mod_small. lia.
  - split; [split; intros H |].
    + rewrite Z.mod_small in H by lia. exact H.
    + rewrite H. apply Z.mod_small. lia.
    + intros _. apply Z.mod_small. lia.
Qed.

(** The transfer that opens a poll on the shift-register-assisted path. *)
Lemma gw2a_poll_transfer {A} tx (k : list Z -> M A) w :
  (send_command 0x16 ;;
   set_state EXIT2_DR ;;
   rx <- shiftDR_rx hw tx (8 * 3) ;;
   k rx) w
  = k (capture 3 (hw (reads w)))
      (mkWorld (target_device_id w) (S (reads w)) (clkfreq w)
         (trace w ++ [ShiftIR 0x16 8; ToggleClk 5; SetState EXIT2_DR;
                      ShiftDR tx (Some (capture 3 (hw (reads w)))) (8 * 3)
                              None])).
Proof.
  unfold bind, send_command, set_state, shiftIR, toggleClk, shiftDR_rx, emit,
    bind, ret.
  cbn. rewrite <- !app_assoc. reflexivity.
Qed.

(** The poll loop of the shift-register-assisted path. *)
Lemma spi_wait_gw2a_loop tx mask cond timeout verbose w0 :
  0 <= timeout < 2 ^ 32 ->
  spec (loop SPI_WAIT_FUEL
             (spi_wait_gw2a_body hw tx mask cond timeout verbose) 0)
       w0
       (fun r w' =>
          (fst r = timeout /\
           (forall j, Z.of_nat j < spi_budget timeout - 1 ->
              Z.land (gw2a_response hw (reads w0 + j)) mask <> cond)
           \/
           fst r <> timeout /\
           exists j, Z.of_nat j < spi_budget timeout - 1 /\
             Z.land (gw2a_response hw (reads w0 + j)) mask = cond) /\
          exists pre tdo ops,
            trace w' = pre ++ [ShiftDR tx (Some tdo) (8 * 3) None] ++ ops /\
            Forall (fun e => is_console e = true) ops).
Proof.
  intros Ht.
  assert (HT : 1 <= spi_budget timeout <= 2 ^ 32)
    by (unfold spi_budget; destruct (Z.eqb_spec timeout 0); lia).
  apply spec_loop with
    (Inv := fun count w =>
       0 <= count <= spi_budget timeout - 1 /\
       reads w = (reads w0 + Z.to_nat count)%nat /\
       forall j, (j < Z.to_nat count)%nat ->
         Z.land (gw2a_response hw (reads w0 + j)) mask <> cond)
    (mu := fun count => Z.to_nat (spi_budget timeout - 1 - count)).
  - intros count w (Hc & Hr & Hno).
    destruct (count_meets_timeout timeout count Ht Hc) as [Hmeet Hsmall].
    unfold spi_wait_gw2a_body, spec. rewrite gw2a_poll_transfer.
    fold (gw2a_response hw (reads w)).
    set (tmp := gw2a_response hw (reads w)).
    set (w1 := mkWorld _ _ _ _).
    assert (Hw1 : reads w1 = S (reads w) /\
                  trace w1 = (trace w ++ [ShiftIR 0x16 8; ToggleClk 5;
                                          SetState EXIT2_DR])
                             ++ [ShiftDR tx (Some (capture 3 (hw (reads w))))
                                         (8 * 3) None] ++ []).
    { subst w1. cbn [reads trace]. split; [reflexivity |].
      rewrite <- app_assoc. reflexivity. }
    destruct Hw1 as [Hr1 Ht1]. clearbody w1.
    match goal with
    | |- exists a w', ?m w1 = Some (a, w') /\ @?Q a w' => change (spec m w1 Q)
    end.
    assert (Htmp : tmp = gw2a_response hw (reads w0 + Z.to_nat count))
      by (subst tmp; rewrite Hr; reflexivity).
    cbv zeta.
    destruct (Z.eqb_spec (u32 (count + 1)) timeout) as [Heq | Hne].
    + apply spec_bind, spec_emit, spec_ret. cbn [fst]. split.
      * left. split; [exact Heq |].
        intros j Hj. apply Hno. apply Hmeet in Heq. lia.
      * eexists _, _, [_]. cbn [trace]. split.
        -- rewrite Ht1, app_nil_r, <- app_assoc. reflexivity.
        -- repeat constructor.
    + assert (Hlt : count + 1 <= spi_budget timeout - 1).
      { destruct (Z.eq_dec (count + 1) (spi_budget timeout)) as [E | E];
          [apply Hmeet in E; contradiction | lia]. }
      assert (Hu : u32 (count + 1) = count + 1) by (apply Hsmall; lia).
      apply spec_bind.
      eapply spec_weaken with
        (P := fun _ w' =>
           reads w' = S (reads w) /\
           exists pre tdo ops,
             trace w' = pre ++ [ShiftDR tx (Some tdo) (8 * 3) None] ++ ops /\
             Forall (fun e => is_console e = true) ops).
      { apply spec_when; intros _.
        - apply spec_emit. cbn [reads trace]. split; [exact Hr1 |].
          eexists _, _, [_]. split.
          + rewrite Ht1, app_nil_r, <- app_assoc. reflexivity.
          + repeat constructor.
        - split; [exact Hr1 |].
          eexists _, _, []. split; [exact Ht1 | constructor]. }
      intros [] w2 (Hr2 & Htr2).
      destruct (Z.eqb_spec (Z.land tmp mask) cond) as [Hm | Hm]; cbn [negb];
        apply spec_ret.
      * cbn [fst]. split; [| exact Htr2].
        right. split; [exact Hne |].
        exists (Z.to_nat count). split; [lia |].
        rewrite <- Htmp. exact Hm.
      * rewrite Hu. split; [split; [lia | split] | lia].
        -- rewrite Hr2, Hr. lia.
        -- intros j Hj.
           destruct (Nat.eq_dec j (Z.to_nat count)) as [-> | Hj'].
           ++ rewrite <- Htmp. exact Hm.
           ++ apply Hno. lia.
  - split; [lia |]. split; [simpl; lia |]. intros j Hj. simpl in Hj. lia.
  - unfold SPI_WAIT_FUEL. lia.
Qed.

(** *** The bit-bang path *)

(** One bit of the read loop. *)
Lemma spi_wait_read_step i bm t tmp w :
  i < 8 ->
  let t1 := u8 (Z.land t (Z.lnot (_spi_sck g))) in
  let t2 := u8 (Z.lor t1 (_spi_sck g)) in
  let rx := capture 1 (hw (reads w)) in
  let tmp' := if negb (Z.land (nth 0 rx 0) (_spi_do g) =? 0)
              then u8 (Z.lor tmp bm) else tmp in
  spi_wait_read_body hw g (i, bm, t, tmp) w
  = Some (inl (u8 (i + 1), u8 (Z.shiftr bm 1), t2, tmp'),
          mkWorld (target_device_id w) (S (reads w)) (clkfreq w)
            (trace w ++ [ShiftDR [t1] None 8 None; ToggleClk 6;
                         ShiftDR [t2] (Some rx) 8 None; ToggleClk 6; Flush])).
Proof.
  intros Hi. cbv zeta. unfold spi_wait_read_body.
  rewrite (proj2 (Z.ltb_lt i 8) Hi).
  unfold bind, spi_gowin_write, shiftDR_tx, shiftDR_rx, toggleClk, flush, emit,
    bind, ret.
  cbn. rewrite <- !app_assoc. reflexivity.
Qed.

(** The read loop with [n] bits to go assembles what [legacy_bits] says
    from the next [n] captures. *)
Lemma spi_wait_read_bits n :
  forall i bm t tmp w,
    (n <= 8)%nat -> i = 8 - Z.of_nat n ->
    spec (iter_nat (spi_wait_read_body hw g) (S n) (i, bm, t, tmp)) w
      (fun r w' =>
         match r with
         | inl _ => False
         | inr (_, tmp') =>
             tmp' = legacy_bits g hw (reads w) n bm tmp /\
             reads w' = (reads w + n)%nat
         end).
Proof.
  induction n as [| n IH]; intros i bm t tmp w Hn Hi.
  - assert (i = 8) by lia. subst i.
    eexists _, _. split; [reflexivity |]. cbn. split; [reflexivity | lia].
  - change (iter_nat (spi_wait_read_body hw g) (S (S n)) (i, bm, t, tmp))
      with (r <- spi_wait_read_body hw g (i, bm, t, tmp) ;;
            match r with
            | inl s' => iter_nat (spi_wait_read_body hw g) (S n) s'
            | inr x => ret (inr x)
            end).
    unfold spec, bind. rewrite spi_wait_read_step by lia. cbv zeta.
    replace (u8 (i + 1)) with (i + 1)
      by (unfold u8; rewrite Z.mod_small; lia).
    destruct (IH (i + 1) (u8 (Z.shiftr bm 1))
                (u8 (Z.lor (u8 (Z.land t (Z.lnot (_spi_sck g)))) (_spi_sck g)))
                (if negb (Z.land (nth 0 (capture 1 (hw (reads w))) 0)
                                 (_spi_do g) =? 0)
                 then u8 (Z.lor tmp bm) else tmp)
                (mkWorld (target_device_id w) (S (reads w)) (clkfreq w)
                   (trace w ++ [ShiftDR [u8 (Z.land t (Z.lnot (_spi_sck g)))]
                                        None 8 None; ToggleClk 6;
                                ShiftDR [u8 (Z.lor (u8 (Z.land t (Z.lnot
                                           (_spi_sck g)))) (_spi_sck g))]
                                        (Some (capture 1 (hw (reads w)))) 8
                                        None; ToggleClk 6; Flush])))
      as ([s' | [t' tmp']] & w' & Hrun & H); [lia | lia | contradiction |].
    exists (inr (t', tmp')), w'. split; [exact Hrun |].
    destruct H as [Htmp Hreads]. cbn [reads] in *. split.
    + rewrite Htmp. reflexivity.
    + lia.
Qed.

Lemma spi_wait_read_loop t w :
  spec (loop 9 (spi_wait_read_body hw g) (0, 0x80, t, 0)) w
    (fun r w' =>
       snd r = legacy_response g hw (reads w) /\
       reads w' = (reads w + 8)%nat).
Proof.
  destruct (spi_wait_read_bits 8 0 0x80 t 0 w) as ([s' | [t' tmp']] & w' & Hrun & H);
    [lia | lia | contradiction |].
  exists (t', tmp'), w'. split; [| exact H].
  unfold loop, bind. rewrite loop_pos_iter_nat.
  change (Pos.to_nat 9) with 9%nat. rewrite Hrun. reflexivity.
Qed.

(** The poll loop of the bit-bang path. *)
Lemma spi_wait_legacy_loop mask cond timeout verbose t0 w0 :
  0 <= timeout < 2 ^ 32 ->
  spec (loop SPI_WAIT_FUEL
             (spi_wait_legacy_body hw g mask cond timeout verbose) (0, t0))
       w0
       (fun r w' =>
          let count := fst (fst r) in
          count = timeout /\
          (forall j, Z.of_nat j < spi_budget timeout - 1 ->
             Z.land (legacy_response g hw (reads w0 + 8 * j)) mask <> cond)
          \/
          count <> timeout /\
          exists j, Z.of_nat j < spi_budget timeout - 1 /\
            Z.land (legacy_response g hw (reads w0 + 8 * j)) mask = cond).
Proof.
  intros Ht.
  assert (HT : 1 <= spi_budget timeout <= 2 ^ 32)
    by (unfold spi_budget; destruct (Z.eqb_spec timeout 0); lia).
  apply spec_loop with
    (Inv := fun s w =>
       let count := fst s in
       0 <= count <= spi_budget timeout - 1 /\
       reads w = (reads w0 + 8 * Z.to_nat count)%nat /\
       forall j, (j < Z.to_nat count)%nat ->
         Z.land (legacy_response g hw (reads w0 + 8 * j)) mask <> cond)
    (mu := fun s => Z.to_nat (spi_budget timeout - 1 - fst s)).
  - intros [count t] w. cbn [fst]. intros (Hc & Hr & Hno).
    destruct (count_meets_timeout timeout count Ht Hc) as [Hmeet Hsmall].
    unfold spi_wait_legacy_body.
    apply spec_bind.
    eapply spec_weaken; [apply spi_wait_read_loop |].
    intros [t' tmp] w1. cbn [snd]. intros (Htmp & Hr1).
    assert (Htmp' : tmp = legacy_response g hw
                            (reads w0 + 8 * Z.to_nat count))
      by (rewrite Htmp, Hr; reflexivity).
    clear Htmp. cbv zeta.
    destruct (Z.eqb_spec (u32 (count + 1)) timeout) as [Heq | Hne].
    + apply spec_bind, spec_emit, spec_ret. cbn [fst].
      left. split; [exact Heq |].
      intros j Hj. apply Hno. apply Hmeet in Heq. lia.
    + assert (Hlt : count + 1 <= spi_budget timeout - 1).
      { destruct (Z.eq_dec (count + 1) (spi_budget timeout)) as [E | E];
          [apply Hmeet in E; contradiction | lia]. }
      assert (Hu : u32 (count + 1) = count + 1) by (apply Hsmall; lia).
      apply spec_bind.
      eapply spec_weaken with (P := fun _ w' => reads w' = reads w1).
      { apply spec_when; intros _; [apply spec_emit |]; reflexivity. }
      intros [] w2 Hr2.
      destruct (Z.eqb_spec (Z.land tmp mask) cond) as [Hm | Hm]; cbn [negb];
        apply spec_ret; cbn [fst].
      * right. split; [exact Hne |].
        exists (Z.to_nat count). split; [lia |].
        rewrite <- Htmp'. exact Hm.
      * rewrite Hu. split; [split; [lia | split] | lia].
        -- rewrite Hr2, Hr1, Hr. lia.
        -- intros j Hj.
           destruct (Nat.eq_dec j (Z.to_nat count)) as [-> | Hj'].
           ++ rewrite <- Htmp'. exact Hm.
           ++ apply Hno. lia.
  - cbn [fst]. split; [lia |]. split; [simpl; lia |].
    intros j Hj. simpl in Hj. lia.
  - cbn [fst]. unfold SPI_WAIT_FUEL. lia.
Qed.

(** Sending the command captures nothing. *)
Lemma spi_wait_cmd_loop cmd w :
  spec (loop 9 (spi_wait_cmd_body hw g cmd) (0, 0x80)) w
       (fun _ w' => reads w' = reads w).
Proof.
  apply spec_loop with
    (Inv := fun s w' => 0 <= fst s <= 8 /\ reads w' = reads w)
    (mu := fun s => Z.to_nat (8 - fst s)).
  - intros [i bm] w1. cbn [fst]. intros (Hi & Hr).
    unfold spi_wait_cmd_body.
    destruct (Z.ltb_spec i 8) as [Hlt | Hge].
    + eexists _, _. split; [reflexivity |]. cbn [fst reads].
      replace (u8 (i + 1)) with (i + 1)
        by (unfold u8; rewrite Z.mod_small; lia).
      split; [split; [lia | exact Hr] | lia].
    + apply spec_ret. exact Hr.
  - cbn [fst]. split; [lia | reflexivity].
  - cbn [fst]. change (Pos.to_nat 9) with 9%nat. lia.
Qed.

(** *** The pins after the wait *)

Lemma last_shift_dr_app acc a b :
  last_shift_dr acc (a ++ b) = last_shift_dr (last_shift_dr acc a) b.
Proof.
  revert acc. induction a as [| e a IH]; intros acc; [reflexivity |].
  destruct e; simpl; apply IH.
Qed.

Lemma last_shift_dr_console acc ops :
  Forall (fun e => is_console e = true) ops -> last_shift_dr acc ops = acc.
Proof.
  induction 1 as [| e ops He _ IH]; [reflexivity |].
  destruct e; simpl in *; try discriminate; exact IH.
Qed.

Lemma forall_bytes (P : Z -> bool) :
  forallb P (map Z.of_nat (seq 0 256)) = true ->
  forall b, is_byte b -> P b = true.
Proof.
  intros H b Hb. rewrite forallb_forall in H. apply H.
  apply in_map_iff. exists (Z.to_nat b). unfold is_byte in Hb.
  split; [lia | apply in_seq; lia].
Qed.

Lemma u8_land_u8 t m : u8 (Z.land t m) = u8 (Z.land (u8 t) m).
Proof.
  unfold u8. change 256 with (2 ^ 8). rewrite <- !Z.land_ones by lia.
  apply Z.bits_inj'. intros n Hn. rewrite !Z.land_spec.
  destruct (Z.testbit t n), (Z.testbit m n), (Z.testbit (Z.ones 8) n);
    reflexivity.
Qed.

(** With either pin assignment, clearing the clock bit and setting the
    chip-select bit leaves a vector with chip-select high and clock low. *)
Lemma released_vector t :
  pins_installed g ->
  let v := u8 (Z.lor (u8 (Z.land t (Z.lnot (_spi_sck g)))) (_spi_cs g)) in
  negb (Z.land v (_spi_cs g) =? 0) && (Z.land v (_spi_sck g) =? 0) = true.
Proof.
  intros Hpins. cbv zeta. rewrite u8_land_u8.
  assert (Hb : is_byte (u8 t))
    by (unfold is_byte, u8; apply Z.mod_pos_bound; lia).
  revert Hb. generalize (u8 t). intros b Hb.
  destruct Hpins as [E | E]; injection E as -> -> _ _ _; revert b Hb.
  - apply (forall_bytes (fun b =>
      let v := u8 (Z.lor (u8 (Z.land b (Z.lnot BSCAN_SPI_SCK))) BSCAN_SPI_CS) in
      negb (Z.land v BSCAN_SPI_CS =? 0) && (Z.land v BSCAN_SPI_SCK =? 0))).
    vm_compute. reflexivity.
  - apply (forall_bytes (fun b =>
      let v := u8 (Z.lor (u8 (Z.land b (Z.lnot BSCAN_GW1NSR_4C_SPI_SCK)))
                         BSCAN_GW1NSR_4C_SPI_CS) in
      negb (Z.land v BSCAN_GW1NSR_4C_SPI_CS =? 0)
      && (Z.land v BSCAN_GW1NSR_4C_SPI_SCK =? 0))).
    vm_compute. reflexivity.
Qed.

End SpiWait.

Lemma Gowin_ctor_pins file_extension open_file mcufw open_mcufw prg_type
    external_flash verify verbose quiet skip_checksum0 w0 g w1 :
  Gowin_ctor file_extension open_file mcufw open_mcufw prg_type
             external_flash verify verbose quiet skip_checksum0 w0
  = Some (inr g, w1) ->
  pins_installed g.
Proof.
  unfold Gowin_ctor, bindX, liftX, bind, get_target_device_id, ret, throw.
  intros H.
  repeat match type of H with
         | context [match ?x with _ => _ end] => destruct x eqn:?
         end;
    try discriminate; injection H as <- _; unfold pins_installed; simpl;
    repeat match goal with
           | E : (if ?c then _ else _) = (_, _) |- _ =>
               destruct c eqn:?; inversion E; subst; clear E
           end;
    auto.
Qed.

(** The sample sessions are what the constructor builds. *)
Lemma session_gw2a_constructed :
  Gowin_ctor "" None "" None WR_FLASH false false false false false
             (world0 0x0000081b)
  = Some (inr session_gw2a, world0 0x0000081b).
Proof. reflexivity. Qed.

(** * Further properties of the driver *)

(** ** Byte order *)

Lemma bswap_32_range x : 0 <= bswap_32 x < 2 ^ 32.
Proof.
  assert (H : bswap_32 x = bswap_32 x mod 2 ^ 32).
  { apply Z.bits_inj'. intros n Hn.
    destruct (Z.lt_ge_cases n 32) as [Hlt | Hge].
    - rewrite Z.mod_pow2_bits_low by lia. reflexivity.
    - rewrite Z.mod_pow2_bits_high by lia.
      unfold bswap_32. rewrite !Z.lor_spec, !Z.land_spec.
      change 0xff000000 with (Z.shiftl 255 24).
      change 0x00ff0000 with (Z.shiftl 255 16).
      change 0x0000ff00 with (Z.shiftl 255 8).
      change 0x000000ff with (Z.ones 8).
      rewrite !Z.shiftl_spec by lia.
      rewrite Z.ones_spec_high by lia.
      change 255 with (Z.ones 8).
      rewrite !Z.ones_spec_high by lia.
      rewrite !andb_false_r. reflexivity. }
  rewrite H. apply Z.mod_pos_bound. lia.
Qed.

Lemma word_bytes_bytes w : Forall is_byte (word_bytes w).
Proof.
  unfold word_bytes, is_byte, u8.
  repeat constructor; apply Z.mod_pos_bound; lia.
Qed.

(** X1. On a 32-bit word [bswap_32] reverses the order of the four bytes,
    and applying it twice gives the word back. *)
Theorem bswap_32_reverses_bytes x :
  0 <= x < 2 ^ 32 ->
  word_bytes (bswap_32 x) = rev (word_bytes x) /\
  bswap_32 (bswap_32 x) = x.
Proof.
  intros Hx.
  pose proof (bytes_word_word_bytes x Hx) as Hw.
  unfold word_bytes in Hw.
  assert (Hbyte : forall y, is_byte (u8 y))
    by (intros y; apply Z.mod_pos_bound; lia).
  pose proof (Hbyte x) as Ha. pose proof (Hbyte (Z.shiftr x 8)) as Hb.
  pose proof (Hbyte (Z.shiftr x 16)) as Hc.
  pose proof (Hbyte (Z.shiftr x 24)) as Hd.
  set (a := u8 x) in *. set (b := u8 (Z.shiftr x 8)) in *.
  set (c := u8 (Z.shiftr x 16)) in *. set (d := u8 (Z.shiftr x 24)) in *.
  assert (H1 : word_bytes (bswap_32 x) = [d; c; b; a]).
  { rewrite <- Hw at 1. apply bswap_32_bytes; assumption. }
  split.
  - rewrite H1. unfold word_bytes. fold a b c d. reflexivity.
  - rewrite <- (bytes_word_word_bytes (bswap_32 (bswap_32 x)))
      by apply bswap_32_range.
    rewrite <- (bytes_word_word_bytes (bswap_32 x)) at 1
      by apply bswap_32_range.
    rewrite H1, bswap_32_bytes by assumption. exact Hw.
Qed.

Lemma bswap_32_reverses_bytes_witness :
  word_bytes (bswap_32 0x12345678) = rev (word_bytes 0x12345678) /\
  bswap_32 (bswap_32 0x12345678) = 0x12345678.
Proof. apply (bswap_32_reverses_bytes 0x12345678). lia. Defined.

(** ** The poller and the configuration mode *)

Section PollerCount.

Variable hw : nat -> list Z.
Variable g : Gowin.

(** The poll loop from any point, with the number of reads it makes. *)
Lemma pollFlag_from_count mask value w0 t w :
  0 <= t <= POLL_LIMIT ->
  reads w = (reads w0 + Z.to_nat t)%nat ->
  (forall k, (k < Z.to_nat t)%nat ->
     Z.land (status_at hw (reads w0 + k)) mask <> value) ->
  forall fuel, (Z.to_nat (POLL_LIMIT - t) < Pos.to_nat fuel)%nat ->
  spec (loop fuel (pollFlag_body hw g mask value) t) w (fun r w' =>
    exists n,
      reads w' = (reads w0 + n + 1)%nat /\
      (forall k, (k < n)%nat ->
         Z.land (status_at hw (reads w0 + k)) mask <> value) /\
      (r = true /\ Z.of_nat n < POLL_LIMIT /\
       Z.land (status_at hw (reads w0 + n)) mask = value
       \/
       r = false /\ Z.of_nat n = POLL_LIMIT)).
Proof.
  intros Ht Hr Hno fuel Hfuel.
  apply spec_loop with
    (Inv := fun t w =>
       0 <= t <= POLL_LIMIT /\
       reads w = (reads w0 + Z.to_nat t)%nat /\
       (forall k, (k < Z.to_nat t)%nat ->
          Z.land (status_at hw (reads w0 + k)) mask <> value))
    (mu := fun t => Z.to_nat (POLL_LIMIT - t));
    [| auto | exact Hfuel].
  clear. intros t w (Ht & Hr & Hno).
  unfold pollFlag_body.
  apply spec_bind, spec_readStatusReg.
  apply spec_bind.
  set (w1 := mkWorld _ _ _ _).
  assert (Hw1 : reads w1 = S (reads w)) by reflexivity.
  clearbody w1.
  apply spec_weaken with (P := fun _ w' => reads w' = S (reads w)).
  { apply spec_when; intros _; [apply spec_emit |]; exact Hw1. }
  intros [] w2 Hw2.
  destruct (Z.eqb_spec t POLL_LIMIT) as [-> | Hne].
  - apply spec_bind, spec_emit, spec_ret. cbv beta iota.
    exists (Z.to_nat POLL_LIMIT). split.
    + change (reads w2 = (reads w0 + Z.to_nat POLL_LIMIT + 1)%nat).
      rewrite Hw2, Hr. lia.
    + split; [exact Hno |]. right. split; [reflexivity |].
      unfold POLL_LIMIT. lia.
  - destruct (Z.eqb_spec (Z.land (status_at hw (reads w)) mask) value)
      as [Hm | Hm]; cbn [negb]; apply spec_ret; cbv beta iota.
    + exists (Z.to_nat t). split; [rewrite Hw2, Hr; lia |].
      split; [exact Hno |]. left. split; [reflexivity |].
      split; [unfold POLL_LIMIT in *; lia |].
      rewrite <- Hr. exact Hm.
    + split; [split; [lia | split] |].
      * rewrite Hw2, Hr. lia.
      * intros k Hk.
        destruct (Nat.eq_dec k (Z.to_nat t)) as [-> | Hk'].
        -- rewrite <- Hr. exact Hm.
        -- apply Hno. lia.
      * lia.
Qed.

Lemma send_command_run c w :
  send_command c w
  = Some (true, mkWorld (target_device_id w) (reads w) (clkfreq w)
                        (trace w ++ [ShiftIR c 8; ToggleClk 5])).
Proof.
  unfold send_command, shiftIR, toggleClk, bind, emit, ret. cbn.
  rewrite <- app_assoc. reflexivity.
Qed.

End PollerCount.

(** X2. [pollFlag] reads the status register once more than the number of
    reads that fail the test: when read number [n] (from 0, below 100000000)
    is the first that satisfies [(status & mask) == value], it returns
    [true] after exactly [n + 1] reads; when none of the first 100000000
    does, it returns [false] after exactly 100000001 reads. *)
Theorem pollFlag_read_count hw g mask value w :
  exists r w' n,
    pollFlag hw g mask value w = Some (r, w') /\
    reads w' = (reads w + n + 1)%nat /\
    (forall k, (k < n)%nat ->
       Z.land (status_at hw (reads w + k)) mask <> value) /\
    (r = true /\ Z.of_nat n < 100000000 /\
     Z.land (status_at hw (reads w + n)) mask = value
     \/
     r = false /\ Z.of_nat n = 100000000).
Proof.
  destruct (pollFlag_from_count hw g mask value w 0 w)
    with (fuel := 100000001%positive)
    as (r & w' & Hrun & n & Hreads & Hno & Hres).
  - unfold POLL_LIMIT. lia.
  - simpl. lia.
  - intros k Hk. simpl in Hk. lia.
  - unfold POLL_LIMIT. lia.
  - exists r, w', n. unfold POLL_LIMIT in *. auto.
Qed.

(** X3. [enableCfg] sends the config-enable command and then polls: what it
    appends to the trace is that command followed by status polls only, and
    it returns [true] exactly when one of the first 100000000 status reads
    after the command shows the edit-mode bit set. [disableCfg] sends
    config-disable and no-op and then polls, and returns [true] exactly
    when one of the first 100000000 reads after them shows the bit
    cleared. *)
Theorem enableCfg_disableCfg_verdict hw g w :
  (exists r w' polls,
     enableCfg hw g w = Some (r, w') /\
     trace w' = trace w ++ [ShiftIR CONFIG_ENABLE 8; ToggleClk 5] ++ polls /\
     Forall (fun e => is_poll_event e = true) polls /\
     (r = true <->
      exists k, Z.of_nat k < 100000000 /\
        Z.land (status_at hw (reads w + k)) STATUS_SYSTEM_EDIT_MODE
        = STATUS_SYSTEM_EDIT_MODE)) /\
  (exists r w' polls,
     disableCfg hw g w = Some (r, w') /\
     trace w'
     = trace w ++ [ShiftIR CONFIG_DISABLE 8; ToggleClk 5;
                   ShiftIR NOOP 8; ToggleClk 5] ++ polls /\
     Forall (fun e => is_poll_event e = true) polls /\
     (r = true <->
      exists k, Z.of_nat k < 100000000 /\
        Z.land (status_at hw (reads w + k)) STATUS_SYSTEM_EDIT_MODE = 0)).
Proof.
  split.
  - unfold enableCfg, bind. rewrite send_command_run.
    set (w1 := mkWorld _ _ _ _).
    destruct (emits_pollFlag hw g STATUS_SYSTEM_EDIT_MODE
                STATUS_SYSTEM_EDIT_MODE w1)
      as (r & w' & Hrun & polls & Ht & Hpoll & _).
    destruct (pollFlag_from hw g STATUS_SYSTEM_EDIT_MODE STATUS_SYSTEM_EDIT_MODE
                w 0 w1) with (fuel := 100000001%positive)
      as (r' & w'' & Hrun' & _ & Hiff).
    + unfold POLL_LIMIT. lia.
    + simpl. lia.
    + intros k Hk. simpl in Hk. lia.
    + unfold POLL_LIMIT. lia.
    + assert (E : pollFlag hw g STATUS_SYSTEM_EDIT_MODE STATUS_SYSTEM_EDIT_MODE
                    w1 = Some (r', w'')) by exact Hrun'.
      rewrite Hrun in E. injection E as <- <-.
      exists r, w', polls. split; [exact Hrun |].
      split; [rewrite Ht; subst w1; cbn [trace]; rewrite <- app_assoc;
              reflexivity |].
      split; [exact Hpoll |].
      rewrite Hiff. unfold POLL_LIMIT.
      split; intros (k & Hk & Hm); exists k; (split; [lia | exact Hm]).
  - unfold disableCfg, bind. rewrite !send_command_run.
    set (w1 := mkWorld _ _ _ _).
    destruct (emits_pollFlag hw g STATUS_SYSTEM_EDIT_MODE 0 w1)
      as (r & w' & Hrun & polls & Ht & Hpoll & _).
    destruct (pollFlag_from hw g STATUS_SYSTEM_EDIT_MODE 0
                w 0 w1) with (fuel := 100000001%positive)
      as (r' & w'' & Hrun' & _ & Hiff).
    + unfold POLL_LIMIT. lia.
    + simpl. lia.
    + intros k Hk. simpl in Hk. lia.
    + unfold POLL_LIMIT. lia.
    + assert (E : pollFlag hw g STATUS_SYSTEM_EDIT_MODE 0 w1 = Some (r', w''))
        by exact Hrun'.
      rewrite Hrun in E. injection E as <- <-.
      exists r, w', polls. split; [exact Hrun |].
      split; [rewrite Ht; subst w1; cbn [trace]; rewrite <- !app_assoc;
              reflexivity |].
      split; [exact Hpoll |].
      rewrite Hiff. unfold POLL_LIMIT.
      split; intros (k & Hk & Hm); exists k; (split; [lia | exact Hm]).
Qed.

(** X4. [eraseSRAM] returns from every world. It sends register traffic
    only: no TAP state change, no wait, no flash erase or program command.
    It reports success exactly when no status poll timed out and the last
    status read shows done-final cleared. *)
Theorem eraseSRAM_verdict hw g w :
  exists r w' ops,
    eraseSRAM hw g w = Some (r, w') /\
    trace w' = trace w ++ ops /\
    Forall (fun e => is_register_event e = true) ops /\
    (r = true <->
     ~ timed_out ops /\
     exists st, last_status ops = Some st /\ done_final st = false).
Proof.
  destruct (emits_eraseSRAM hw g w) as (r & w' & Hrun & ops & Ht & Hreg & Hres).
  exists r, w', ops.
  split; [exact Hrun |]. split; [exact Ht |]. split; [exact Hreg |].
  split.
  - intros ->. destruct Hres as [(_ & Hf) | (Hn & st & He & Hr)];
      [discriminate |].
    split; [exact Hn |]. exists st.
    split; [apply ends_with_read_last_status, He |].
    destruct (done_final st); [discriminate | reflexivity].
  - intros (Hn & st' & Hst' & Hd).
    destruct Hres as [(Hto & _) | (_ & st & He & Hr)]; [tauto |].
    apply ends_with_read_last_status in He.
    rewrite He in Hst'. injection Hst' as <-. rewrite Hr, Hd. reflexivity.
Qed.

(** ** The SRAM load *)

Section SramStream.

Variable hw : nat -> list Z.
Variable g : Gowin.

Lemma payload_bytes_app a b :
  payload_bytes (a ++ b) = payload_bytes a ++ payload_bytes b.
Proof. apply flat_map_app. Qed.

Lemma register_events_no_payload_bytes ops :
  Forall (fun e => is_register_event e = true) ops -> payload_bytes ops = [].
Proof.
  induction 1 as [| e ops He _ IH]; [reflexivity |].
  destruct e as [| tdi [rx |] drlen [st |] | | | | | | | | | | | |];
    simpl in *; try discriminate; exact IH.
Qed.

(** The payload loop hands over the image from its first byte on, without a
    gap. *)
Lemma emits_writeSRAM_loop_bytes data length :
  0 <= length ->
  emits (loop (Z.to_pos (Z.abs length + 2)) (writeSRAM_body data) (length, 0))
    (fun _ ops =>
       payload_bytes ops = firstn (Z.to_nat ((length + 7) / 8)) data).
Proof.
  intros Hlen.
  apply emits_loop with
    (Inv := fun st acc =>
       let remains := fst st in
       let ptr := snd st in
       0 <= remains <= length /\
       (remains = 0 /\
        payload_bytes acc = firstn (Z.to_nat ((length + 7) / 8)) data
        \/
        0 < remains /\
        (exists q, 0 <= q /\ length - remains = q * 524288 /\ ptr = q * 65536) /\
        payload_bytes acc = firstn (Z.to_nat ptr) data))
    (mu := fun st => Z.to_nat (fst st)).
  - intros [remains ptr] acc. cbn [fst snd]. intros (Hr & Hp).
    unfold writeSRAM_body.
    destruct (Z.eqb_spec remains 0) as [-> | Hne]; cbn [negb].
    + apply emits_ret. rewrite app_nil_r.
      destruct Hp as [(_ & Hp) | (? & _)]; [exact Hp | lia].
    + destruct Hp as [(? & _) | (Hpos & (q & Hq0 & Hq & Hptr) & Hp)]; [lia |].
      unfold pstep.
      destruct (Z.ltb_spec remains 524288) as [Hlt | Hge].
      * ebind emits_emit. intros [] o1 ->. apply emits_ret.
        rewrite app_nil_r. cbn [fst snd]. split; [| lia].
        split; [lia |]. left. split; [lia |].
        rewrite payload_bytes_app, Hp. cbn. rewrite app_nil_r.
        rewrite <- firstn_add_skipn. f_equal.
        unfold nbytes.
        replace (length + 7) with (q * 65536 * 8 + (remains + 7)) by lia.
        rewrite Z.div_add_l by lia.
        assert (0 <= (remains + 7) / 8) by (apply Z.div_pos; lia).
        lia.
      * ebind emits_emit. intros [] o1 ->. apply emits_ret.
        rewrite app_nil_r. cbn [fst snd]. split; [| lia].
        split; [lia |].
        assert (Hstep :
          payload_bytes (acc ++ [ShiftDR
             (firstn (nbytes 524288) (skipn (Z.to_nat ptr) data)) None 524288
             (Some SHIFT_DR)])
          = firstn (Z.to_nat (ptr + Z.shiftr 524288 3)) data).
        { rewrite payload_bytes_app, Hp. cbn -[nbytes Z.shiftr].
          rewrite app_nil_r, <- firstn_add_skipn. f_equal.
          change (nbytes 524288) with (Z.to_nat 65536).
          change (Z.shiftr 524288 3) with 65536. lia. }
        change (Z.shiftr 524288 3) with 65536 in *.
        destruct (Z.eq_dec (remains - 524288) 0) as [Hz | Hnz].
        -- left. split; [exact Hz |].
           rewrite Hstep. f_equal.
           replace (length + 7) with ((q + 1) * 65536 * 8 + 7) by lia.
           rewrite Z.div_add_l by lia. change (7 / 8) with 0. lia.
        -- right. split; [lia |]. split; [| exact Hstep].
           exists (q + 1). lia.
  - cbn [fst snd]. split; [lia |].
    destruct (Z.eq_dec length 0) as [-> | Hnz].
    + left. split; reflexivity.
    + right. split; [lia |]. split; [| reflexivity].
      exists 0. lia.
  - cbn [fst]. lia.
Qed.

Lemma emits_writeSRAM_bytes fs data length :
  0 <= length ->
  emits (writeSRAM hw g fs data length) (fun _ ops =>
    payload_bytes ops = firstn (Z.to_nat ((length + 7) / 8)) data).
Proof.
  intros Hlen. unfold writeSRAM.
  ebind emits_emit. intros [] o1 ->.
  ebind emits_verbose_dump. intros [] o2 (R2 & _).
  ebind emits_send_command. intros _ o3 (_ & ->).
  ebind emits_send_command. intros _ o4 (_ & ->).
  ebind emits_send_command. intros _ o5 (_ & ->).
  eapply emits_bind; [apply emits_writeSRAM_loop_bytes, Hlen |].
  intros [] o6 P6.
  ebind emits_send_command. intros _ o7 (_ & ->).
  ebind emits_emit. intros [] o8 ->.
  ebind emits_send_command. intros _ o9 (_ & ->).
  ebind emits_send_command. intros _ o10 (_ & ->).
  ebind emits_send_command. intros _ o11 (_ & ->).
  ebind emits_verbose_dump. intros [] o12 (R12 & _).
  eapply emits_weaken.
  { apply emits_final_read with (on_set := true)
      (e1 := PrintSuccess "DONE") (e2 := PrintSuccess "FAIL");
      try reflexivity; discriminate. }
  intros r o13 (R13 & _).
  rewrite !payload_bytes_app, P6.
  rewrite (register_events_no_payload_bytes o2 R2),
    (register_events_no_payload_bytes o12 R12),
    (register_events_no_payload_bytes o13 R13).
  simpl. rewrite app_nil_r. reflexivity.
Qed.

End SramStream.

(** X5. For an image of [length] bits, [writeSRAM] returns; it sends
    [length / 2^19] chunks of 2^19 bits that stay in shift-DR and then, when
    [length] is not a multiple of 2^19, one chunk with the remaining bits
    that goes to run-test-idle; and its result is the done-final bit of the
    last status read. *)
Theorem writeSRAM_chunks hw g fs data length w :
  0 <= length ->
  exists r w' ops,
    writeSRAM hw g fs data length w = Some (r, w') /\
    trace w' = trace w ++ ops /\
    payload_shifts ops
    = repeat (524288, SHIFT_DR) (Z.to_nat (length / 524288))
      ++ (if length mod 524288 =? 0 then []
          else [(length mod 524288, RUN_TEST_IDLE)]) /\
    exists st, last_status ops = Some st /\ r = done_final st.
Proof.
  intros Hlen.
  destruct (emits_writeSRAM hw g fs data length Hlen w)
    as (r & w' & Hrun & ops & Ht & Hp & st & He & Hr).
  exists r, w', ops.
  split; [exact Hrun |]. split; [exact Ht |]. split; [exact Hp |].
  exists st. split; [apply ends_with_read_last_status, He | exact Hr].
Qed.

Lemma writeSRAM_chunks_witness :
  exists r w' ops,
    writeSRAM (hw_const STATUS_DONE_FINAL) (session0 0x0900281B)
              (mkImage [1; 2; 3] 20 [] 0) [1; 2; 3] 20 (world0 0x0900281B)
    = Some (r, w') /\
    trace w' = trace (world0 0x0900281B) ++ ops /\
    payload_shifts ops
    = repeat (524288, SHIFT_DR) (Z.to_nat (20 / 524288))
      ++ (if 20 mod 524288 =? 0 then []
          else [(20 mod 524288, RUN_TEST_IDLE)]) /\
    exists st, last_status ops = Some st /\ r = done_final st.
Proof.
  apply (writeSRAM_chunks (hw_const STATUS_DONE_FINAL) (session0 0x0900281B)
           (mkImage [1; 2; 3] 20 [] 0) [1; 2; 3] 20 (world0 0x0900281B)).
  lia.
Defined.

(** X6. [writeSRAM] hands the image over in order and without a gap: the
    bytes of its payload shifts, one after the other, are the first
    [ceil(length / 8)] bytes of the image. *)
Theorem writeSRAM_streams_image hw g fs data length w :
  0 <= length ->
  (length + 7) / 8 <= Z.of_nat (List.length data) ->
  exists r w' ops,
    writeSRAM hw g fs data length w = Some (r, w') /\
    trace w' = trace w ++ ops /\
    payload_bytes ops = firstn (Z.to_nat ((length + 7) / 8)) data /\
    Z.of_nat (List.length (payload_bytes ops)) = (length + 7) / 8.
Proof.
  intros Hlen Hdata.
  destruct (emits_writeSRAM_bytes hw g fs data length Hlen w)
    as (r & w' & Hrun & ops & Ht & Hp).
  exists r, w', ops.
  split; [exact Hrun |]. split; [exact Ht |]. split; [exact Hp |].
  rewrite Hp, length_firstn.
  assert (0 <= (length + 7) / 8) by (apply Z.div_pos; lia).
  lia.
Qed.

Lemma writeSRAM_streams_image_witness :
  exists r w' ops,
    writeSRAM (hw_const STATUS_DONE_FINAL) (session0 0x0900281B)
              (mkImage [1; 2; 3] 20 [] 0) [1; 2; 3] 20 (world0 0x0900281B)
    = Some (r, w') /\
    trace w' = trace (world0 0x0900281B) ++ ops /\
    payload_bytes ops = firstn (Z.to_nat ((20 + 7) / 8)) [1; 2; 3] /\
    Z.of_nat (List.length (payload_bytes ops)) = (20 + 7) / 8.
Proof.
  apply (writeSRAM_streams_image (hw_const STATUS_DONE_FINAL)
           (session0 0x0900281B) (mkImage [1; 2; 3] 20 [] 0) [1; 2; 3] 20
           (world0 0x0900281B)).
  - lia.
  - vm_compute. discriminate.
Defined.

(** ** The constructor *)

Ltac ctor_cases :=
  repeat (cbn [negb];
          match goal with
          | |- context [match ?o with Some _ => _ | None => _ end] =>
              is_var o; destruct o
          | |- context [if ?c then _ else _] => destruct c eqn:?
          | |- context [match getHeaderVal ?a ?b with _ => _ end] =>
              destruct (getHeaderVal a b) eqn:?
          | |- context [match stoul16 ?a with _ => _ end] =>
              destruct (stoul16 a) eqn:?
          end).

(** X7. The constructor returns for every input, with a session or with an
    error, and all it does on the way is print: it sends nothing to the
    device, makes no capture and leaves the clock setting alone. *)
Theorem Gowin_ctor_console_only file_extension open_file mcufw open_mcufw
    prg_type external_flash verify verbose quiet skip_checksum0 w :
  exists res w' ops,
    Gowin_ctor file_extension open_file mcufw open_mcufw prg_type
               external_flash verify verbose quiet skip_checksum0 w
    = Some (res, w') /\
    trace w' = trace w ++ ops /\
    Forall (fun e => is_console e = true) ops /\
    reads w' = reads w /\ clkfreq w' = clkfreq w /\
    target_device_id w' = target_device_id w.
Proof.
  unfold Gowin_ctor, Gowin_open, bindX, liftX, bind, get_target_device_id,
    throw, ret, when, emit.
  ctor_cases; cbn;
    eexists _, _, _; (split; [reflexivity |]); cbn [trace];
    rewrite <- ?app_assoc;
    (split; [first [reflexivity | symmetry; apply app_nil_r] |]);
    (split; [repeat constructor |]); auto.
Qed.

(** What a successful construction leaves in the session, field by field. *)
Lemma Gowin_ctor_fields file_extension open_file mcufw open_mcufw prg_type
    external_flash verify verbose quiet skip_checksum0 w0 g w1 :
  Gowin_ctor file_extension open_file mcufw open_mcufw prg_type
             external_flash verify verbose quiet skip_checksum0 w0
  = Some (inr g, w1) ->
  let id := target_device_id w0 in
  let gw2a := (id =? 0x0000081b) || (id =? 0x0000281b) in
  let gw5a := (id =? 0x0001081b) || (id =? 0x0001181b) || (id =? 0x0001281b) in
  is_gw1n1 g = (id =? 0x0900281B) /\
  is_gw1n4 g = ((id =? 0x0100381B) || (id =? 0x100681b)) /\
  is_gw2a g = gw2a /\
  is_gw5a g = gw5a /\
  _external_flash g = (gw2a || gw5a || external_flash) /\
  skip_checksum g = (gw2a || gw5a || skip_checksum0) /\
  _mode g = match prg_type with WR_FLASH => FLASH_MODE | _ => MEM_MODE end /\
  (_spi_sck g, _spi_cs g, _spi_di g, _spi_do g, _spi_msk g)
  = (if id =? 0x0100981b
     then (BSCAN_GW1NSR_4C_SPI_SCK, BSCAN_GW1NSR_4C_SPI_CS,
           BSCAN_GW1NSR_4C_SPI_DI, BSCAN_GW1NSR_4C_SPI_DO,
           BSCAN_GW1NSR_4C_SPI_MSK)
     else (BSCAN_SPI_SCK, BSCAN_SPI_CS, BSCAN_SPI_DI, BSCAN_SPI_DO,
           BSCAN_SPI_MSK)) /\
  (if String.eqb file_extension "" then _fs g = None
   else exists p, open_file = Some p /\ parse_ok p = true /\
                  _fs g = Some (parsed p)) /\
  (if String.eqb mcufw "" then _mcufw g = None
   else id = 0x0100981b /\
        exists q, open_mcufw = Some q /\ parse_ok q = true /\
                  _mcufw g = Some (parsed q)).
Proof.
  unfold Gowin_ctor, Gowin_open, bindX, liftX, bind, get_target_device_id,
    throw, ret, when, emit.
  intros H. cbv zeta.
  repeat match type of H with
         | context [match ?o with Some _ => _ | None => _ end] =>
             is_var o; destruct o
         | context [if ?c then _ else _] => destruct c eqn:?
         | context [match getHeaderVal ?a ?b with _ => _ end] =>
             destruct (getHeaderVal a b) eqn:?
         | context [match stoul16 ?a with _ => _ end] =>
             destruct (stoul16 a) eqn:?
         | _ => progress cbn [negb] in H
         end;
    cbn in H; try discriminate; injection H as <- _; cbn;
    repeat match goal with
           | E : negb _ = _ |- _ => apply (f_equal negb) in E;
                                    rewrite negb_involutive in E; cbn in E
           end;
    repeat match goal with
           | E : String.eqb _ _ = _ |- _ => rewrite E; clear E
           end;
    repeat match goal with
           | E : (_ =? _) = true |- _ => apply Z.eqb_eq in E
           | E : (_ || _) = true |- _ => apply orb_true_iff in E
           end;
    repeat split; try reflexivity; try assumption;
    try (eexists; repeat split; try reflexivity; assumption);
    try lia.
Qed.

(** X8. A session that was constructed has at most one family flag set, and
    a GW2A or GW5A device always gets external flash and no checksum test,
    whatever the caller asked for; on every other device the caller's two
    settings stand. *)
Theorem Gowin_ctor_family_flags file_extension open_file mcufw open_mcufw
    prg_type external_flash verify verbose quiet skip_checksum0 w0 g w1 :
  Gowin_ctor file_extension open_file mcufw open_mcufw prg_type
             external_flash verify verbose quiet skip_checksum0 w0
  = Some (inr g, w1) ->
  (List.length (filter (fun b : bool => b)
                  [is_gw1n1 g; is_gw1n4 g; is_gw2a g; is_gw5a g]) <= 1)%nat /\
  (is_gw2a g || is_gw5a g = true ->
   _external_flash g = true /\ skip_checksum g = true) /\
  (is_gw2a g || is_gw5a g = false ->
   _external_flash g = external_flash /\ skip_checksum g = skip_checksum0).
Proof.
  intros H. apply Gowin_ctor_fields in H. cbv zeta in H.
  destruct H as (-> & -> & -> & -> & -> & -> & _).
  split.
  - repeat match goal with
           | |- context [?a =? ?b] => destruct (Z.eqb_spec a b)
           end; cbn; lia.
  - split; intros ->; split; reflexivity.
Qed.

Lemma Gowin_ctor_family_flags_witness :
  (List.length (filter (fun b : bool => b)
                  [is_gw1n1 session_gw2a; is_gw1n4 session_gw2a;
                   is_gw2a session_gw2a; is_gw5a session_gw2a]) <= 1)%nat /\
  (is_gw2a session_gw2a || is_gw5a session_gw2a = true ->
   _external_flash session_gw2a = true /\ skip_checksum session_gw2a = true) /\
  (is_gw2a session_gw2a || is_gw5a session_gw2a = false ->
   _external_flash session_gw2a = false /\ skip_checksum session_gw2a = false).
Proof.
  apply (Gowin_ctor_family_flags "" None "" None WR_FLASH false false false
           false false (world0 0x0000081b) session_gw2a (world0 0x0000081b)).
  reflexivity.
Defined.

(** X9. Microcontroller firmware is taken on the GW1NSR-4C only: when a
    firmware file is named and construction succeeds, the detected idcode is
    0x0100981b, the firmware parsed and is kept in the session, and the
    boundary-scan pins are those of the GW1NSR-4C; when none is named the
    session holds no firmware. *)
Theorem Gowin_ctor_firmware file_extension open_file mcufw open_mcufw
    prg_type external_flash verify verbose quiet skip_checksum0 w0 g w1 :
  Gowin_ctor file_extension open_file mcufw open_mcufw prg_type
             external_flash verify verbose quiet skip_checksum0 w0
  = Some (inr g, w1) ->
  (mcufw = ""%string -> _mcufw g = None) /\
  (mcufw <> ""%string ->
   target_device_id w0 = 0x0100981b /\
   (exists q, open_mcufw = Some q /\ parse_ok q = true /\
              _mcufw g = Some (parsed q)) /\
   (_spi_sck g, _spi_cs g, _spi_di g, _spi_do g, _spi_msk g)
   = (BSCAN_GW1NSR_4C_SPI_SCK, BSCAN_GW1NSR_4C_SPI_CS,
      BSCAN_GW1NSR_4C_SPI_DI, BSCAN_GW1NSR_4C_SPI_DO,
      BSCAN_GW1NSR_4C_SPI_MSK)).
Proof.
  intros H. apply Gowin_ctor_fields in H. cbv zeta in H.
  destruct H as (_ & _ & _ & _ & _ & _ & _ & Hpins & _ & Hmcu).
  destruct (String.eqb_spec mcufw "") as [-> | Hne].
  - split; [intros _; exact Hmcu | intros Hn; contradiction].
  - split; [intros He; contradiction | intros _].
    destruct Hmcu as (Hid & Hq).
    split; [exact Hid |]. split; [exact Hq |].
    rewrite Hpins, Hid. reflexivity.
Qed.

Lemma Gowin_ctor_firmware_witness :
  let g := mkGowin None (Some (mkImage [1] 8 [] 0)) FLASH_MODE false false
                   false false false false
                   BSCAN_GW1NSR_4C_SPI_SCK BSCAN_GW1NSR_4C_SPI_CS
                   BSCAN_GW1NSR_4C_SPI_DI BSCAN_GW1NSR_4C_SPI_DO
                   BSCAN_GW1NSR_4C_SPI_MSK false false false in
  ("fw.bin"%string = ""%string -> _mcufw g = None) /\
  ("fw.bin"%string <> ""%string ->
   target_device_id (world0 0x0100981b) = 0x0100981b /\
   (exists q, Some (mkParser true (mkImage [1] 8 [] 0)) = Some q /\
              parse_ok q = true /\ _mcufw g = Some (parsed q)) /\
   (_spi_sck g, _spi_cs g, _spi_di g, _spi_do g, _spi_msk g)
   = (BSCAN_GW1NSR_4C_SPI_SCK, BSCAN_GW1NSR_4C_SPI_CS,
      BSCAN_GW1NSR_4C_SPI_DI, BSCAN_GW1NSR_4C_SPI_DO,
      BSCAN_GW1NSR_4C_SPI_MSK)).
Proof.
  intros g.
  apply (Gowin_ctor_firmware "" None "fw.bin"
           (Some (mkParser true (mkImage [1] 8 [] 0))) WR_FLASH false false
           false false false (world0 0x0100981b) g
           (mkWorld 0x0100981b 0 2500000 [PrintSuccess "DONE"])).
  reflexivity.
Defined.

(** X10. An image that is not a structured [fs] file is refused without
    external flash, before anything is printed or parsed; with external
    flash it is taken once it parses, and its header is not looked at: no
    idcode is compared. *)
Theorem Gowin_ctor_raw_image file_extension p open_mcufw prg_type
    (external_flash : bool) verify verbose quiet skip_checksum0 w :
  file_extension <> ""%string ->
  file_extension <> "fs"%string ->
  parse_ok p = true ->
  if external_flash then
    (exists g w',
       Gowin_ctor file_extension (Some p) "" open_mcufw prg_type external_flash
                  verify verbose quiet skip_checksum0 w
       = Some (inr g, w') /\
       _fs g = Some (parsed p))
  else
    (Gowin_ctor file_extension (Some p) "" open_mcufw prg_type external_flash
                verify verbose quiet skip_checksum0 w
     = Some (inl IncompatibleFileFormat, w)).
Proof.
  intros He Hfs Hp.
  apply String.eqb_neq in He, Hfs.
  unfold Gowin_ctor, Gowin_open, bindX, liftX, bind, get_target_device_id,
    throw, ret, when, emit.
  rewrite He, Hfs. cbn [negb].
  destruct external_flash.
  - cbn. rewrite Hp. cbn.
    destruct verbose; cbn;
      repeat match goal with
             | |- context [if ?c then _ else _] => destruct c eqn:?
             end;
      eexists _, _; split; reflexivity.
  - cbn. destruct w; reflexivity.
Qed.

Lemma Gowin_ctor_raw_image_witness :
  exists g w',
    Gowin_ctor "bin" (Some (mkParser true (mkImage [1] 8 [] 0))) "" None
               WR_FLASH true false false false false (world0 0x0900281B)
    = Some (inr g, w') /\
    _fs g = Some (parsed (mkParser true (mkImage [1] 8 [] 0))).
Proof.
  apply (Gowin_ctor_raw_image "bin" (mkParser true (mkImage [1] 8 [] 0))
           None WR_FLASH true false false false false (world0 0x0900281B));
    [discriminate | discriminate | reflexivity].
Defined.

(** ** What a method never sends *)

Lemma confined_ret {A} P (a : A) : confined P (ret a).
Proof.
  intros w a' w' H. injection H as <- <-. exists []. rewrite app_nil_r. auto.
Qed.

Lemma confined_bind {A B} P (m : M A) (k : A -> M B) :
  confined P m -> (forall a, confined P (k a)) -> confined P (bind m k).
Proof.
  intros Hm Hk w b w2 H. unfold bind in H.
  destruct (m w) as [[a w1] |] eqn:E; [| discriminate].
  destruct (Hm _ _ _ E) as (o1 & T1 & F1).
  destruct (Hk a _ _ _ H) as (o2 & T2 & F2).
  exists (o1 ++ o2). rewrite T2, T1, app_assoc, forallb_app, F1, F2. auto.
Qed.

Lemma confined_emit P e : P e = true -> confined P (emit e).
Proof.
  intros HP w a w' H. injection H as _ <-. exists [e]. cbn. rewrite HP. auto.
Qed.

Lemma confined_when P b (m : M unit) : confined P m -> confined P (when b m).
Proof. destruct b; [auto | intros _; apply confined_ret]. Qed.

Lemma confined_iter_nat {S R} P (body : S -> M (S + R)) :
  (forall s, confined P (body s)) ->
  forall n s, confined P (iter_nat body n s).
Proof.
  intros Hb n. induction n as [| n IH]; intros s; simpl.
  - apply confined_ret.
  - apply confined_bind; [apply Hb |].
    intros [s' | x]; [apply IH | apply confined_ret].
Qed.

Lemma confined_loop {S R} P fuel (body : S -> M (S + R)) s :
  (forall s, confined P (body s)) -> confined P (loop fuel body s).
Proof.
  intros Hb w a w' H. unfold loop, bind in H.
  rewrite loop_pos_iter_nat in H.
  destruct (iter_nat body (Pos.to_nat fuel) s w) as [[[s' | x] w1] |] eqn:E;
    try discriminate.
  injection H as <- <-.
  exact (confined_iter_nat P body Hb _ _ _ _ _ E).
Qed.

Lemma confined_shiftDR_rx P hw tdi drlen :
  (forall rx, P (ShiftDR tdi (Some rx) drlen None) = true) ->
  confined P (shiftDR_rx hw tdi drlen).
Proof.
  intros HP w a w' H. injection H as _ <-.
  eexists [_]. cbn. rewrite HP. auto.
Qed.

Lemma confined_setClkFreq P hz :
  P (SetClkFreq hz) = true -> confined P (setClkFreq hz).
Proof.
  intros HP w a w' H. injection H as _ <-. exists [SetClkFreq hz].
  cbn. rewrite HP. auto.
Qed.

Lemma confined_getClkFreq P : confined P getClkFreq.
Proof. intros w a w' H. injection H as _ <-. exists []. rewrite app_nil_r. auto. Qed.

(** A run that returns with a trace property and is confined returns with
    both. *)
Lemma emits_confined {A} P (m : M A) (Q : A -> list event -> Prop) :
  emits m Q -> confined P m ->
  emits m (fun a ops => Q a ops /\ forallb P ops = true).
Proof.
  intros He Hc w. destruct (He w) as (a & w' & Hrun & ops & Ht & HQ).
  destruct (Hc _ _ _ Hrun) as (ops' & Ht' & HP).
  rewrite Ht in Ht'. apply app_inv_head in Ht'. subst ops'.
  exists a, w'. split; [exact Hrun |]. exists ops. auto.
Qed.

Lemma avoids_count cmds c ops :
  forallb (avoids cmds) ops = true -> In c cmds -> count_cmd c ops = 0%nat.
Proof.
  intros H Hin. unfold count_cmd.
  induction ops as [| e ops IH]; [reflexivity |].
  cbn in H. apply andb_true_iff in H as [He H].
  cbn. destruct e; cbn; auto.
  destruct (Z.eqb_spec tdi c) as [-> | Hne]; cbn; auto.
  exfalso. cbn in He. apply negb_true_iff in He.
  assert (Hex : existsb (Z.eqb c) cmds = true).
  { apply existsb_exists. exists c. split; [exact Hin | apply Z.eqb_refl]. }
  congruence.
Qed.

Lemma not_timeout_sound ops :
  forallb not_timeout ops = true -> ~ timed_out ops.
Proof.
  unfold timed_out. induction ops as [| e ops IH]; cbn; [tauto |].
  intros H. apply andb_true_iff in H as [He H].
  intros [-> | Hin]; [discriminate | exact (IH H Hin)].
Qed.

Ltac confine_step :=
  lazymatch goal with
  | |- confined _ (ret _) => apply confined_ret
  | |- confined _ (emit _) => apply confined_emit; reflexivity
  | |- confined _ (shiftDR_rx _ _ _) =>
      apply confined_shiftDR_rx; intros; reflexivity
  | |- confined _ (setClkFreq _) => apply confined_setClkFreq; reflexivity
  | |- confined _ getClkFreq => apply confined_getClkFreq
  | |- confined _ (when _ _) => apply confined_when
  | |- confined _ (loop _ _ _) => apply confined_loop; intros ?
  | |- confined _ (bind _ _) => apply confined_bind; [| intros ?]
  | |- confined _ (if ?c then _ else _) => destruct c
  | |- confined _ (match ?x with _ => _ end) => destruct x
  end.

Ltac confine :=
  repeat (cbv beta zeta; confine_step).


Ltac unfold_methods :=
  unfold programSRAM, programFlash, eraseFLASH, eraseFLASH_body,
    erase_pulse_body, eraseSRAM, writeSRAM, writeSRAM_body, writeFLASH,
    writeFLASH_page, writeFLASH_word, checkCRC, enableCfg, disableCfg,
    pollFlag, pollFlag_body, sendClkUs, reset, readStatusReg, readUserCode,
    readReg32, send_command, displayReadReg, shiftIR, shiftDR_tx, toggleClk,
    set_state, flush, usleep.

Section Never.

Variable hw : nat -> list Z.
Variable g : Gowin.

Lemma programSRAM_confined fs :
  confined (avoids [EFLASH_ERASE; EF_PROGRAM]) (programSRAM hw g fs).
Proof. unfold_methods. confine. Qed.

Lemma writeSRAM_no_timeout fs data length :
  confined not_timeout (writeSRAM hw g fs data length).
Proof. unfold_methods. confine. Qed.

Lemma checkCRC_no_timeout fs : confined not_timeout (checkCRC hw fs).
Proof. unfold_methods. confine. Qed.

Lemma verbose_dump_no_timeout b prefix :
  confined not_timeout
    (when b (st <- readStatusReg hw ;; displayReadReg prefix st)).
Proof. unfold_methods. confine. Qed.

Lemma eraseFLASH_confined :
  confined (avoids [EF_PROGRAM; XFER_WRITE; INIT_ADDR]) (eraseFLASH hw g).
Proof. unfold_methods. confine. Qed.

End Never.

Section SramProgram.

Variable hw : nat -> list Z.
Variable g : Gowin.

Lemma forallb_register ops :
  forallb (fun e => is_register_event e && not_timeout e) ops = true ->
  Forall (fun e => is_register_event e = true) ops /\ ~ timed_out ops.
Proof.
  intros H. split.
  - apply Forall_forall. intros e He.
    rewrite forallb_forall in H. apply H in He.
    apply andb_true_iff in He. tauto.
  - apply not_timeout_sound. rewrite forallb_forall in *.
    intros e He. apply H in He. apply andb_true_iff in He. tauto.
Qed.

Lemma checkCRC_register fs :
  confined (fun e => is_register_event e && not_timeout e) (checkCRC hw fs).
Proof. unfold_methods. confine. Qed.

Lemma emits_gw5a_workaround b :
  emits (when b (reset ;; set_state RUN_TEST_IDLE ;; toggleClk 1000000))
    (fun _ ops => payload_shifts ops = [] /\ ~ timed_out ops).
Proof.
  apply emits_exact. intros w. destruct b.
  - eexists tt, _. split.
    + unfold when, reset, send_command, shiftIR, set_state, toggleClk, bind,
        emit, ret. cbn. rewrite <- !app_assoc. reflexivity.
    + split; [reflexivity | solve_timeout].
  - exists tt, []. split.
    + cbn. rewrite app_nil_r. destruct w; reflexivity.
    + split; [reflexivity | solve_timeout].
Qed.

(** [programSRAM]: the image is loaded whole or not at all, and only when
    no poll timed out. *)
Lemma emits_programSRAM fs :
  0 <= img_length fs ->
  emits (programSRAM hw g fs) (fun _ ops =>
    payload_shifts ops = []
    \/ payload_shifts ops = chunks_of (img_length fs) /\ ~ timed_out ops).
Proof.
  intros Hlen. unfold programSRAM.
  ebind emits_verbose_dump. intros [] o1 (R1 & T1).
  ebind emits_gw5a_workaround. intros [] o2 (P2 & T2).
  ebind emits_eraseSRAM. intros ok o3 (R3 & H3).
  pose proof (register_events_no_payload o1 R1) as P1.
  pose proof (register_events_no_payload o3 R3) as P3.
  destruct ok; cbn [negb].
  - destruct H3 as [(_ & Hf) | (T3 & _)]; [discriminate |].
    eapply emits_bind.
    { apply emits_confined;
        [apply emits_writeSRAM, Hlen | apply writeSRAM_no_timeout]. }
    intros ok o4 ((P4 & _) & T4). apply not_timeout_sound in T4.
    destruct ok; cbn [negb].
    + eapply emits_bind.
      { apply emits_when with (P := fun ops =>
          Forall (fun e => is_register_event e = true) ops /\ ~ timed_out ops).
        eapply emits_weaken.
        - apply emits_confined;
            [apply total_checkCRC | apply checkCRC_register].
        - intros [] ops (_ & H). apply forallb_register, H. }
      intros [] o5 H5.
      assert (H5' : payload_shifts o5 = [] /\ ~ timed_out o5).
      { destruct (negb (skip_checksum g)).
        - destruct H5 as (R5 & T5).
          split; [apply register_events_no_payload, R5 | exact T5].
        - subst o5. split; [reflexivity | solve_timeout]. }
      destruct H5' as (P5 & T5).
      eapply emits_weaken; [apply emits_verbose_dump |].
      intros [] o6 (R6 & T6).
      pose proof (register_events_no_payload o6 R6) as P6.
      right. split.
      * rewrite !payload_shifts_app, P1, P2, P3, P4, P5, P6.
        cbn; rewrite ?app_nil_r; reflexivity.
      * rewrite !timed_out_app. tauto.
    + apply emits_ret. rewrite app_nil_r. right. split.
      * rewrite !payload_shifts_app, P1, P2, P3, P4.
        cbn; rewrite ?app_nil_r; reflexivity.
      * rewrite !timed_out_app. tauto.
  - apply emits_ret. left.
    rewrite !payload_shifts_app, P1, P2, P3. reflexivity.
Qed.

End SramProgram.

(** X11. [programSRAM] returns from every world. It never sends the flash
    erase or the flash program command, and it loads the image whole or not
    at all: either no payload chunk is shifted, or the chunks are those of
    the whole image and no status poll timed out. *)
Theorem programSRAM_all_or_nothing hw g fs w :
  0 <= img_length fs ->
  exists w' ops,
    programSRAM hw g fs w = Some (tt, w') /\
    trace w' = trace w ++ ops /\
    count_cmd EFLASH_ERASE ops = 0%nat /\
    count_cmd EF_PROGRAM ops = 0%nat /\
    (payload_shifts ops = []
     \/ payload_shifts ops = chunks_of (img_length fs) /\ ~ timed_out ops).
Proof.
  intros Hlen.
  destruct (emits_confined _ _ _ (emits_programSRAM hw g fs Hlen)
              (programSRAM_confined hw g fs) w)
    as ([] & w' & Hrun & ops & Ht & Hp & Hc).
  exists w', ops.
  split; [exact Hrun |]. split; [exact Ht |].
  split; [apply (avoids_count _ _ _ Hc); cbn; auto |].
  split; [apply (avoids_count _ _ _ Hc); cbn; auto | exact Hp].
Qed.

Lemma programSRAM_all_or_nothing_witness :
  exists w' ops,
    programSRAM (hw_const 0) (session0 0x0900281B) (mkImage [1; 2; 3] 20 [] 0)
                (world0 0x0900281B) = Some (tt, w') /\
    trace w' = trace (world0 0x0900281B) ++ ops /\
    count_cmd EFLASH_ERASE ops = 0%nat /\
    count_cmd EF_PROGRAM ops = 0%nat /\
    (payload_shifts ops = []
     \/ payload_shifts ops
        = chunks_of (img_length (mkImage [1; 2; 3] 20 [] 0)) /\
        ~ timed_out ops).
Proof.
  apply (programSRAM_all_or_nothing (hw_const 0) (session0 0x0900281B)
           (mkImage [1; 2; 3] 20 [] 0) (world0 0x0900281B)).
  simpl. lia.
Defined.

Section FlashErase.

Variable hw : nat -> list Z.
Variable g : Gowin.

Lemma readStatusReg_run w :
  readStatusReg hw w
  = Some (status_at hw (reads w),
          mkWorld (target_device_id w) (S (reads w)) (clkfreq w)
            (trace w ++ [ShiftIR STATUS_REGISTER 8; ToggleClk 5;
                         ShiftDR (word_bytes 0xffffffff)
                                 (Some (capture 4 (hw (reads w)))) 32 None])).
Proof.
  unfold readStatusReg, readReg32, send_command, shiftIR, toggleClk,
    shiftDR_rx, bind, emit, ret. cbn. rewrite <- !app_assoc. reflexivity.
Qed.

(** With no valid configuration in the device, [eraseFLASH] goes straight
    to the flash. *)
Lemma eraseFLASH_skips_sram w r w' :
  Z.land (status_at hw (reads w)) STATUS_GOWIN_VLD = 0 ->
  eraseFLASH hw g w = Some (r, w') ->
  exists ops, trace w' = trace w ++ ops /\
              forallb (avoids [ERASE_SRAM]) ops = true.
Proof.
  intros Hvld. unfold eraseFLASH. unfold bind at 1.
  rewrite readStatusReg_run, Hvld. cbn [Z.eqb negb].
  set (w1 := mkWorld _ _ _ _).
  intros Hrun.
  assert (Hc : confined (avoids [ERASE_SRAM])
    (ok <- ret true ;;
     if negb ok then ret false
     else
       emit (PrintInfo "Erase FLASH ") ;;
       r <- loop 101 (eraseFLASH_body hw g) 0 ;;
       match r with
       | Some b => ret b
       | None =>
           st <- readStatusReg hw ;;
           if negb (Z.land st STATUS_DONE_FINAL =? 0) then
             emit (PrintError "FAIL") ;; ret false
           else
             emit (PrintSuccess "DONE") ;; ret true
       end)).
  { unfold_methods. confine. }
  destruct (Hc _ _ _ Hrun) as (ops & Ht & Hf).
  eexists (_ ++ ops). split.
  - rewrite Ht. subst w1. cbn [trace]. rewrite <- app_assoc. reflexivity.
  - rewrite forallb_app, Hf. reflexivity.
Qed.

End FlashErase.

(** X12. [eraseFLASH] returns from every world without ever sending the
    flash program command or the commands that open an SRAM load; and when
    the first status read shows no valid configuration (Gowin-VLD cleared)
    it does not send the SRAM erase command either. *)
Theorem eraseFLASH_never_programs hw g w :
  exists r w' ops,
    eraseFLASH hw g w = Some (r, w') /\
    trace w' = trace w ++ ops /\
    count_cmd EF_PROGRAM ops = 0%nat /\
    count_cmd XFER_WRITE ops = 0%nat /\
    count_cmd INIT_ADDR ops = 0%nat /\
    (Z.land (status_at hw (reads w)) STATUS_GOWIN_VLD = 0 ->
     count_cmd ERASE_SRAM ops = 0%nat).
Proof.
  destruct (emits_confined _ _ _ (emits_eraseFLASH hw g)
              (eraseFLASH_confined hw g) w)
    as (r & w' & Hrun & ops & Ht & _ & Hc).
  exists r, w', ops.
  split; [exact Hrun |]. split; [exact Ht |].
  split; [apply (avoids_count _ _ _ Hc); cbn; auto |].
  split; [apply (avoids_count _ _ _ Hc); cbn; auto |].
  split; [apply (avoids_count _ _ _ Hc); cbn; auto |].
  intros Hvld.
  destruct (eraseFLASH_skips_sram hw g w r w' Hvld Hrun) as (ops' & Ht' & Hf).
  rewrite Ht in Ht'. apply app_inv_head in Ht'. subst ops'.
  apply (avoids_count _ _ _ Hf). cbn. auto.
Qed.

(** ** SPI over boundary scan: transfers *)

Lemma store_middle (a b : list Z) x v n :
  n = List.length a -> store (a ++ x :: b) n v = a ++ v :: b.
Proof.
  intros ->.
  induction a as [| h a IH]; cbn; [reflexivity | rewrite IH; reflexivity].
Qed.

Lemma firstn_snoc {A} (l : list A) n d :
  (n < List.length l)%nat -> firstn (S n) l = firstn n l ++ [nth n l d].
Proof.
  revert n. induction l as [| h l IH]; intros n Hn; cbn in Hn; [lia |].
  destruct n as [| n]; [reflexivity |].
  cbn [firstn nth app]. f_equal. apply IH. lia.
Qed.

Lemma map_nth_seq (l : list Z) (d : nat -> Z) :
  map (fun i => nth i l (d i)) (seq 0 (List.length l)) = l.
Proof.
  apply nth_ext with (d := 0) (d' := 0).
  - rewrite length_map, length_seq. reflexivity.
  - intros n Hn. rewrite length_map, length_seq in Hn.
    rewrite (nth_indep _ 0 (nth 0 l (d 0%nat))) by (rewrite length_map, length_seq; exact Hn).
    rewrite (map_nth (fun i => nth i l (d i)) (seq 0 (List.length l)) 0%nat n).
    rewrite seq_nth by exact Hn. cbn. apply nth_indep. exact Hn.
Qed.

Section SpiAssistedTransmit.

Variable hw : nat -> list Z.
Variable g : Gowin.
Variable uninit : nat -> Z.

Lemma emits_spi_put_gw2a_tx_loop tx len :
  0 <= len < 2 ^ 32 ->
  Z.of_nat (List.length tx) = len ->
  emits (loop SPI_PUT_FUEL (spi_put_gw2a_tx_body uninit tx len len)
              (0, map uninit (seq 0 (Z.to_nat len))))
    (fun jtx idx =>
       jtx = map reverseByte tx /\
       Forall (fun e => is_console e = true) idx /\
       forall b i size, In (Index b i size) idx -> 0 <= i < size).
Proof.
  intros Hlen Htx.
  apply emits_loop with
    (Inv := fun st acc =>
       let i := fst st in
       0 <= i <= len /\
       snd st = map reverseByte (firstn (Z.to_nat i) tx)
                ++ map uninit (seq (Z.to_nat i) (Z.to_nat (len - i))) /\
       Forall (fun e => is_console e = true) acc /\
       forall b j size, In (Index b j size) acc -> 0 <= j < size)
    (mu := fun st => Z.to_nat (len - fst st)).
  - intros [i jtx] acc. cbn [fst snd]. intros (Hi & Hj & Hc & Hb).
    unfold spi_put_gw2a_tx_body.
    destruct (Z.ltb_spec i len) as [Hlt | Hge].
    + ebind emits_emit. intros [] o1 ->.
      ebind emits_emit. intros [] o2 ->.
      apply emits_ret. rewrite app_nil_r. cbn [fst snd].
      assert (Hu : u32 (i + 1) = i + 1) by (apply Z.mod_small; lia).
      rewrite Hu. split; [| lia].
      split; [lia |]. split; [| split].
      * rewrite Hj.
        replace (Z.to_nat (len - i)) with (S (Z.to_nat (len - (i + 1)))) by lia.
        cbn [seq map].
        rewrite store_middle by (rewrite length_map, length_firstn; lia).
        replace (Z.to_nat (i + 1)) with (S (Z.to_nat i)) by lia.
        rewrite (firstn_snoc tx (Z.to_nat i) (uninit (Z.to_nat i))) by lia.
        rewrite map_app, <- app_assoc. reflexivity.
      * apply Forall_app. split; [exact Hc | repeat constructor].
      * intros b j size Hin. rewrite !in_app_iff in Hin. cbn [In] in Hin.
        destruct Hin as [Hin | [[Heq | []] | [Heq | []]]].
        -- exact (Hb _ _ _ Hin).
        -- injection Heq as <- <- <-. lia.
        -- injection Heq as <- <- <-. lia.
    + apply emits_ret. rewrite app_nil_r.
      assert (i = len) by lia. subst i.
      split; [| auto].
      rewrite Hj, Z.sub_diag. cbn [Z.to_nat seq map]. rewrite app_nil_r.
      rewrite firstn_all2 by lia. reflexivity.
  - cbn [fst snd]. split; [lia |]. split; [| split].
    + cbn [Z.to_nat firstn map app]. rewrite Z.sub_0_r. reflexivity.
    + constructor.
    + intros b j size [].
  - cbn [fst]. unfold SPI_PUT_FUEL. lia.
Qed.

Lemma emits_spi_put_gw2a_transmit tx len :
  is_gw2a g = true ->
  0 <= len < 2 ^ 29 ->
  Z.of_nat (List.length tx) = len ->
  emits (spi_put hw g uninit (Some tx) None len) (fun r ops =>
    r = (0, None) /\
    exists idx,
      ops = idx ++ [ShiftIR 0x16 8; ToggleClk 5; SetState EXIT2_DR;
                    ShiftDR (map reverseByte tx) None (8 * len) None] /\
      Forall (fun e => is_console e = true) idx /\
      forall b i size, In (Index b i size) idx -> 0 <= i < size).
Proof.
  intros Hg Hlen Htx. unfold spi_put. rewrite Hg. unfold spi_put_gw2a.
  cbv zeta.
  eapply emits_bind; [apply emits_spi_put_gw2a_tx_loop; [lia | exact Htx] |].
  intros jtx idx (-> & Hc & Hb).
  ebind emits_send_command. intros ok o2 (-> & ->). cbn [negb].
  unfold set_state. ebind emits_emit. intros [] o3 ->.
  unfold shiftDR_tx. ebind emits_emit. intros [] o4 ->.
  apply emits_ret. rewrite app_nil_r.
  split; [reflexivity |]. exists idx.
  split; [| auto].
  cbn [app]. do 4 f_equal.
  assert (Hu : u32 (8 * len) = 8 * len) by (apply Z.mod_small; lia).
  rewrite Hu. f_equal.
  unfold nbytes.
  replace ((8 * len + 7) / 8) with len
    by (replace (8 * len + 7) with (len * 8 + 7) by lia;
        rewrite Z.div_add_l by lia; change (7 / 8) with 0; lia).
  replace (Z.to_nat len) with (List.length (map reverseByte tx))
    by (rewrite length_map; lia).
  rewrite map_nth_seq. reflexivity.
Qed.

End SpiAssistedTransmit.

(** X13. On the shift-register-assisted path a transmit-only [spi_put] (null
    receive buffer) of [len] bytes, [len] below 2^29, stays inside its
    arrays and its caller's buffer, returns 0, and sends the bytes of [tx],
    each with its bits reversed, in one data-register shift of [8 * len]
    bits after command 0x16. *)
Theorem spi_put_gw2a_transmit hw g uninit tx len w :
  is_gw2a g = true ->
  0 <= len < 2 ^ 29 ->
  Z.of_nat (List.length tx) = len ->
  exists w' idx,
    spi_put hw g uninit (Some tx) None len w = Some ((0, None), w') /\
    trace w'
    = trace w ++ idx
      ++ [ShiftIR 0x16 8; ToggleClk 5; SetState EXIT2_DR;
          ShiftDR (map reverseByte tx) None (8 * len) None] /\
    Forall (fun e => is_console e = true) idx /\
    forall b i size, In (Index b i size) idx -> 0 <= i < size.
Proof.
  intros Hg Hlen Htx.
  destruct (emits_spi_put_gw2a_transmit hw g uninit tx len Hg Hlen Htx w)
    as (r & w' & Hrun & ops & Ht & -> & idx & -> & Hc & Hb).
  exists w', idx. auto.
Qed.

Lemma spi_put_gw2a_transmit_witness :
  exists w' idx,
    spi_put (hw_const 0) session_gw2a zero_junk (Some [0x06; 0x9f]) None 2
            (world0 0x0000081b) = Some ((0, None), w') /\
    trace w'
    = trace (world0 0x0000081b) ++ idx
      ++ [ShiftIR 0x16 8; ToggleClk 5; SetState EXIT2_DR;
          ShiftDR (map reverseByte [0x06; 0x9f]) None (8 * 2) None] /\
    Forall (fun e => is_console e = true) idx /\
    forall b i size, In (Index b i size) idx -> 0 <= i < size.
Proof.
  apply (spi_put_gw2a_transmit (hw_const 0) session_gw2a zero_junk
           [0x06; 0x9f] 2 (world0 0x0000081b)).
  - reflexivity.
  - lia.
  - reflexivity.
Defined.

Lemma spi_clocked_bits_app g a b :
  spi_clocked_bits g (a ++ b) = spi_clocked_bits g a ++ spi_clocked_bits g b.
Proof. apply flat_map_app. Qed.

Lemma bytes_of_byte_bits x rest :
  is_byte x ->
  bytes_of_bits (byte_bits x ++ rest) = x :: bytes_of_bits rest.
Proof.
  intros Hx.
  change (bytes_of_bits (byte_bits x ++ rest))
    with (fold_left (fun a (b : bool) => 2 * a + Z.b2z b) (byte_bits x) 0
          :: bytes_of_bits rest).
  f_equal.
  apply Z.eqb_eq.
  revert x Hx.
  apply (forall_bytes (fun x =>
    fold_left (fun a (b : bool) => 2 * a + Z.b2z b) (byte_bits x) 0 =? x)).
  vm_compute. reflexivity.
Qed.

Lemma bytes_of_bits_flat_map l :
  Forall is_byte l -> bytes_of_bits (flat_map byte_bits l) = l.
Proof.
  induction 1 as [| x l Hx _ IH]; [reflexivity |].
  cbn [flat_map]. rewrite bytes_of_byte_bits by exact Hx. rewrite IH.
  reflexivity.
Qed.

Section SpiBitBang.

Variable hw : nat -> list Z.
Variable g : Gowin.
Variable uninit : nat -> Z.

Hypothesis Hpins : pins_installed g.

Lemma emits_spi_gowin_write wr rd len :
  emits (spi_gowin_write hw wr rd len) (fun _ ops =>
    exists tdo, ops = [ShiftDR wr tdo len None; ToggleClk 6]).
Proof.
  intros w. unfold spec.
  destruct rd;
    unfold spi_gowin_write, shiftDR_rx, shiftDR_tx, toggleClk, bind, emit, ret;
    cbn; eexists _, _; (split; [reflexivity |]); cbn [trace];
    eexists; (split; [rewrite <- app_assoc; reflexivity |]);
    eexists; reflexivity.
Qed.

(** One bit on the wire: the vector with the clock low is not sampled, the
    one with the clock high carries the bit. *)
Lemma clocked_bit (bit : bool) tdo1 tdo2 :
  let t0 := Z.lor (_spi_msk g) (_spi_do g) in
  let t1 := if bit then u8 (Z.lor t0 (_spi_di g)) else t0 in
  spi_clocked_bits g
    ([ShiftDR [t1] tdo1 8 None; ToggleClk 6]
     ++ [ShiftDR [u8 (Z.lor t1 (_spi_sck g))] tdo2 8 None; ToggleClk 6]
     ++ [Flush])
  = [bit].
Proof.
  unfold spi_clocked_bits. cbn [app flat_map].
  destruct Hpins as [E | E]; injection E as -> -> -> -> ->;
    destruct bit; reflexivity.
Qed.

Lemma clocked_select tdo :
  spi_clocked_bits g
    [ShiftDR [u8 (Z.land (Z.lor (_spi_msk g) (_spi_do g))
                         (Z.lnot (_spi_cs g)))] tdo 8 None;
     ToggleClk 6]
  = [].
Proof.
  unfold spi_clocked_bits. cbn [flat_map].
  destruct Hpins as [E | E]; injection E as -> -> -> -> ->; reflexivity.
Qed.

Lemma clocked_release t tdo :
  spi_clocked_bits g
    [ShiftDR [u8 (Z.lor (u8 (Z.land t (Z.lnot (_spi_sck g)))) (_spi_cs g))]
             tdo 8 None;
     ToggleClk 6]
  = [].
Proof.
  pose proof (released_vector g t Hpins) as H. cbv zeta in H.
  apply andb_true_iff in H as [Hcs _]. apply negb_true_iff in Hcs.
  unfold spi_clocked_bits. cbn [flat_map]. rewrite Hcs. reflexivity.
Qed.

(** The eight rounds of the bit loop clock out the bits of byte [l] of
    [tx], from the most significant down. *)
Lemma emits_spi_put_bits tx l t rx :
  emits (loop 9 (spi_put_bit_body hw g uninit (Some tx) l) (0, 0x80, t, rx))
    (fun _ ops =>
       spi_clocked_bits g ops = byte_bits (nth (Z.to_nat l) tx (uninit (Z.to_nat l)))).
Proof.
  set (x := nth (Z.to_nat l) tx (uninit (Z.to_nat l))).
  apply emits_loop with
    (Inv := fun st acc =>
       let b := fst (fst (fst st)) in
       let bm := snd (fst (fst st)) in
       exists k, (k <= 8)%nat /\ b = Z.of_nat k /\
                 bm = nth k bit_masks 0 /\
                 spi_clocked_bits g acc
                 = map (fun bm => negb (Z.land x bm =? 0)) (firstn k bit_masks))
    (mu := fun st => Z.to_nat (8 - fst (fst (fst st)))).
  - intros [[[b bm] t'] rx'] acc. cbn [fst snd].
    intros (k & Hk & -> & -> & Hacc).
    unfold spi_put_bit_body. fold x.
    destruct (Z.ltb_spec (Z.of_nat k) 8) as [Hlt | Hge].
    + cbv zeta.
      ebind emits_spi_gowin_write. intros _ o1 (tdo1 & ->).
      ebind emits_spi_gowin_write. intros r o2 (tdo2 & ->).
      unfold flush. ebind emits_emit. intros [] o3 ->.
      apply emits_ret. rewrite app_nil_r. cbn [fst snd].
      assert (Hu : u8 (Z.of_nat k + 1) = Z.of_nat k + 1)
        by (apply Z.mod_small; lia).
      rewrite Hu. split; [| lia].
      exists (S k). split; [lia |]. split; [lia |].
      split.
      { do 8 (destruct k as [| k]; [reflexivity |]). lia. }
      rewrite spi_clocked_bits_app, Hacc.
      rewrite (clocked_bit (negb (Z.land x (nth k bit_masks 0) =? 0))).
      assert (Hk' : (k < List.length bit_masks)%nat) by (cbn; lia).
      rewrite (firstn_snoc bit_masks k 0 Hk'), map_app. reflexivity.
    + apply emits_ret. rewrite app_nil_r.
      assert (k = 8%nat) by lia. subst k. exact Hacc.
  - cbn [fst snd]. exists 0%nat. repeat split; lia.
  - cbn [fst]. lia.
Qed.

(** The byte loop clocks out [tx], byte after byte. *)
Lemma emits_spi_put_bytes tx len t0 rx0 :
  0 <= len < 2 ^ 32 ->
  Z.of_nat (List.length tx) = len ->
  emits (loop SPI_PUT_FUEL (spi_put_byte_body hw g uninit (Some tx) len)
              (0, t0, rx0))
    (fun _ ops => spi_clocked_bits g ops = flat_map byte_bits tx).
Proof.
  intros Hlen Htx.
  apply emits_loop with
    (Inv := fun st acc =>
       let l := fst (fst st) in
       0 <= l <= len /\
       spi_clocked_bits g acc = flat_map byte_bits (firstn (Z.to_nat l) tx))
    (mu := fun st => Z.to_nat (len - fst (fst st))).
  - intros [[l t] rx] acc. cbn [fst snd]. intros (Hl & Hacc).
    unfold spi_put_byte_body.
    destruct (Z.ltb_spec l len) as [Hlt | Hge].
    + cbv zeta.
      eapply emits_bind; [apply emits_spi_put_bits |].
      intros [t' rx'] o1 H1. apply emits_ret. rewrite app_nil_r.
      cbn [fst snd].
      assert (Hu : u32 (l + 1) = l + 1) by (apply Z.mod_small; lia).
      rewrite Hu. split; [| lia]. split; [lia |].
      rewrite spi_clocked_bits_app, Hacc, H1.
      replace (Z.to_nat (l + 1)) with (S (Z.to_nat l)) by lia.
      rewrite (firstn_snoc tx (Z.to_nat l) (uninit (Z.to_nat l))) by lia.
      rewrite flat_map_app. cbn [flat_map]. rewrite app_nil_r. reflexivity.
    + apply emits_ret. rewrite app_nil_r.
      rewrite Hacc, firstn_all2 by lia. reflexivity.
  - cbn [fst snd]. split; [lia | reflexivity].
  - cbn [fst]. unfold SPI_PUT_FUEL. lia.
Qed.

(** The bit-bang [spi_put] as a whole: select, the bytes, release. *)
Lemma emits_spi_put_legacy tx rx len :
  is_gw2a g = false ->
  0 <= len < 2 ^ 32 ->
  Z.of_nat (List.length tx) = len ->
  emits (spi_put hw g uninit (Some tx) rx len) (fun r ops =>
    fst r = 0 /\
    spi_clocked_bits g ops = flat_map byte_bits tx /\
    exists pre t,
      ops = pre ++ [ShiftDR [u8 (Z.lor (u8 (Z.land t (Z.lnot (_spi_sck g))))
                                       (_spi_cs g))] None 8 None;
                    ToggleClk 6; Flush]).
Proof.
  intros Hg Hlen Htx. unfold spi_put. rewrite Hg. unfold spi_put_legacy.
  cbv zeta.
  ebind emits_spi_gowin_write. intros _ o1 (tdo1 & ->).
  unfold flush. ebind emits_emit. intros [] o2 ->.
  eapply emits_bind; [apply emits_spi_put_bytes; assumption |].
  intros [t rx'] o3 H3.
  eapply emits_bind.
  { apply emits_exact with (P := fun _ ops =>
      ops = [ShiftDR [u8 (Z.lor (u8 (Z.land t (Z.lnot (_spi_sck g))))
                                (_spi_cs g))] None 8 None; ToggleClk 6]).
    intros w. eexists _, _. split; [| reflexivity].
    unfold spi_gowin_write, shiftDR_tx, toggleClk, bind, emit, ret. cbn.
    rewrite <- app_assoc. reflexivity. }
  intros _ o4 ->.
  ebind emits_emit. intros [] o5 ->.
  apply emits_ret. rewrite app_nil_r.
  split; [reflexivity |]. split.
  - rewrite !spi_clocked_bits_app, H3, clocked_select.
    change [ShiftDR [u8 (Z.lor (u8 (Z.land t (Z.lnot (_spi_sck g))))
                               (_spi_cs g))] None 8 None; ToggleClk 6]
      with ([ShiftDR [u8 (Z.lor (u8 (Z.land t (Z.lnot (_spi_sck g))))
                                (_spi_cs g))] None 8 None; ToggleClk 6]).
    rewrite clocked_release. cbn. rewrite app_nil_r. reflexivity.
  - exists ([ShiftDR [u8 (Z.land (Z.lor (_spi_msk g) (_spi_do g))
                                 (Z.lnot (_spi_cs g)))] tdo1 8 None;
             ToggleClk 6] ++ [Flush] ++ o3), t.
    rewrite <- !app_assoc. reflexivity.
Qed.

End SpiBitBang.

(** X14. On the bit-bang path, [spi_put] of [len] bytes returns 0; the bits
    it clocks into the flash (data-in sampled on every vector written with
    chip-select low and the clock high), taken eight at a time with the most
    significant first, are the bytes of [tx]; and the last vector it writes
    leaves chip-select high and the clock low. The pins are one of the two
    assignments that the constructor installs. *)
Theorem spi_put_bitbang_transmit hw g uninit tx rx len w :
  pins_installed g ->
  is_gw2a g = false ->
  0 <= len < 2 ^ 32 ->
  Z.of_nat (List.length tx) = len ->
  Forall is_byte tx ->
  exists rx' w' ops,
    spi_put hw g uninit (Some tx) rx len w = Some ((0, rx'), w') /\
    trace w' = trace w ++ ops /\
    bytes_of_bits (spi_clocked_bits g ops) = tx /\
    bus_released g (trace w') = true.
Proof.
  intros Hpins Hg Hlen Htx Hb.
  destruct (emits_spi_put_legacy hw g uninit Hpins tx rx len Hg Hlen Htx w)
    as ([r rx'] & w' & Hrun & ops & Ht & Hr & Hbits & pre & t & Hops).
  cbn [fst] in Hr. subst r.
  exists rx', w', ops.
  split; [exact Hrun |]. split; [exact Ht |]. split.
  - rewrite Hbits. apply bytes_of_bits_flat_map, Hb.
  - unfold bus_released. rewrite Ht, Hops, !last_shift_dr_app.
    cbn [last_shift_dr]. rewrite Z.eqb_refl. cbn [andb].
    apply (released_vector g t Hpins).
Qed.

Lemma spi_put_bitbang_transmit_witness :
  exists rx' w' ops,
    spi_put (hw_const 0) (session0 0x0900281B) zero_junk (Some [0x9f; 0x01])
            None 2 (world0 0x0900281B) = Some ((0, rx'), w') /\
    trace w' = trace (world0 0x0900281B) ++ ops /\
    bytes_of_bits (spi_clocked_bits (session0 0x0900281B) ops) = [0x9f; 0x01] /\
    bus_released (session0 0x0900281B) (trace w') = true.
Proof.
  apply (spi_put_bitbang_transmit (hw_const 0) (session0 0x0900281B)
           zero_junk [0x9f; 0x01] None 2 (world0 0x0900281B)).
  - left. reflexivity.
  - reflexivity.
  - lia.
  - reflexivity.
  - repeat constructor; unfold is_byte; lia.
Defined.

Lemma store_nth_same (l : list Z) i : store l i (nth i l 0) = l.
Proof.
  revert i. induction l as [| h l IH]; intros [| i]; cbn; try reflexivity.
  rewrite IH. reflexivity.
Qed.

Lemma store_store (l : list Z) i v v' : store (store l i v) i v' = store l i v'.
Proof.
  revert i. induction l as [| h l IH]; intros [| i]; cbn; try reflexivity.
  rewrite IH. reflexivity.
Qed.

Lemma nth_store (l : list Z) i v :
  (i < List.length l)%nat -> nth i (store l i v) 0 = v.
Proof.
  revert i. induction l as [| h l IH]; intros [| i] Hi; cbn in *; try lia.
  apply IH. lia.
Qed.

Lemma length_store (l : list Z) i v : List.length (store l i v) = List.length l.
Proof.
  revert i. induction l as [| h l IH]; intros [| i]; cbn; try reflexivity.
  rewrite IH. reflexivity.
Qed.

Lemma store_app_skipn (a buf : list Z) n v :
  n = List.length a -> (n < List.length buf)%nat ->
  store (a ++ skipn n buf) n v = (a ++ [v]) ++ skipn (S n) buf.
Proof.
  intros -> Hn.
  assert (H : exists x, skipn (List.length a) buf = x :: skipn (S (List.length a)) buf).
  { clear v. revert buf Hn. generalize (List.length a) as n. clear a.
    induction n as [| n IH]; intros [| h buf] Hn; cbn in Hn; try lia.
    - eexists. reflexivity.
    - cbn [skipn]. apply IH. lia. }
  destruct H as (x & ->).
  rewrite <- app_assoc. cbn [app].
  apply store_middle. reflexivity.
Qed.

Section SpiBitBangRead.

Variable hw : nat -> list Z.
Variable g : Gowin.
Variable uninit : nat -> Z.

Lemma spi_put_bit_step tx l b bm t buf w :
  b < 8 ->
  spec (spi_put_bit_body hw g uninit tx l (b, bm, t, Some buf)) w
    (fun r w' =>
       reads w' = S (reads w) /\
       exists t',
         r = inl (u8 (b + 1), u8 (Z.shiftr bm 1), t',
                  Some (if negb (Z.land (nth 0 (capture 1 (hw (reads w))) 0)
                                        (_spi_do g) =? 0)
                        then store buf (Z.to_nat l)
                                   (u8 (Z.lor (nth (Z.to_nat l) buf 0) bm))
                        else buf))).
Proof.
  intros Hb. unfold spec, spi_put_bit_body.
  destruct (Z.ltb_spec b 8) as [_ | ?]; [| lia].
  unfold spi_gowin_write, shiftDR_rx, shiftDR_tx, toggleClk, flush, bind,
    emit, ret.
  cbn -[capture nbytes Z.lor Z.land Z.shiftr u8 nth store].
  change (nbytes 8) with 1%nat.
  destruct (negb (Z.land (nth 0 (capture 1 (hw (reads w))) 0) (_spi_do g) =? 0));
    eexists _, _; (split; [reflexivity |]); cbn [reads];
    (split; [reflexivity |]); eexists; reflexivity.
Qed.

Lemma spi_put_read_bits tx l n :
  forall b bm t buf w,
    (n <= 8)%nat -> b = 8 - Z.of_nat n ->
    (Z.to_nat l < List.length buf)%nat ->
    spec (iter_nat (spi_put_bit_body hw g uninit tx l) (S n)
                   (b, bm, t, Some buf)) w
      (fun r w' =>
         match r with
         | inl _ => False
         | inr (_, rx') =>
             rx' = Some (store buf (Z.to_nat l)
                               (legacy_bits g hw (reads w) n bm
                                            (nth (Z.to_nat l) buf 0))) /\
             reads w' = (reads w + n)%nat
         end).
Proof.
  induction n as [| n IH]; intros b bm t buf w Hn Hb Hl.
  - cbn [iter_nat]. apply spec_bind.
    unfold spi_put_bit_body.
    destruct (Z.ltb_spec b 8) as [? | _]; [cbn in Hb; lia |].
    apply spec_ret, spec_ret. cbn [legacy_bits].
    rewrite store_nth_same. split; [reflexivity | lia].
  - change (iter_nat (spi_put_bit_body hw g uninit tx l) (S (S n))
                     (b, bm, t, Some buf))
      with (r <- spi_put_bit_body hw g uninit tx l (b, bm, t, Some buf) ;;
            match r with
            | inl s' => iter_nat (spi_put_bit_body hw g uninit tx l) (S n) s'
            | inr x => ret (inr x)
            end).
    apply spec_bind.
    eapply spec_weaken; [apply spi_put_bit_step; lia |].
    intros r w1 (Hr1 & t' & ->).
    assert (Hu : u8 (b + 1) = b + 1) by (apply Z.mod_small; lia).
    rewrite Hu.
    eapply spec_weaken.
    { apply IH; [lia | lia |].
      destruct (negb _); [rewrite length_store |]; exact Hl. }
    intros [s | [t2 rx']] w2; [tauto |].
    intros (-> & Hr2). split; [| lia].
    rewrite Hr1. cbn [legacy_bits]. f_equal.
    destruct (negb (Z.land (nth 0 (capture 1 (hw (reads w))) 0) (_spi_do g) =? 0)).
    + rewrite store_store, nth_store by exact Hl. reflexivity.
    + reflexivity.
Qed.

Lemma spi_put_read_byte tx l t buf w :
  (Z.to_nat l < List.length buf)%nat ->
  spec (loop 9 (spi_put_bit_body hw g uninit tx l)
             (0, 0x80, t, Some (store buf (Z.to_nat l) 0))) w
    (fun r w' =>
       snd r = Some (store buf (Z.to_nat l) (legacy_response g hw (reads w))) /\
       reads w' = (reads w + 8)%nat).
Proof.
  intros Hl.
  destruct (spi_put_read_bits tx l 8 0 0x80 t (store buf (Z.to_nat l) 0) w)
    as ([s | [t' rx']] & w' & Hrun & HQ);
    [lia | reflexivity | rewrite length_store; exact Hl | contradiction |].
  destruct HQ as (-> & Hr).
  exists (t', Some (store (store buf (Z.to_nat l) 0) (Z.to_nat l)
                     (legacy_bits g hw (reads w) 8 128
                        (nth (Z.to_nat l) (store buf (Z.to_nat l) 0) 0)))), w'.
  split.
  - unfold loop, bind. rewrite loop_pos_iter_nat.
    change (Pos.to_nat 9) with 9%nat. rewrite Hrun. reflexivity.
  - split; [| exact Hr]. cbn [snd].
    rewrite store_store, nth_store by exact Hl. reflexivity.
Qed.

Lemma spi_put_read_bytes tx len t0 buf0 w0 :
  0 <= len < 2 ^ 32 ->
  len <= Z.of_nat (List.length buf0) ->
  spec (loop SPI_PUT_FUEL (spi_put_byte_body hw g uninit tx len)
             (0, t0, Some buf0)) w0
    (fun r w' =>
       snd r = Some (map (fun j => legacy_response g hw (reads w0 + 8 * j))
                         (seq 0 (Z.to_nat len))
                     ++ skipn (Z.to_nat len) buf0) /\
       reads w' = (reads w0 + 8 * Z.to_nat len)%nat).
Proof.
  intros Hlen Hbuf.
  set (resp := fun j => legacy_response g hw (reads w0 + 8 * j)).
  apply spec_loop with
    (Inv := fun st w =>
       let l := fst (fst st) in
       0 <= l <= len /\
       snd st = Some (map resp (seq 0 (Z.to_nat l)) ++ skipn (Z.to_nat l) buf0) /\
       reads w = (reads w0 + 8 * Z.to_nat l)%nat)
    (mu := fun st => Z.to_nat (len - fst (fst st))).
  - intros [[l t] rx] w. cbn [fst snd]. intros (Hl & -> & Hr).
    unfold spi_put_byte_body.
    destruct (Z.ltb_spec l len) as [Hlt | Hge].
    + cbv zeta. apply spec_bind.
      set (cur := map resp (seq 0 (Z.to_nat l)) ++ skipn (Z.to_nat l) buf0).
      assert (Hcur : (Z.to_nat l < List.length cur)%nat).
      { subst cur. rewrite length_app, length_map, length_seq, length_skipn.
        lia. }
      eapply spec_weaken; [apply spi_put_read_byte, Hcur |].
      intros [t' rx'] w1. cbn [snd]. intros (-> & Hr1).
      apply spec_ret. cbn [fst snd].
      assert (Hu : u32 (l + 1) = l + 1) by (apply Z.mod_small; lia).
      rewrite Hu. split; [| lia]. split; [lia |]. split; [| lia].
      f_equal. subst cur.
      rewrite store_app_skipn
        by (rewrite ?length_map, ?length_seq; lia).
      replace (Z.to_nat (l + 1)) with (S (Z.to_nat l)) by lia.
      rewrite seq_S, map_app. cbn [map Nat.add]. unfold resp at 3.
      rewrite Hr. reflexivity.
    + apply spec_ret. cbn [snd].
      assert (l = len) by lia. subst l. auto.
  - cbn [fst snd]. split; [lia |]. split; [reflexivity | lia].
  - cbn [fst]. unfold SPI_PUT_FUEL. lia.
Qed.

Lemma spec_spi_gowin_write_tx wr len w (Q : list Z -> World -> Prop) :
  (forall w', reads w' = reads w -> Q [] w') ->
  spec (spi_gowin_write hw wr false len) w Q.
Proof.
  intros H. eexists _, _. split; [reflexivity |]. apply H. reflexivity.
Qed.

(** The receive side of the bit-bang [spi_put]. *)
Lemma spec_spi_put_legacy_read tx buf len w :
  is_gw2a g = false ->
  0 <= len < 2 ^ 32 ->
  len <= Z.of_nat (List.length buf) ->
  spec (spi_put hw g uninit tx (Some buf) len) w (fun r w' =>
    r = (0, Some (map (fun j => legacy_response g hw (reads w + 8 * j))
                      (seq 0 (Z.to_nat len))
                  ++ skipn (Z.to_nat len) buf)) /\
    reads w' = (reads w + 8 * Z.to_nat len)%nat).
Proof.
  intros Hg Hlen Hbuf.
  unfold spi_put. rewrite Hg. unfold spi_put_legacy. cbv zeta.
  apply spec_bind, spec_spi_gowin_write_tx. intros w1 Hr1.
  apply spec_bind, spec_emit.
  set (w2 := mkWorld _ _ _ _).
  assert (Hr2 : reads w2 = reads w) by exact Hr1.
  clearbody w2.
  apply spec_bind.
  eapply spec_weaken; [apply spi_put_read_bytes; assumption |].
  intros [t rx'] w3. cbn [snd]. intros (-> & Hr3).
  apply spec_bind, spec_spi_gowin_write_tx. intros w4 Hr4.
  apply spec_bind, spec_emit, spec_ret.
  cbn [reads]. rewrite Hr2 in *. split; [reflexivity | lia].
Qed.

End SpiBitBangRead.

(** X15. On the bit-bang path, [spi_put] with a receive buffer of at least
    [len] bytes returns 0 with byte [j] of the buffer, for [j < len],
    assembled from the data-out pin of the eight captures [8 * j] to
    [8 * j + 7] of the call, most significant bit first; the bytes of the
    buffer from [len] on are left as they were; and the call makes
    [8 * len] captures. *)
Theorem spi_put_bitbang_receive hw g uninit tx buf len w :
  is_gw2a g = false ->
  0 <= len < 2 ^ 32 ->
  len <= Z.of_nat (List.length buf) ->
  exists w',
    spi_put hw g uninit tx (Some buf) len w
    = Some ((0, Some (map (fun j => legacy_response g hw (reads w + 8 * j))
                          (seq 0 (Z.to_nat len))
                      ++ skipn (Z.to_nat len) buf)), w') /\
    reads w' = (reads w + 8 * Z.to_nat len)%nat.
Proof.
  intros Hg Hlen Hbuf.
  destruct (spec_spi_put_legacy_read hw g uninit tx buf len w Hg Hlen Hbuf)
    as (r & w' & Hrun & -> & Hr).
  exists w'. auto.
Qed.

Lemma spi_put_bitbang_receive_witness :
  exists w',
    spi_put (hw_const 0xff) (session0 0x0900281B) zero_junk None
            (Some [0; 0; 7]) 2 (world0 0x0900281B)
    = Some ((0, Some (map (fun j =>
                             legacy_response (session0 0x0900281B)
                               (hw_const 0xff)
                               (reads (world0 0x0900281B) + 8 * j))
                          (seq 0 (Z.to_nat 2))
                      ++ skipn (Z.to_nat 2) [0; 0; 7])), w') /\
    reads w' = (reads (world0 0x0900281B) + 8 * Z.to_nat 2)%nat.
Proof.
  apply (spi_put_bitbang_receive (hw_const 0xff) (session0 0x0900281B)
           zero_junk None [0; 0; 7] 2 (world0 0x0900281B)).
  - reflexivity.
  - lia.
  - simpl. lia.
Defined.

Lemma memcpy_all (dst src : list Z) n :
  List.length dst = n -> List.length src = n -> memcpy dst src n = src.
Proof.
  intros Hd Hs. unfold memcpy.
  rewrite skipn_all2 by lia. rewrite app_nil_r.
  subst n. rewrite <- Hs. apply (map_nth_seq src (fun _ => 0)).
Qed.

Section SpiCommand.

Variable hw : nat -> list Z.
Variable g : Gowin.
Variable uninit : nat -> Z.

(** The frame that [spi_put(cmd, tx, rx, len)] hands on: the command byte
    and then the data, or [len] zero bytes when there is none. *)
Lemma spi_put_cmd_frame cmd (tx : option (list Z)) n :
  (forall t, tx = Some t -> List.length t = n) ->
  cmd :: match tx with
         | Some tx => memcpy (map uninit (seq 1 n)) tx n
         | None => memset n 0
         end
  = cmd :: match tx with Some t => t | None => repeat 0 n end.
Proof.
  intros Htx. f_equal. destruct tx as [t |]; [| reflexivity].
  apply memcpy_all; [rewrite length_map, length_seq; reflexivity |].
  apply Htx. reflexivity.
Qed.

Hypothesis Hpins : pins_installed g.

Lemma emits_spi_put_cmd cmd tx rx len :
  is_gw2a g = false ->
  0 <= len < 2 ^ 32 - 1 ->
  (forall t, tx = Some t -> Z.of_nat (List.length t) = len) ->
  emits (spi_put_cmd hw g uninit cmd tx rx len) (fun r ops =>
    fst r = 0 /\
    spi_clocked_bits g ops
    = flat_map byte_bits
        (cmd :: match tx with
                | Some t => t
                | None => repeat 0 (Z.to_nat len)
                end) /\
    exists pre t,
      ops = pre ++ [ShiftDR [u8 (Z.lor (u8 (Z.land t (Z.lnot (_spi_sck g))))
                                       (_spi_cs g))] None 8 None;
                    ToggleClk 6; Flush]).
Proof.
  intros Hg Hlen Htx. unfold spi_put_cmd. cbv zeta.
  rewrite spi_put_cmd_frame by (intros t Ht; apply Htx in Ht; lia).
  assert (Hu : u32 (len + 1) = len + 1) by (apply Z.mod_small; lia).
  rewrite Hu.
  eapply emits_bind.
  { apply (emits_spi_put_legacy hw g uninit Hpins); [exact Hg | lia |].
    cbn [List.length]. destruct tx as [t |].
    - specialize (Htx t eq_refl). lia.
    - rewrite repeat_length. lia. }
  intros [code jrx] o1 (Hc & Hbits & Hrel). cbn [fst] in Hc. subst code.
  apply emits_ret. rewrite app_nil_r.
  split; [reflexivity |]. split; [exact Hbits | exact Hrel].
Qed.

End SpiCommand.

(** X16. On the bit-bang path, [spi_put(cmd, tx, rx, len)] returns 0 and
    clocks into the flash the command byte followed by the [len] bytes of
    [tx], or by [len] zero bytes when [tx] is null; the last vector it
    writes leaves chip-select high and the clock low. *)
Theorem spi_put_cmd_transmit hw g uninit cmd tx rx len w :
  pins_installed g ->
  is_gw2a g = false ->
  0 <= len < 2 ^ 32 - 1 ->
  is_byte cmd ->
  (forall t, tx = Some t ->
     Z.of_nat (List.length t) = len /\ Forall is_byte t) ->
  exists rx' w' ops,
    spi_put_cmd hw g uninit cmd tx rx len w = Some ((0, rx'), w') /\
    trace w' = trace w ++ ops /\
    bytes_of_bits (spi_clocked_bits g ops)
    = cmd :: match tx with
             | Some t => t
             | None => repeat 0 (Z.to_nat len)
             end /\
    bus_released g (trace w') = true.
Proof.
  intros Hpins Hg Hlen Hcmd Htx.
  destruct (emits_spi_put_cmd hw g uninit Hpins cmd tx rx len Hg Hlen
              (fun t Ht => proj1 (Htx t Ht)) w)
    as ([r rx'] & w' & Hrun & ops & Ht & Hr & Hbits & pre & t & Hops).
  cbn [fst] in Hr. subst r.
  exists rx', w', ops.
  split; [exact Hrun |]. split; [exact Ht |]. split.
  - rewrite Hbits. apply bytes_of_bits_flat_map.
    constructor; [exact Hcmd |].
    destruct tx as [t' |]; [apply (Htx t' eq_refl) |].
    apply Forall_forall. intros x Hx. apply repeat_spec in Hx. subst x.
    unfold is_byte. lia.
  - unfold bus_released. rewrite Ht, Hops, !last_shift_dr_app.
    cbn [last_shift_dr]. rewrite Z.eqb_refl. cbn [andb].
    apply (released_vector g t Hpins).
Qed.

Lemma spi_put_cmd_transmit_witness :
  exists rx' w' ops,
    spi_put_cmd (hw_const 0) (session0 0x0900281B) zero_junk 0x02
                (Some [0x12; 0x34]) None 2 (world0 0x0900281B)
    = Some ((0, rx'), w') /\
    trace w' = trace (world0 0x0900281B) ++ ops /\
    bytes_of_bits (spi_clocked_bits (session0 0x0900281B) ops)
    = 0x02 :: [0x12; 0x34] /\
    bus_released (session0 0x0900281B) (trace w') = true.
Proof.
  apply (spi_put_cmd_transmit (hw_const 0) (session0 0x0900281B) zero_junk
           0x02 (Some [0x12; 0x34]) None 2 (world0 0x0900281B)).
  - left. reflexivity.
  - reflexivity.
  - lia.
  - unfold is_byte. lia.
  - intros t Ht. injection Ht as <-.
    split; [reflexivity | repeat constructor; unfold is_byte; lia].
Defined.

(** X17. On the bit-bang path, [spi_put(cmd, tx, rx, len)] with a receive
    buffer drops the byte that comes back while the command goes out: byte
    [j] of [rx], for [j < len], is the byte assembled from the captures of
    byte [j + 1] of the transfer; the buffer from [len] on is left as it
    was; and the call makes [8 * (len + 1)] captures. *)
Theorem spi_put_cmd_receive hw g uninit cmd tx buf len w :
  is_gw2a g = false ->
  0 <= len < 2 ^ 32 - 1 ->
  len <= Z.of_nat (List.length buf) ->
  exists w',
    spi_put_cmd hw g uninit cmd tx (Some buf) len w
    = Some ((0, Some (map (fun j => legacy_response g hw (reads w + 8 * S j))
                          (seq 0 (Z.to_nat len))
                      ++ skipn (Z.to_nat len) buf)), w') /\
    reads w' = (reads w + 8 * S (Z.to_nat len))%nat.
Proof.
  intros Hg Hlen Hbuf.
  unfold spi_put_cmd, bind. cbv zeta.
  assert (Hu : u32 (len + 1) = len + 1) by (apply Z.mod_small; lia).
  rewrite Hu.
  set (n := Z.to_nat len).
  set (jtx := cmd :: _).
  destruct (spec_spi_put_legacy_read hw g uninit (Some jtx)
              (map uninit (seq 0 (S n))) (len + 1) w Hg)
    as (r & w' & Hrun & -> & Hr).
  { lia. }
  { rewrite length_map, length_seq. lia. }
  rewrite Hrun. exists w'.
  replace (Z.to_nat (len + 1)) with (S n) in * by lia.
  split; [| exact Hr].
  unfold ret. do 4 f_equal.
  rewrite (skipn_all2 (map uninit (seq 0 (S n))))
    by (rewrite length_map, length_seq; lia).
  rewrite app_nil_r.
  change (seq 0 (S n)) with (0%nat :: seq 1 n).
  cbn [map skipn].
  unfold memcpy. f_equal.
  rewrite <- seq_shift, map_map.
  pose proof (map_nth_seq
                (map (fun j => legacy_response g hw (reads w + 8 * S j))
                     (seq 0 n)) (fun _ => 0)) as E.
  rewrite length_map, length_seq in E. exact E.
Qed.

Lemma spi_put_cmd_receive_witness :
  exists w',
    spi_put_cmd (hw_const 0xff) (session0 0x0900281B) zero_junk 0x9f None
                (Some [0; 0; 7]) 2 (world0 0x0900281B)
    = Some ((0, Some (map (fun j =>
                             legacy_response (session0 0x0900281B)
                               (hw_const 0xff)
                               (reads (world0 0x0900281B) + 8 * S j))
                          (seq 0 (Z.to_nat 2))
                      ++ skipn (Z.to_nat 2) [0; 0; 7])), w') /\
    reads w' = (reads (world0 0x0900281B) + 8 * S (Z.to_nat 2))%nat.
Proof.
  apply (spi_put_cmd_receive (hw_const 0xff) (session0 0x0900281B) zero_junk
           0x9f None [0; 0; 7] 2 (world0 0x0900281B)).
  - reflexivity.
  - lia.
  - simpl. lia.
Defined.

(** ** The dispatch of [program] *)

(** X18. A session constructed without an image file programs nothing:
    [program] returns at once, with no error and without a single event. *)
Theorem program_without_image open_file mcufw open_mcufw prg_type
    external_flash verify verbose quiet skip_checksum0 w0 g w1
    hw uninit new_SPIFlash offset unprotect_flash w :
  Gowin_ctor "" open_file mcufw open_mcufw prg_type external_flash verify
             verbose quiet skip_checksum0 w0
  = Some (inr g, w1) ->
  program hw g uninit new_SPIFlash offset unprotect_flash w
  = Some (inr tt, w).
Proof.
  intros H. apply Gowin_ctor_fields in H. cbv zeta in H.
  destruct H as (_ & _ & _ & _ & _ & _ & _ & _ & Hfs & _).
  cbn in Hfs. unfold program. rewrite Hfs. reflexivity.
Qed.

Lemma program_without_image_witness :
  program (hw_const 0) (session0 0x0900281B) zero_junk
          (fun _ _ => mkSPIFlash (ret tt) (ret tt) (ret tt) (ret 0)
                                 (fun _ => ret tt) (fun _ _ _ => ret 0)
                                 (fun _ _ _ _ => ret true))
          0 false (world0 0x0900281B)
  = Some (inr tt, world0 0x0900281B).
Proof.
  apply (program_without_image None "" None WR_FLASH false false false false
           false (world0 0x0900281B) (session0 0x0900281B)
           (world0 0x0900281B)).
  reflexivity.
Defined.

(** X19. Writing the flash of a GW5A is refused before anything is sent: for
    a session constructed with an image, for flash programming, on one of
    the three GW5A idcodes, [program] raises its error and leaves the
    world as it was. *)
Theorem program_gw5a_flash_refused file_extension open_file mcufw open_mcufw
    external_flash verify verbose quiet skip_checksum0 w0 g w1
    hw uninit new_SPIFlash offset unprotect_flash w :
  file_extension <> ""%string ->
  In (target_device_id w0) [0x0001081b; 0x0001181b; 0x0001281b] ->
  Gowin_ctor file_extension open_file mcufw open_mcufw WR_FLASH external_flash
             verify verbose quiet skip_checksum0 w0
  = Some (inr g, w1) ->
  program hw g uninit new_SPIFlash offset unprotect_flash w
  = Some (inl Gw5aFlashUnsupported, w).
Proof.
  intros He Hid H. apply Gowin_ctor_fields in H. cbv zeta in H.
  destruct H as (_ & _ & _ & H5 & _ & _ & Hmode & _ & Hfs & _).
  apply String.eqb_neq in He. rewrite He in Hfs.
  destruct Hfs as (p & _ & _ & Hfs).
  unfold program. rewrite Hfs, Hmode, H5.
  cbn [In] in Hid.
  destruct Hid as [<- | [<- | [<- | []]]]; reflexivity.
Qed.

Lemma program_gw5a_flash_refused_witness :
  program (hw_const 0)
          (mkGowin (Some (mkImage [1] 8 [] 0)) None FLASH_MODE false false
                   false true true true BSCAN_SPI_SCK BSCAN_SPI_CS
                   BSCAN_SPI_DI BSCAN_SPI_DO BSCAN_SPI_MSK false false false)
          zero_junk
          (fun _ _ => mkSPIFlash (ret tt) (ret tt) (ret tt) (ret 0)
                                 (fun _ => ret tt) (fun _ _ _ => ret 0)
                                 (fun _ _ _ _ => ret true))
          0 false (world0 0x0001281b)
  = Some (inl Gw5aFlashUnsupported, world0 0x0001281b).
Proof.
  apply (program_gw5a_flash_refused "bin"
           (Some (mkParser true (mkImage [1] 8 [] 0))) "" None true false
           false false false (world0 0x0001281b) _
           (mkWorld 0x0001281b 0 2500000
                    [PrintInfo "Parse file "; PrintSuccess "DONE"])).
  - discriminate.
  - cbn. auto.
  - reflexivity.
Defined.

(** X20. A session constructed for loading the SRAM never raises an error
    from [program] and never touches the flash: [program] returns normally
    and its events hold neither the flash erase nor the flash program
    command, whatever the external-flash driver would do. *)
Theorem program_sram_mode file_extension p mcufw open_mcufw prg_type
    external_flash verify verbose quiet skip_checksum0 w0 g w1
    hw uninit new_SPIFlash offset unprotect_flash w :
  file_extension <> ""%string ->
  prg_type <> WR_FLASH ->
  0 <= img_length (parsed p) ->
  Gowin_ctor file_extension (Some p) mcufw open_mcufw prg_type external_flash
             verify verbose quiet skip_checksum0 w0
  = Some (inr g, w1) ->
  exists w' ops,
    program hw g uninit new_SPIFlash offset unprotect_flash w
    = Some (inr tt, w') /\
    trace w' = trace w ++ ops /\
    count_cmd EFLASH_ERASE ops = 0%nat /\
    count_cmd EF_PROGRAM ops = 0%nat.
Proof.
  intros He Hprg Hlen H. apply Gowin_ctor_fields in H. cbv zeta in H.
  destruct H as (_ & _ & _ & _ & _ & _ & Hmode & _ & Hfs & _).
  apply String.eqb_neq in He. rewrite He in Hfs.
  destruct Hfs as (p' & Hp & _ & Hfs). injection Hp as <-.
  assert (Hm : _mode g = MEM_MODE)
    by (rewrite Hmode; destruct prg_type; [reflexivity | contradiction
                                          | reflexivity]).
  unfold program. rewrite Hfs, Hm.
  destruct (emits_confined _ _ _ (emits_programSRAM hw g (parsed p) Hlen)
              (programSRAM_confined hw g (parsed p)) w)
    as ([] & w' & Hrun & ops & Ht & _ & Hc).
  exists w', ops. unfold bind. rewrite Hrun.
  split; [reflexivity |]. split; [exact Ht |].
  split; apply (avoids_count _ _ _ Hc); cbn; auto.
Qed.

Lemma program_sram_mode_witness :
  exists w' ops,
    program (hw_const 0)
            (mkGowin (Some (mkImage [1] 8 [] 0)) None MEM_MODE true false
                     false false true false BSCAN_SPI_SCK BSCAN_SPI_CS
                     BSCAN_SPI_DI BSCAN_SPI_DO BSCAN_SPI_MSK false false false)
            zero_junk
            (fun _ _ => mkSPIFlash (ret tt) (ret tt) (ret tt) (ret 0)
                                   (fun _ => ret tt) (fun _ _ _ => ret 0)
                                   (fun _ _ _ _ => ret true))
            0 false (world0 0x0900281B)
    = Some (inr tt, w') /\
    trace w' = trace (world0 0x0900281B) ++ ops /\
    count_cmd EFLASH_ERASE ops = 0%nat /\
    count_cmd EF_PROGRAM ops = 0%nat.
Proof.
  apply (program_sram_mode "bin" (mkParser true (mkImage [1] 8 [] 0)) "" None
           WR_SRAM true false false false false (world0 0x0900281B) _
           (mkWorld 0x0900281B 0 2500000
                    [PrintInfo "Parse file "; PrintSuccess "DONE"])).
  - discriminate.
  - discriminate.
  - simpl. lia.
  - reflexivity.
Defined.

(** X21. When the device never shows the edit-mode bit, [programExtFlash]
    raises its enable-configuration error after the clock setting, the
    config-enable command and the status polls, the last of which is
    reported as timed out: the SRAM is not erased and the external-flash
    driver is never entered, whatever it is. *)
Theorem programExtFlash_enable_failure hw g new_SPIFlash fs offset
    unprotect_flash w :
  (forall k, Z.land (status_at hw k) STATUS_SYSTEM_EDIT_MODE
             <> STATUS_SYSTEM_EDIT_MODE) ->
  exists w' ops,
    programExtFlash hw g new_SPIFlash fs offset unprotect_flash w
    = Some (inl EnableCfgFailed, w') /\
    trace w'
    = trace w ++ [SetClkFreq 10000000; ShiftIR CONFIG_ENABLE 8; ToggleClk 5]
      ++ ops /\
    Forall (fun e => is_poll_event e = true) ops /\
    timed_out ops.
Proof.
  intros Hnever.
  unfold programExtFlash, enableCfg.
  unfold bind at 1. unfold setClkFreq.
  unfold bind at 1. unfold bind at 1. rewrite send_command_run.
  cbn [target_device_id reads clkfreq trace].
  set (w2 := mkWorld _ _ _ _).
  destruct (emits_pollFlag hw g STATUS_SYSTEM_EDIT_MODE
              STATUS_SYSTEM_EDIT_MODE w2)
    as (r & w' & Hrun & ops & Ht & Hpoll & Hres).
  destruct (pollFlag_never hw g STATUS_SYSTEM_EDIT_MODE
              STATUS_SYSTEM_EDIT_MODE w2 Hnever)
    as (r' & w'' & Hrun' & Hr').
  rewrite Hrun in Hrun'. injection Hrun' as <- <-. subst r.
  rewrite Hrun. cbn [negb].
  exists w', ops.
  split; [reflexivity |]. split.
  - rewrite Ht. subst w2. cbn [trace]. rewrite <- !app_assoc. reflexivity.
  - split; [exact Hpoll | apply Hres; reflexivity].
Qed.

Lemma programExtFlash_enable_failure_witness :
  exists w' ops,
    programExtFlash (hw_const 0) session_gw2a
                    (fun _ _ => mkSPIFlash (ret tt) (ret tt) (ret tt) (ret 0)
                                           (fun _ => ret tt)
                                           (fun _ _ _ => ret 0)
                                           (fun _ _ _ _ => ret true))
                    (mkImage [1] 8 [] 0) 0 false (world0 0x0000081b)
    = Some (inl EnableCfgFailed, w') /\
    trace w'
    = trace (world0 0x0000081b)
      ++ [SetClkFreq 10000000; ShiftIR CONFIG_ENABLE 8; ToggleClk 5]
      ++ ops /\
    Forall (fun e => is_poll_event e = true) ops /\
    timed_out ops.
Proof.
  apply (programExtFlash_enable_failure (hw_const 0) session_gw2a).
  intros k. vm_compute. discriminate.
Defined.

(** ** The internal flash as a whole *)

Section FlashVerdict.

Variable hw : nat -> list Z.
Variable g : Gowin.
Variable uninit : nat -> Z.

(** The page loop returns for every length and prints no timeout. *)
Lemma emits_writeFLASH_loop_quiet page data nbytes xpage0 :
  emits (loop (Z.to_pos (nbytes + 1)) (writeFLASH_page g page data nbytes)
              (0, xpage0))
    (fun _ ops => ~ timed_out ops /\ forall acc, last_capture acc ops = acc).
Proof.
  eapply emits_weaken.
  - apply emits_confined with
      (P := fun e => not_timeout e
                     && match e with ShiftDR _ (Some _) _ _ => false | _ => true end)
      (Q := fun _ _ => True).
    + apply emits_loop with
        (Inv := fun _ _ => True)
        (mu := fun s => Z.to_nat (nbytes - fst s)).
      * intros [off xpage] acc _.
        eapply emits_weaken; [apply total_writeFLASH_page |].
        intros [[off' xp'] | []] ops H; [| exact I].
        cbn [fst]. split; [exact I | lia].
      * exact I.
      * cbn [fst]. destruct nbytes as [| p | p]; simpl; lia.
    + unfold_methods. confine.
  - intros [] ops (_ & H). split.
    + apply not_timeout_sound. rewrite forallb_forall in *.
      intros e He. apply H in He. apply andb_true_iff in He. tauto.
    + induction ops as [| e ops IH]; intros acc; [reflexivity |].
      cbn [forallb] in H. apply andb_true_iff in H as [He H].
      apply andb_true_iff in He as [_ He].
      destruct e as [| tdi [rx |] drlen es | | | | | | | | | | | |];
        try discriminate; cbn [last_capture]; apply IH, H.
Qed.

(** [writeFLASH]: the verdict. *)
Lemma emits_writeFLASH_verdict page data length :
  emits (writeFLASH hw g uninit page data length) (fun r ops =>
    timed_out ops /\ r = false \/
    ~ timed_out ops /\
    exists st, ends_with_read st ops /\ r = done_final st).
Proof.
  unfold writeFLASH. cbv zeta.
  ebind emits_emit. intros [] o1 ->.
  ebind emits_verbose_dump. intros [] o2 (R2 & T2).
  ebind emits_writeFLASH_loop_quiet. intros [] o3 (T3 & _).
  ebind emits_disableCfg. intros ok o4 (R4 & H4).
  destruct ok; cbn [negb].
  2:{ ebind emits_emit. intros [] o5 ->. apply emits_ret.
      left. split; [| reflexivity].
      rewrite !timed_out_app. right. right. right. left.
      apply H4. reflexivity. }
  assert (T4 : ~ timed_out o4) by (intros H; apply H4 in H; discriminate).
  ebind emits_verbose_dump. intros [] o5 (R5 & T5).
  ebind emits_send_command. intros _ o6 (_ & ->).
  ebind emits_send_command. intros _ o7 (_ & ->).
  ebind emits_verbose_dump. intros [] o8 (R8 & T8).
  unfold flush. ebind emits_emit. intros [] o9 ->.
  unfold usleep. ebind emits_emit. intros [] o10 ->.
  ebind emits_verbose_dump. intros [] o11 (R11 & T11).
  eapply emits_weaken.
  { apply emits_final_read with (on_set := true)
      (e1 := PrintSuccess "DONE") (e2 := PrintSuccess "FAIL");
      try reflexivity; discriminate. }
  intros r o12 (R12 & T12 & st & E12 & ->).
  right. split.
  - rewrite !timed_out_app. cbn [app].
    assert (~ timed_out [PrintInfo "Write FLASH "]) by solve_timeout.
    assert (~ timed_out [ShiftIR RELOAD 8; ToggleClk 5]) by solve_timeout.
    assert (~ timed_out [ShiftIR NOOP 8; ToggleClk 5]) by solve_timeout.
    assert (~ timed_out [Flush]) by solve_timeout.
    assert (~ timed_out [Usleep (500 * 1000)]) by solve_timeout.
    tauto.
  - exists st. split.
    + repeat apply ends_with_read_app. exact E12.
    + destruct (done_final st); reflexivity.
Qed.

End FlashVerdict.

(** X22. [writeFLASH] returns for every image and length, and reports
    success exactly when the status poll that follows the pages did not
    time out and the last status read shows done-final set. *)
Theorem writeFLASH_verdict hw g uninit page data length w :
  exists r w' ops,
    writeFLASH hw g uninit page data length w = Some (r, w') /\
    trace w' = trace w ++ ops /\
    (r = true <->
     ~ timed_out ops /\
     exists st, last_status ops = Some st /\ done_final st = true).
Proof.
  destruct (emits_writeFLASH_verdict hw g uninit page data length w)
    as (r & w' & Hrun & ops & Ht & Hres).
  exists r, w', ops.
  split; [exact Hrun |]. split; [exact Ht |].
  split.
  - intros ->. destruct Hres as [(_ & Hf) | (Hn & st & He & Hr)];
      [discriminate |].
    split; [exact Hn |]. exists st.
    split; [apply ends_with_read_last_status, He | symmetry; exact Hr].
  - intros (Hn & st' & Hst' & Hd).
    destruct Hres as [(Hto & _) | (_ & st & He & Hr)]; [tauto |].
    apply ends_with_read_last_status in He.
    rewrite He in Hst'. injection Hst' as <-. rewrite Hr, Hd. reflexivity.
Qed.

Section FlashProgram.

Variable hw : nat -> list Z.
Variable g : Gowin.
Variable uninit : nat -> Z.

Lemma forallb_nonprog ops :
  forallb is_nonprog_event ops = true ->
  forall st, close_page (flash_run st ops) = close_page st.
Proof.
  intros H. apply nonprog_events_keep_pages.
  apply Forall_forall. intros e He.
  rewrite forallb_forall in H. apply H, He.
Qed.

Lemma eraseFLASH_nonprog : confined is_nonprog_event (eraseFLASH hw g).
Proof. unfold_methods. confine. Qed.

Lemma checkCRC_nonprog fs : confined is_nonprog_event (checkCRC hw fs).
Proof. unfold_methods. confine. Qed.

Lemma emits_setClkFreq hz :
  emits (setClkFreq hz) (fun _ ops => ops = [SetClkFreq hz]).
Proof.
  intros w. eexists _, _. split; [reflexivity |].
  eexists. split; reflexivity.
Qed.

(** The pages of [writeFLASH], whatever was programmed before. *)
Lemma emits_writeFLASH_after page data length :
  0 <= length -> Forall is_byte data ->
  emits (writeFLASH hw g uninit page data length) (fun _ ops =>
    forall st,
      close_page (flash_run st ops)
      = close_page st
        ++ flash_pages_upto data (length / 8) page
             (Z.to_nat ((length / 8 + 255) / 256))).
Proof.
  intros Hlen Hd. unfold writeFLASH.
  rewrite Z.quot_div_nonneg by lia.
  assert (Hn : 0 <= length / 8) by (apply Z.div_pos; lia).
  ebind emits_emit. intros [] o1 ->.
  ebind emits_verbose_dump. intros [] o2 (R2 & _).
  eapply emits_bind.
  { apply emits_writeFLASH_loop; try assumption.
    rewrite length_map, length_seq. reflexivity. }
  intros [] o3 H3.
  assert (Htail : forall (tl : list event),
            Forall (fun e => is_nonprog_event e = true) tl ->
            forall st,
              close_page
                (flash_run st ([PrintInfo "Write FLASH "] ++ o2 ++ o3 ++ tl))
              = close_page st
                ++ flash_pages_upto data (length / 8) page
                     (Z.to_nat ((length / 8 + 255) / 256))).
  { intros tl Htl st.
    rewrite !flash_run_app, (nonprog_events_keep_pages tl Htl), H3.
    rewrite nonprog_events_keep_pages by (apply Forall_register_nonprog, R2).
    reflexivity. }
  ebind emits_disableCfg. intros ok o4 (R4 & _).
  apply Forall_register_nonprog in R4.
  destruct ok; cbn [negb].
  2:{ ebind emits_emit. intros [] o5 ->. apply emits_ret.
      apply Htail. rewrite !Forall_app. repeat split; auto; repeat constructor. }
  ebind emits_verbose_dump. intros [] o5 (R5 & _).
  apply Forall_register_nonprog in R5.
  ebind emits_send_command. intros _ o6 (_ & ->).
  ebind emits_send_command. intros _ o7 (_ & ->).
  ebind emits_verbose_dump. intros [] o8 (R8 & _).
  apply Forall_register_nonprog in R8.
  ebind emits_emit. intros [] o9 ->.
  ebind emits_emit. intros [] o10 ->.
  ebind emits_verbose_dump. intros [] o11 (R11 & _).
  apply Forall_register_nonprog in R11.
  eapply emits_weaken.
  { apply emits_final_read with (on_set := true)
      (e1 := PrintSuccess "DONE") (e2 := PrintSuccess "FAIL");
      try reflexivity; discriminate. }
  intros r o12 (R12 & _).
  apply Forall_register_nonprog in R12.
  apply Htail. rewrite !Forall_app. repeat split; auto; repeat constructor.
Qed.

(** What ends [programFlash] once the pages are written programs nothing. *)
Lemma emits_programFlash_end fs :
  emits (when (_verify g)
              (emit (PrintWarn "writing verification not supported")) ;;
         when (negb (skip_checksum g)) (checkCRC hw fs) ;;
         when (_verbose g)
              (st <- readStatusReg hw ;;
               displayReadReg "after program flash" st))
    (fun _ ops => forall st, close_page (flash_run st ops) = close_page st).
Proof.
  eapply emits_bind.
  { apply emits_when with (P := fun ops =>
      forall st, close_page (flash_run st ops) = close_page st).
    eapply emits_weaken; [apply emits_emit |].
    intros [] ops -> st. reflexivity. }
  intros [] o1 H1.
  assert (K1 : forall st, close_page (flash_run st o1) = close_page st)
    by (destruct (_verify g); [exact H1 | subst o1; reflexivity]).
  eapply emits_bind.
  { apply emits_when with (P := fun ops =>
      forall st, close_page (flash_run st ops) = close_page st).
    eapply emits_weaken.
    - apply emits_confined; [apply total_checkCRC | apply checkCRC_nonprog].
    - intros [] ops (_ & H). apply forallb_nonprog, H. }
  intros [] o2 H2.
  assert (K2 : forall st, close_page (flash_run st o2) = close_page st)
    by (destruct (negb (skip_checksum g)); [exact H2 | subst o2; reflexivity]).
  eapply emits_weaken; [apply emits_verbose_dump |].
  intros [] o3 (R3 & _) st.
  rewrite !flash_run_app.
  rewrite nonprog_events_keep_pages by (apply Forall_register_nonprog, R3).
  rewrite K2, K1. reflexivity.
Qed.

(** [programFlash]: nothing is programmed, or the image at address 0, or
    the image and then the firmware at 0x380. *)
Lemma emits_programFlash_pages fs :
  0 <= img_length fs ->
  Forall is_byte (img_data fs) ->
  (forall mcu, _mcufw g = Some mcu ->
     0 <= img_length mcu /\ Forall is_byte (img_data mcu)) ->
  emits (programFlash hw g uninit fs) (fun _ ops =>
    let pages_of := fun (im : Image) page =>
      flash_pages_upto (img_data im) (img_length im / 8) page
        (Z.to_nat ((img_length im / 8 + 255) / 256)) in
    (forall st, close_page (flash_run st ops) = close_page st) \/
    (forall st, close_page (flash_run st ops)
                = close_page st ++ pages_of fs 0) \/
    (exists mcu, _mcufw g = Some mcu /\
       forall st, close_page (flash_run st ops)
                  = close_page st ++ pages_of fs 0 ++ pages_of mcu 0x380)).
Proof.
  intros Hlen Hd Hmcu. unfold programFlash. cbv zeta.
  ebind emits_setClkFreq. intros [] o1 ->.
  ebind emits_send_command. intros _ o2 (_ & ->).
  ebind emits_send_command. intros _ o3 (_ & ->).
  unfold set_state. ebind emits_emit. intros [] o4 ->.
  unfold readStatusReg. ebind emits_readReg32. intros state o5 (rx & -> & ->).
  match goal with
  | |- emits _ (fun _ o => ?Q (?pre ++ o)) => set (prefix := pre)
  | |- emits _ (fun _ o => _) => idtac
  end.
  assert (K0 : forall (pre : list event),
            Forall (fun e => is_nonprog_event e = true) pre ->
            forall st, close_page (flash_run st pre) = close_page st)
    by (intros pre Hp; apply nonprog_events_keep_pages, Hp).
  destruct (Z.land (bytes_word rx) (Z.lor STATUS_GOWIN_VLD STATUS_POR) =? 0).
  { unfold displayReadReg. eapply emits_weaken; [apply emits_emit |].
    intros [] o6 ->. left. intros st.
    rewrite !flash_run_app.
    repeat (rewrite K0 by (repeat constructor)). reflexivity. }
  eapply emits_bind.
  { apply emits_confined; [apply emits_eraseFLASH | apply eraseFLASH_nonprog]. }
  intros ok o6 (_ & N6).
  pose proof (forallb_nonprog o6 N6) as K6.
  destruct ok; cbn [negb].
  2:{ apply emits_ret. left. intros st.
      rewrite ?app_nil_r, !flash_run_app, K6.
      repeat (rewrite K0 by (repeat constructor)). reflexivity. }
  eapply emits_bind; [apply emits_writeFLASH_after; assumption |].
  intros ok o7 K7.
  destruct ok; cbn [negb].
  2:{ apply emits_ret. right. left. intros st.
      rewrite ?app_nil_r, !flash_run_app, K7, K6.
      repeat (rewrite K0 by (repeat constructor)). reflexivity. }
  destruct (_mcufw g) as [mcu |] eqn:Em.
  - destruct (Hmcu mcu eq_refl) as (Hl2 & Hd2).
    eapply emits_bind; [apply emits_writeFLASH_after; assumption |].
    intros ok o8 K8.
    destruct ok; cbn [negb].
    + eapply emits_weaken; [apply emits_programFlash_end |].
      intros [] o9 K9. right. right. exists mcu. split; [reflexivity |].
      intros st.
      rewrite !flash_run_app, K9, K8, K7, K6.
      repeat (rewrite K0 by (repeat constructor)). rewrite <- app_assoc. reflexivity.
    + apply emits_ret. right. right. exists mcu. split; [reflexivity |].
      intros st.
      rewrite ?app_nil_r, !flash_run_app, K8, K7, K6.
      repeat (rewrite K0 by (repeat constructor)). rewrite <- app_assoc. reflexivity.
  - eapply emits_bind; [apply (emits_ret_eq true) |].
    intros ok o8 (-> & ->). cbn [negb].
    eapply emits_weaken; [apply emits_programFlash_end |].
    intros [] o9 K9. right. left. intros st.
    change ([] ++ o9) with o9.
    rewrite !flash_run_app, K9, K7, K6.
    repeat (rewrite K0 by (repeat constructor)). reflexivity.
Qed.

End FlashProgram.

(** X23. [programFlash] returns, and what it programs into the flash is one
    of three things: nothing (the status check or the erase failed); the
    pages of the image from address 0; or, when the session holds firmware,
    the pages of the image from address 0 followed by the pages of the
    firmware from address 0x380. Nothing else is ever programmed, and
    the firmware never goes before the image. *)
Theorem programFlash_pages hw g uninit fs w :
  0 <= img_length fs ->
  Forall is_byte (img_data fs) ->
  (forall mcu, _mcufw g = Some mcu ->
     0 <= img_length mcu /\ Forall is_byte (img_data mcu)) ->
  exists w' ops,
    programFlash hw g uninit fs w = Some (tt, w') /\
    trace w' = trace w ++ ops /\
    let pages_of := fun (im : Image) page =>
      flash_pages_upto (img_data im) (img_length im / 8) page
        (Z.to_nat ((img_length im / 8 + 255) / 256)) in
    (flash_pages ops = [] \/
     flash_pages ops = pages_of fs 0 \/
     exists mcu, _mcufw g = Some mcu /\
       flash_pages ops = pages_of fs 0 ++ pages_of mcu 0x380).
Proof.
  intros Hlen Hd Hmcu.
  destruct (emits_programFlash_pages hw g uninit fs Hlen Hd Hmcu w)
    as ([] & w' & Hrun & ops & Ht & H).
  exists w', ops.
  split; [exact Hrun |]. split; [exact Ht |].
  cbv zeta in *. unfold flash_pages.
  destruct H as [H | [H | (mcu & Em & H)]].
  - left. rewrite H. reflexivity.
  - right. left. rewrite H. reflexivity.
  - right. right. exists mcu. split; [exact Em |]. rewrite H. reflexivity.
Qed.

Lemma programFlash_pages_witness :
  exists w' ops,
    programFlash (hw_const STATUS_GOWIN_VLD) (session0 0x0900281B) zero_junk
                 (mkImage [1; 2; 3; 4; 5] 40 [] 0) (world0 0x0900281B)
    = Some (tt, w') /\
    trace w' = trace (world0 0x0900281B) ++ ops /\
    let pages_of := fun (im : Image) page =>
      flash_pages_upto (img_data im) (img_length im / 8) page
        (Z.to_nat ((img_length im / 8 + 255) / 256)) in
    (flash_pages ops = [] \/
     flash_pages ops = pages_of (mkImage [1; 2; 3; 4; 5] 40 [] 0) 0 \/
     exists mcu, _mcufw (session0 0x0900281B) = Some mcu /\
       flash_pages ops
       = pages_of (mkImage [1; 2; 3; 4; 5] 40 [] 0) 0 ++ pages_of mcu 0x380).
Proof.
  apply (programFlash_pages (hw_const STATUS_GOWIN_VLD) (session0 0x0900281B)
           zero_junk (mkImage [1; 2; 3; 4; 5] 40 [] 0) (world0 0x0900281B)).
  - simpl. lia.
  - repeat constructor; unfold is_byte; lia.
  - intros mcu H. discriminate.
Defined.

(** ** The status display *)

Lemma land_single_bit reg i :
  0 <= i -> (Z.land reg (2 ^ i) =? 0) = negb (Z.testbit reg i).
Proof.
  intros Hi.
  assert (H : Z.land reg (2 ^ i) = if Z.testbit reg i then 2 ^ i else 0).
  { apply Z.bits_inj'. intros n Hn.
    rewrite Z.land_spec, Z.pow2_bits_eqb by lia.
    destruct (Z.eqb_spec i n) as [-> | Hne].
    - rewrite andb_true_r. destruct (Z.testbit reg n).
      + rewrite Z.pow2_bits_true by lia. reflexivity.
      + rewrite Z.bits_0. reflexivity.
    - rewrite andb_false_r. destruct (Z.testbit reg i).
      + rewrite Z.pow2_bits_false by lia. reflexivity.
      + rewrite Z.bits_0. reflexivity. }
  rewrite H. destruct (Z.testbit reg i); cbn [negb].
  - apply Z.eqb_neq. assert (0 < 2 ^ i) by (apply Z.pow_pos_nonneg; lia). lia.
  - reflexivity.
Qed.

Lemma displayReadReg_flags_bits reg n :
  forall i, (i + n <= 19)%nat ->
    displayReadReg_flags reg n i (2 ^ Z.of_nat i)
    = map (fun j => nth j desc ""%string)
          (filter (fun j => Z.testbit reg (Z.of_nat j)) (seq i n)).
Proof.
  induction n as [| n IH]; intros i Hi; [reflexivity |].
  cbn [displayReadReg_flags seq filter].
  rewrite land_single_bit, negb_involutive by lia.
  assert (Hbm : u32 (Z.shiftl (2 ^ Z.of_nat i) 1) = 2 ^ Z.of_nat (S i)).
  { rewrite Z.shiftl_mul_pow2 by lia.
    replace (Z.of_nat (S i)) with (Z.of_nat i + 1) by lia.
    rewrite Z.pow_add_r by lia.
    apply Z.mod_small. split.
    - assert (0 < 2 ^ Z.of_nat i) by (apply Z.pow_pos_nonneg; lia). lia.
    - rewrite <- Z.pow_add_r by lia. apply Z.pow_lt_mono_r; lia. }
  rewrite Hbm, IH by lia.
  destruct (Z.testbit reg (Z.of_nat i)); reflexivity.
Qed.

(** X24. Under its header line [displayReadReg] prints the name of status
    bit [i], for [i] from 0 to 18 in this order, exactly when bit [i] of the
    register is set; bits 19 and above are never shown; and each of the
    five status masks that the programmer tests is shown under its own
    name. *)
Theorem displayReadReg_text_bits reg :
  displayReadReg_text reg
  = map (fun j => nth j desc ""%string)
        (filter (fun j => Z.testbit reg (Z.of_nat j)) (seq 0 19)) /\
  displayReadReg_text (reg mod 2 ^ 19) = displayReadReg_text reg /\
  map displayReadReg_text
      [STATUS_MEMORY_ERASE; STATUS_SYSTEM_EDIT_MODE; STATUS_GOWIN_VLD;
       STATUS_DONE_FINAL; STATUS_POR]
  = [["Memory Erase"]; ["System Edit Mode"]; ["Gowin VLD"]; ["Done Final"];
     ["POR"]]%string.
Proof.
  assert (H : forall r, displayReadReg_text r
                        = map (fun j => nth j desc ""%string)
                              (filter (fun j => Z.testbit r (Z.of_nat j))
                                      (seq 0 19))).
  { intros r. apply (displayReadReg_flags_bits r 19 0). lia. }
  split; [apply H |]. split; [| reflexivity].
  rewrite !H. f_equal. apply filter_ext_in.
  intros j Hj. apply in_seq in Hj.
  apply Z.mod_pow2_bits_low. lia.
Qed.

(** ** The bit-bang status wait *)

Lemma bytes_of_zero_bits n :
  bytes_of_bits (repeat false (8 * n)) = repeat 0 n.
Proof.
  induction n as [| n IH]; [reflexivity |].
  replace (8 * S n)%nat with (8 + 8 * n)%nat by lia.
  rewrite repeat_app.
  change (bytes_of_bits (repeat false 8 ++ repeat false (8 * n)))
    with (0 :: bytes_of_bits (repeat false (8 * n))).
  rewrite IH. reflexivity.
Qed.

Lemma clocked_console g ops :
  Forall (fun e => is_console e = true) ops -> spi_clocked_bits g ops = [].
Proof.
  induction 1 as [| e ops He _ IH]; [reflexivity |].
  destruct e; try discriminate; exact IH.
Qed.

Section SpiWaitBits.

Variable hw : nat -> list Z.
Variable g : Gowin.
Variable uninit : nat -> Z.

Hypothesis Hpins : pins_installed g.


Lemma poll_vectors t :
  t = (poll_low g) \/ t = (poll_high g) ->
  u8 (Z.land t (Z.lnot (_spi_sck g))) = (poll_low g) /\
  forall tdo1 tdo2,
    spi_clocked_bits g
      ([ShiftDR [(poll_low g)] tdo1 8 None; ToggleClk 6]
       ++ [ShiftDR [(poll_high g)] tdo2 8 None; ToggleClk 6] ++ [Flush])
    = [false].
Proof.
  unfold poll_high, poll_low, spi_clocked_bits. cbn [app flat_map].
  destruct Hpins as [E | E]; injection E as -> -> -> -> ->;
    intros [-> | ->]; split; reflexivity.
Qed.

Lemma clocked_idle tdo :
  spi_clocked_bits g [ShiftDR [(poll_low g)] tdo 8 None; ToggleClk 6] = [].
Proof.
  unfold poll_low, spi_clocked_bits. cbn [flat_map].
  destruct Hpins as [E | E]; injection E as -> -> -> -> ->; reflexivity.
Qed.

(** The command loop clocks out [cmd], most significant bit first. *)
Lemma emits_spi_wait_cmd_bits cmd :
  emits (loop 9 (spi_wait_cmd_body hw g cmd) (0, 0x80))
    (fun _ ops => spi_clocked_bits g ops = byte_bits cmd).
Proof.
  apply emits_loop with
    (Inv := fun st acc =>
       exists k, (k <= 8)%nat /\ fst st = Z.of_nat k /\
                 snd st = nth k bit_masks 0 /\
                 spi_clocked_bits g acc
                 = map (fun bm => negb (Z.land cmd bm =? 0)) (firstn k bit_masks))
    (mu := fun st => Z.to_nat (8 - fst st)).
  - intros [i bm] acc. cbn [fst snd]. intros (k & Hk & -> & -> & Hacc).
    unfold spi_wait_cmd_body.
    destruct (Z.ltb_spec (Z.of_nat k) 8) as [Hlt | Hge].
    + cbv zeta.
      ebind emits_spi_gowin_write. intros _ o1 (tdo1 & ->).
      ebind emits_spi_gowin_write. intros _ o2 (tdo2 & ->).
      unfold flush. ebind emits_emit. intros [] o3 ->.
      apply emits_ret. rewrite app_nil_r. cbn [fst snd].
      assert (Hu : u8 (Z.of_nat k + 1) = Z.of_nat k + 1)
        by (apply Z.mod_small; lia).
      rewrite Hu. split; [| lia].
      exists (S k). split; [lia |]. split; [lia |]. split.
      { do 8 (destruct k as [| k]; [reflexivity |]). lia. }
      rewrite spi_clocked_bits_app, Hacc.
      rewrite (clocked_bit g Hpins (negb (Z.land cmd (nth k bit_masks 0) =? 0))).
      assert (Hk' : (k < List.length bit_masks)%nat) by (cbn; lia).
      rewrite (firstn_snoc bit_masks k 0 Hk'), map_app. reflexivity.
    + apply emits_ret. rewrite app_nil_r.
      assert (k = 8%nat) by lia. subst k. exact Hacc.
  - cbn [fst snd]. exists 0%nat. repeat split; lia.
  - cbn [fst]. lia.
Qed.

(** The eight rounds of a read clock in eight bits with data-in low. *)
Lemma emits_spi_wait_read_bits t0 :
  t0 = (poll_low g) \/ t0 = (poll_high g) ->
  emits (loop 9 (spi_wait_read_body hw g) (0, 0x80, t0, 0))
    (fun r ops =>
       (fst r = (poll_low g) \/ fst r = (poll_high g)) /\
       spi_clocked_bits g ops = repeat false 8).
Proof.
  intros Ht0.
  apply emits_loop with
    (Inv := fun st acc =>
       let i := fst (fst (fst st)) in
       let t := snd (fst st) in
       exists k, (k <= 8)%nat /\ i = Z.of_nat k /\
                 (t = (poll_low g) \/ t = (poll_high g)) /\
                 spi_clocked_bits g acc = repeat false k)
    (mu := fun st => Z.to_nat (8 - fst (fst (fst st)))).
  - intros [[[i bm] t] tmp] acc. cbn [fst snd].
    intros (k & Hk & -> & Ht & Hacc).
    unfold spi_wait_read_body.
    destruct (poll_vectors t Ht) as (Hlow & Hbit).
    destruct (Z.ltb_spec (Z.of_nat k) 8) as [Hlt | Hge].
    + cbv zeta. rewrite Hlow. fold (poll_low g). fold (poll_high g).
      ebind emits_spi_gowin_write. intros _ o1 (tdo1 & ->).
      ebind emits_spi_gowin_write. intros r o2 (tdo2 & ->).
      unfold flush. ebind emits_emit. intros [] o3 ->.
      apply emits_ret. rewrite app_nil_r. cbn [fst snd].
      assert (Hu : u8 (Z.of_nat k + 1) = Z.of_nat k + 1)
        by (apply Z.mod_small; lia).
      rewrite Hu. split; [| lia].
      exists (S k). split; [lia |]. split; [lia |].
      split; [right; reflexivity |].
      rewrite spi_clocked_bits_app, Hacc, Hbit.
      replace (S k) with (k + 1)%nat by lia. rewrite repeat_app. reflexivity.
    + apply emits_ret. rewrite app_nil_r. cbn [fst].
      assert (k = 8%nat) by lia. subst k. auto.
  - cbn [fst snd]. exists 0%nat. repeat split; try lia; auto.
  - cbn [fst]. lia.
Qed.

(** The polls: [n] reads, at least one and at most the budget. *)
Lemma emits_spi_wait_polls mask cond timeout verbose :
  0 <= timeout < 2 ^ 32 ->
  emits (loop SPI_WAIT_FUEL
              (spi_wait_legacy_body hw g mask cond timeout verbose)
              (0, (poll_low g)))
    (fun _ ops =>
       exists n, (1 <= n)%nat /\ Z.of_nat n <= spi_budget timeout /\
                 spi_clocked_bits g ops = repeat false (8 * n)).
Proof.
  intros Htimeout.
  assert (Hbudget : 0 < spi_budget timeout <= 2 ^ 32).
  { unfold spi_budget. destruct (Z.eqb_spec timeout 0); lia. }
  apply emits_loop with
    (Inv := fun st acc =>
       let count := fst st in
       0 <= count < spi_budget timeout /\
       (snd st = (poll_low g) \/ snd st = (poll_high g)) /\
       spi_clocked_bits g acc = repeat false (8 * Z.to_nat count))
    (mu := fun st => Z.to_nat (spi_budget timeout - 1 - fst st)).
  - intros [count t] acc. cbn [fst snd]. intros (Hc & Ht & Hacc).
    unfold spi_wait_legacy_body. cbv zeta.
    eapply emits_bind; [apply emits_spi_wait_read_bits, Ht |].
    intros [t' tmp] o1. cbn [fst]. intros (Ht' & H1).
    destruct (count_meets_timeout timeout count Htimeout) as (Hmeet & Hstep);
      [lia |].
    assert (Hbits : forall tl, Forall (fun e => is_console e = true) tl ->
              spi_clocked_bits g (acc ++ o1 ++ tl)
              = repeat false (8 * S (Z.to_nat count))).
    { intros tl Htl.
      rewrite !spi_clocked_bits_app, Hacc, H1, (clocked_console g tl Htl).
      rewrite app_nil_r, <- repeat_app. f_equal. lia. }
    destruct (Z.eqb_spec (u32 (count + 1)) timeout) as [Heq | Hne].
    + ebind emits_emit. intros [] o2 ->. apply emits_ret.
      rewrite app_nil_r.
      exists (S (Z.to_nat count)). split; [lia |]. split; [lia |].
      apply Hbits. repeat constructor.
    + assert (Hn : count + 1 <> spi_budget timeout)
        by (intros E; apply Hne, Hmeet, E).
      rewrite (Hstep Hn).
      eapply emits_bind.
      { apply emits_when with (P := fun ops =>
          Forall (fun e => is_console e = true) ops).
        eapply emits_weaken; [apply emits_emit |].
        intros [] ops ->. repeat constructor. }
      intros [] o2 H2.
      assert (C2 : Forall (fun e => is_console e = true) o2)
        by (destruct verbose; [exact H2 | subst o2; constructor]).
      destruct (negb (Z.land tmp mask =? cond)).
      * apply emits_ret. rewrite app_nil_r. cbn [fst snd].
        split; [| lia]. split; [lia |]. split; [exact Ht' |].
        rewrite Hbits by exact C2. f_equal. lia.
      * apply emits_ret. rewrite app_nil_r.
        exists (S (Z.to_nat count)). split; [lia |]. split; [lia |].
        apply Hbits, C2.
  - cbn [fst snd]. split; [lia |]. split; [left; reflexivity | reflexivity].
  - cbn [fst]. unfold SPI_WAIT_FUEL. lia.
Qed.

Lemma emits_spi_wait_legacy cmd mask cond timeout verbose :
  is_gw2a g = false ->
  0 <= timeout < 2 ^ 32 ->
  emits (spi_wait hw g uninit cmd mask cond timeout verbose) (fun _ ops =>
    exists n, (1 <= n)%nat /\ Z.of_nat n <= spi_budget timeout /\
              spi_clocked_bits g ops = byte_bits cmd ++ repeat false (8 * n)).
Proof.
  intros Hg Htimeout. unfold spi_wait. rewrite Hg. cbv zeta.
  fold (poll_low g).
  eapply emits_bind with (P1 := fun _ ops =>
    exists n, (1 <= n)%nat /\ Z.of_nat n <= spi_budget timeout /\
              spi_clocked_bits g ops = byte_bits cmd ++ repeat false (8 * n)).
  { ebind emits_spi_gowin_write. intros _ o1 (tdo1 & ->).
    ebind emits_spi_wait_cmd_bits. intros [] o2 H2.
    eapply emits_bind; [apply emits_spi_wait_polls, Htimeout |].
    intros [[count t] tmp] o3 (n & Hn1 & Hn2 & H3).
    ebind emits_spi_gowin_write. intros _ o4 (tdo4 & ->).
    unfold flush. ebind emits_emit. intros [] o5 ->.
    apply emits_ret. rewrite app_nil_r.
    exists n. split; [exact Hn1 |]. split; [exact Hn2 |].
    rewrite !spi_clocked_bits_app, H2, H3, clocked_idle.
    rewrite (clocked_release g Hpins t tdo4). cbn [app spi_clocked_bits flat_map].
    rewrite !app_nil_r. reflexivity. }
  intros [count tmp] o1 H1.
  destruct (count =? timeout).
  - ebind emits_emit. intros [] o2 ->.
    ebind emits_emit. intros [] o3 ->.
    apply emits_ret. rewrite app_nil_r.
    destruct H1 as (n & Hn1 & Hn2 & H1). exists n.
    split; [exact Hn1 |]. split; [exact Hn2 |].
    rewrite !spi_clocked_bits_app, H1. cbn. rewrite !app_nil_r. reflexivity.
  - apply emits_ret. rewrite app_nil_r. exact H1.
Qed.

End SpiWaitBits.

(** X25. On the bit-bang path, [spi_wait] clocks the command byte into the
    flash once, most significant bit first, and then only zero bits, eight
    for each status read: what the flash is sent is [cmd] followed by [n]
    zero bytes, where [n], the number of reads, is at least 1 and at most
    the iteration budget. *)
Theorem spi_wait_bitbang_command hw g uninit cmd mask cond timeout verbose w :
  pins_installed g ->
  is_gw2a g = false ->
  0 <= timeout < 2 ^ 32 ->
  is_byte cmd ->
  exists r w' ops n,
    spi_wait hw g uninit cmd mask cond timeout verbose w = Some (r, w') /\
    trace w' = trace w ++ ops /\
    (1 <= n)%nat /\ Z.of_nat n <= spi_budget timeout /\
    bytes_of_bits (spi_clocked_bits g ops) = cmd :: repeat 0 n.
Proof.
  intros Hpins Hg Htimeout Hcmd.
  destruct (emits_spi_wait_legacy hw g uninit Hpins cmd mask cond timeout
              verbose Hg Htimeout w)
    as (r & w' & Hrun & ops & Ht & n & Hn1 & Hn2 & Hbits).
  exists r, w', ops, n.
  split; [exact Hrun |]. split; [exact Ht |].
  split; [exact Hn1 |]. split; [exact Hn2 |].
  rewrite Hbits, bytes_of_byte_bits by exact Hcmd.
  rewrite bytes_of_zero_bits. reflexivity.
Qed.

Lemma spi_wait_bitbang_command_witness :
  exists r w' ops n,
    spi_wait (hw_const 0) (session0 0x0900281B) zero_junk 0x05 0x01 0 3 false
             (world0 0x0900281B) = Some (r, w') /\
    trace w' = trace (world0 0x0900281B) ++ ops /\
    (1 <= n)%nat /\ Z.of_nat n <= spi_budget 3 /\
    bytes_of_bits (spi_clocked_bits (session0 0x0900281B) ops)
    = 0x05 :: repeat 0 n.
Proof.
  apply (spi_wait_bitbang_command (hw_const 0) (session0 0x0900281B)
           zero_junk 0x05 0x01 0 3 false (world0 0x0900281B)).
  - left. reflexivity.
  - reflexivity.
  - lia.
  - unfold is_byte. lia.
Defined.

(** ** The status wait of the SPI flash *)

Lemma spi_wait_assisted_confined hw g uninit cmd mask cond timeout verbose :
  is_gw2a g = true ->
  confined (is_assisted_poll_event [reverseByte cmd; uninit 1%nat; uninit 2%nat])
           (spi_wait hw g uninit cmd mask cond timeout verbose).
Proof.
  intros G. unfold spi_wait. rewrite G. cbv zeta.
  apply confined_bind.
  - apply confined_loop. intros count. unfold spi_wait_gw2a_body.
    apply confined_bind.
    { unfold send_command, shiftIR, toggleClk. confine. }
    intros _. apply confined_bind.
    { unfold set_state. confine. }
    intros _. apply confined_bind.
    { apply confined_shiftDR_rx. intros rx. unfold is_assisted_poll_event.
      destruct (list_eq_dec Z.eq_dec _ _) as [_ | N];
        [reflexivity | congruence]. }
    intros rx. confine.
  - intros [count tmp]. confine.
Qed.

(** X26. For a session built by the constructor and a 32-bit [timeout],
    [spi_wait] returns. It returns 0 when one of the polls before the budget
    is used up satisfies [(response & mask) == cond], and the code [-ETIME],
    which is not 0, when none does (the poll that uses up the budget is made
    but not tested). On the bit-bang path the last data register shift is
    the pin vector with chip-select high and clock low, on success and on
    timeout alike. On the shift-register-assisted path the function sends
    nothing but polls: instruction 0x16 with five clocks, the move to
    Exit2-DR and a captured 24-bit shift whose first byte is the
    bit-reversed command; it writes no pin vector. *)
Theorem spi_wait_outcome file_extension open_file mcufw open_mcufw prg_type
    external_flash verify verbose0 quiet skip_checksum0 w0 g w1
    hw uninit cmd mask cond timeout verbose w :
  Gowin_ctor file_extension open_file mcufw open_mcufw prg_type
             external_flash verify verbose0 quiet skip_checksum0 w0
  = Some (inr g, w1) ->
  0 <= timeout < 2 ^ 32 ->
  exists r w',
    spi_wait hw g uninit cmd mask cond timeout verbose w = Some (r, w') /\
    (r = 0 /\
     (exists j, Z.of_nat j < spi_budget timeout - 1 /\
        Z.land (spi_response g hw (reads w) j) mask = cond)
     \/
     r = - ETIME /\ r <> 0 /\
     (forall j, Z.of_nat j < spi_budget timeout - 1 ->
        Z.land (spi_response g hw (reads w) j) mask <> cond)) /\
    (is_gw2a g = false -> bus_released g (trace w') = true) /\
    (is_gw2a g = true ->
     exists ops,
       trace w' = trace w ++ ops /\
       forallb (is_assisted_poll_event
                  [reverseByte cmd; uninit 1%nat; uninit 2%nat]) ops = true).
Proof.
  intros Hctor Ht.
  pose proof (Gowin_ctor_pins _ _ _ _ _ _ _ _ _ _ _ _ _ Hctor) as Hpins.
  clear Hctor.
  assert (H : spec (spi_wait hw g uninit cmd mask cond timeout verbose) w
            (fun r w' =>
               (r = 0 /\
                (exists j, Z.of_nat j < spi_budget timeout - 1 /\
                   Z.land (spi_response g hw (reads w) j) mask = cond)
                \/
                r = - ETIME /\ r <> 0 /\
                (forall j, Z.of_nat j < spi_budget timeout - 1 ->
                   Z.land (spi_response g hw (reads w) j) mask <> cond)) /\
               (is_gw2a g = false -> bus_released g (trace w') = true))).
  {
    unfold spi_wait, spi_response.
    destruct (is_gw2a g) eqn:G.
    - (* shift-register-assisted *)
      apply spec_bind.
      eapply spec_weaken; [apply spi_wait_gw2a_loop, Ht |].
      intros [count tmp] w2. cbn [fst].
      intros (H & pre & tdo & ops & Htr & Hcons).
      destruct H as [(Heq & Hno) | (Hne & Hex)].
      + rewrite (proj2 (Z.eqb_eq count timeout) Heq).
        apply spec_bind, spec_emit, spec_bind, spec_emit, spec_ret.
        cbn [trace]. split.
        * right. split; [reflexivity |]. split; [discriminate | exact Hno].
        * discriminate.
      + rewrite (proj2 (Z.eqb_neq count timeout) Hne).
        apply spec_ret. split.
        * left. split; [reflexivity | exact Hex].
        * discriminate.
    - (* bit-bang *)
      apply spec_bind. apply spec_bind.
      eexists _, _. split; [reflexivity |].
      apply spec_bind.
      eapply spec_weaken; [apply spi_wait_cmd_loop |].
      intros [] w2 Hr2. cbn [reads] in Hr2.
      apply spec_bind.
      eapply spec_weaken; [apply spi_wait_legacy_loop, Ht |].
      intros [[count t] tmp] w3. cbn [fst]. rewrite Hr2. intros H.
      set (v := u8 (Z.lor (u8 (Z.land t (Z.lnot (_spi_sck g)))) (_spi_cs g))).
      assert (Hv : negb (Z.land v (_spi_cs g) =? 0)
                   && (Z.land v (_spi_sck g) =? 0) = true)
        by (apply released_vector, Hpins).
      apply spec_bind. eexists _, _. split; [reflexivity |].
      apply spec_bind. eexists _, _. split; [reflexivity |].
      apply spec_ret.
      cbn [trace].
      assert (Hlast : forall tl,
                Forall (fun e => is_console e = true) tl ->
                bus_released g
                  ((((trace w3 ++ [ShiftDR [v] None 8 None]) ++ [ToggleClk 6])
                    ++ [Flush]) ++ tl) = true).
      { intros tl Htl. unfold bus_released.
        rewrite <- !app_assoc, last_shift_dr_app. cbn [app last_shift_dr].
        rewrite last_shift_dr_console by exact Htl.
        rewrite Z.eqb_refl. exact Hv. }
      destruct H as [(Heq & Hno) | (Hne & Hex)].
      + rewrite (proj2 (Z.eqb_eq count timeout) Heq).
        apply spec_bind, spec_emit, spec_bind, spec_emit, spec_ret.
        cbn [trace]. split.
        * right. split; [reflexivity |]. split; [discriminate | exact Hno].
        * intros _.
          rewrite <- (app_assoc _ [_] [_]). apply Hlast. repeat constructor.
      + rewrite (proj2 (Z.eqb_neq count timeout) Hne).
        apply spec_ret. split.
        * left. split; [reflexivity | exact Hex].
        * intros _.
          rewrite <- (app_nil_r (_ ++ [Flush])). apply Hlast. constructor.
  }
  destruct H as (r & w' & Hrun & Hres & Hbus).
  exists r, w'. split; [exact Hrun |]. split; [exact Hres |].
  split; [exact Hbus |].
  intros G.
  exact (spi_wait_assisted_confined hw g uninit cmd mask cond timeout verbose
           G _ _ _ Hrun).
Qed.

Lemma spi_wait_outcome_witness :
  exists r w',
    spi_wait (hw_const 0) session_gw2a zero_junk 0x05 0x01 0 3 false
             (world0 0x0000081b)
    = Some (r, w') /\
    (r = 0 /\
     (exists j, Z.of_nat j < spi_budget 3 - 1 /\
        Z.land (spi_response session_gw2a (hw_const 0)
                             (reads (world0 0x0000081b)) j) 0x01 = 0)
     \/
     r = - ETIME /\ r <> 0 /\
     (forall j, Z.of_nat j < spi_budget 3 - 1 ->
        Z.land (spi_response session_gw2a (hw_const 0)
                             (reads (world0 0x0000081b)) j) 0x01 <> 0)) /\
    (is_gw2a session_gw2a = false ->
     bus_released session_gw2a (trace w') = true) /\
    (is_gw2a session_gw2a = true ->
     exists ops,
       trace w' = trace (world0 0x0000081b) ++ ops /\
       forallb (is_assisted_poll_event
                  [reverseByte 0x05; zero_junk 1%nat; zero_junk 2%nat]) ops
       = true).
Proof.
  apply (spi_wait_outcome "" None "" None WR_FLASH false false false false false
           (world0 0x0000081b) session_gw2a (world0 0x0000081b)
           (hw_const 0) zero_junk 0x05 0x01 0 3 false (world0 0x0000081b)).
  - reflexivity.
  - lia.
Defined.
